(** * Challenge evaluation service of the Cemil Slack bot

    A shallow embedding of [src/services/challenge_evaluation_service.py]:
    the record store (four SQLite tables seen through their repositories),
    the external gateways (Slack conversations, chat, scheduler) as an
    effect log with an oracle for failures, and the service operations
    [start_evaluation], [toggle_juror], [submit_vote],
    [admin_finalize_evaluation], [finalize_evaluation] and
    [force_complete_evaluation] as state transformers. *)

From Stdlib Require Import String Ascii List Bool Arith ZArith Lia.
Import ListNotations.
Open Scope string_scope.

Set Implicit Arguments.

(** ** Python values *)

(** Truthiness of an optional string ([None] and [""] are falsy). *)
Definition truthy (o : option string) : bool :=
  match o with
  | Some s => negb (s =? "")
  | None => false
  end.

(** [x == y] where [y] may be [None]. *)
Definition eq_opt (x : string) (y : option string) : bool :=
  match y with
  | Some s => x =? s
  | None => false
  end.

(** [str.lower()] of a string of ASCII characters: the letters [A] to [Z]
    become [a] to [z].  What [str.lower()] does to other characters is
    given by the Unicode tables of the interpreter, which the service
    takes as it finds them (field [lower] of the environment below); this
    function is only used on ASCII strings. *)
Definition lower_ascii (c : ascii) : ascii :=
  let n := nat_of_ascii c in
  if ((65 <=? n) && (n <=? 90))%nat then ascii_of_nat (n + 32) else c.

Fixpoint ascii_lower (s : string) : string :=
  match s with
  | EmptyString => EmptyString
  | String c s' => String (lower_ascii c) (ascii_lower s')
  end.

(** ** Rows of the record store *)

Module Hub.
(** A row of [challenge_hubs], with the columns the service reads or
    writes. *)
Record t := mk {
  id : string;
  creator_id : string;
  theme : string;
  status : string;
  challenge_channel_id : option string;
  hub_channel_id : option string;
  completed_at : option string
}.
End Hub.

Module Participant.
(** A row of [challenge_participants]. *)
Record t := mk {
  id : string;
  challenge_hub_id : string;
  user_id : string
}.
End Participant.

Module Evaluation.
(** A row of [challenge_evaluations]. *)
Record t := mk {
  id : string;
  challenge_hub_id : string;
  status : string;
  deadline_at : string;
  evaluation_channel_id : option string;
  github_repo_url : option string;
  github_repo_public : option Z;
  true_votes : nat;
  false_votes : nat;
  admin_approval : option string;
  final_result : option string;
  completed_at : option string
}.
End Evaluation.

Module Evaluator.
(** A row of [challenge_evaluators]. *)
Record t := mk {
  id : string;
  evaluation_id : string;
  user_id : string;
  vote : option string;
  voted_at : option string
}.
End Evaluator.

(** ** External gateways *)

(** The failure reasons itemised in the result message of
    [finalize_evaluation]. *)
Inductive Reason :=
  | RejectedByAdmin                       (* "Admin tarafından reddedildi" *)
  | VotesNotMajority (t f : nat)          (* "True oyları (t) False oylarından (f) fazla değil" *)
  | RepoLinkMissing                       (* "GitHub repo linki eklenmemiş" *)
  | RepoNotPublic.                        (* "GitHub repo public değil" *)

(** The [result_message] of [finalize_evaluation]: the success banner, or
    the failure banner followed by its bulleted reasons. *)
Inductive ResultMessage :=
  | Succeeded
  | Failed (reasons : list Reason).

(** The texts the service posts, by kind and with the values that are
    interpolated into them. *)
Inductive Message :=
  | MWelcome
  | MJuryCall (theme : string)
  | MWithdrawnDM (theme : string)
  | MCandidateDM (theme : string) (count : nat)
  | MJuryAssembled (juror_ids : list string)
  | MJuryReadyDM
  | MAdminApprovalRequest (t f : nat) (url : option string)
  | MRepoMissing
  | MRepoPrivate
  | MResult (result_message : ResultMessage) (t f : nat) (github_public : bool)
  | MForced (result : string) (admin : string).

(** A call to a collaborator outside the record store. *)
Inductive Effect :=
  | CreateChannel (name : string)
  | InviteUsers (channel : string) (users : list string)
  | PostMessage (channel : string) (msg : Message)
  | ArchiveChannel (channel : string)
  | OpenConversation (user : string)
  | AddOnceJob (job_id : string) (delay_minutes : nat) (arg : string).

(** ** The state the service works on *)

Record World := mkWorld {
  hubs : list Hub.t;
  participants : list Participant.t;
  evaluations : list Evaluation.t;
  evaluators : list Evaluator.t;
  effects : list Effect          (* calls made so far, oldest first *)
}.

(** What a call reads from outside the record store: the settings, the
    clock, the uuid generator, the behaviour of the collaborators and the
    interpreter's [str.lower]. *)
Record Env := mkEnv {
  admin_slack_id : option string;
  clock : nat -> string;                       (* k-th [datetime.now()] of the call *)
  plus_hours : string -> nat -> string;        (* [t + timedelta(hours=h)] *)
  uuid4 : nat -> string;                       (* k-th [uuid.uuid4()] of the call *)
  channel_id_of : string -> string;            (* id of the channel created under a name *)
  dm_channel_of : string -> option string;     (* DM channel opened with a user, if any *)
  gateway_ok : list Effect -> Effect -> bool;  (* does this call succeed, given the history *)
  lower : string -> string                     (* [s.lower()] *)
}.

(** Performs an external call: the call is logged, and the oracle says
    whether it returns ([true]) or raises ([false]). *)
Definition call (env : Env) (e : Effect) (w : World) : bool * World :=
  (gateway_ok env (effects w) e,
   mkWorld (hubs w) (participants w) (evaluations w) (evaluators w)
           (effects w ++ [e])%list).

(** An external call inside [try: ... except: log]. *)
Definition try_call (env : Env) (e : Effect) (w : World) : World :=
  snd (call env e w).

(** ** Repositories

    The generic repository ([BaseRepository]) and the two evaluation
    repositories are imported by the service but their modules are not
    among the sources; they are modelled from the record-store contract. *)

Section BaseRepository.
Variable Row : Type.
Variable row_id : Row -> string.

(** Modelled from the spec: [BaseRepository.get] is missing; this is
    [get(kind, id)], the row stored under an id, if any. *)
Definition repo_get (rows : list Row) (i : string) : option Row :=
  find (fun r => row_id r =? i) rows.

(** Modelled from the spec: [BaseRepository.create] is missing; this is
    [create(kind, record)], which adds the record to the table. *)
Definition repo_create (rows : list Row) (r : Row) : list Row :=
  (rows ++ [r])%list.

(** Modelled from the spec: [BaseRepository.update] is missing; this is
    [update(kind, id, partial)], which overwrites the listed columns of
    the row stored under the id. *)
Definition repo_update (rows : list Row) (i : string) (partial : Row -> Row)
  : list Row :=
  map (fun r => if row_id r =? i then partial r else r) rows.

(** Modelled from the spec: [BaseRepository.delete] is missing; this is
    [delete(kind, id)]. *)
Definition repo_delete (rows : list Row) (i : string) : list Row :=
  filter (fun r => negb (row_id r =? i)) rows.

(** Modelled from the spec: [BaseRepository.list] is missing; this is
    [list(kind, filter)], the rows that satisfy the filter in table
    order. *)
Definition repo_list (rows : list Row) (p : Row -> bool) : list Row :=
  filter p rows.
End BaseRepository.

(** [ChallengeHubRepository] and [ChallengeParticipantRepository] *)

Definition hub_get (w : World) (i : string) : option Hub.t :=
  repo_get Hub.id (hubs w) i.

Definition hub_update (i : string) (partial : Hub.t -> Hub.t) (w : World)
  : World :=
  mkWorld (repo_update Hub.id (hubs w) i partial) (participants w)
          (evaluations w) (evaluators w) (effects w).

(** [participant_repo.list(filters={"challenge_hub_id": h})] followed by
    [[p["user_id"] for p in participants]]. *)
Definition participant_ids (w : World) (h : string) : list string :=
  map Participant.user_id
      (repo_list (participants w)
                 (fun p => Participant.challenge_hub_id p =? h)).

(** [ChallengeEvaluationRepository] *)

Definition evaluation_get (w : World) (i : string) : option Evaluation.t :=
  repo_get Evaluation.id (evaluations w) i.

(** Modelled from the spec: [ChallengeEvaluationRepository.get_by_challenge]
    is missing; as [ChallengeSubmissionRepository.get_by_challenge] does,
    it returns the first row listed for the hub, or [None]. *)
Definition get_by_challenge (w : World) (h : string) : option Evaluation.t :=
  hd_error (repo_list (evaluations w)
                      (fun e => Evaluation.challenge_hub_id e =? h)).

Definition evaluation_create (r : Evaluation.t) (w : World) : World :=
  mkWorld (hubs w) (participants w) (repo_create (evaluations w) r)
          (evaluators w) (effects w).

Definition evaluation_update (i : string)
  (partial : Evaluation.t -> Evaluation.t) (w : World) : World :=
  mkWorld (hubs w) (participants w)
          (repo_update Evaluation.id (evaluations w) i partial)
          (evaluators w) (effects w).

(** Modelled from the spec: [ChallengeEvaluationRepository.update_votes] is
    missing; it stores the running tallies (true-count, false-count) on
    the evaluation. *)
Definition set_votes (t f : nat) (e : Evaluation.t) : Evaluation.t :=
  Evaluation.mk (Evaluation.id e) (Evaluation.challenge_hub_id e)
    (Evaluation.status e) (Evaluation.deadline_at e)
    (Evaluation.evaluation_channel_id e)
    (Evaluation.github_repo_url e) (Evaluation.github_repo_public e)
    t f
    (Evaluation.admin_approval e) (Evaluation.final_result e)
    (Evaluation.completed_at e).

Definition update_votes (i : string) (t f : nat) (w : World) : World :=
  evaluation_update i (set_votes t f) w.

(** [ChallengeEvaluatorRepository] *)

(** Modelled from the spec: [list_by_evaluation] is missing; the jurors of
    one evaluation, in table order. *)
Definition list_by_evaluation (w : World) (e : string) : list Evaluator.t :=
  repo_list (evaluators w) (fun j => Evaluator.evaluation_id j =? e).

(** Modelled from the spec: [count_evaluators] is missing; the size of the
    jury pool of one evaluation. *)
Definition count_evaluators (w : World) (e : string) : nat :=
  length (list_by_evaluation w e).

(** Modelled from the spec: [get_by_evaluation_and_user] is missing; the
    juror slot a user holds in an evaluation, if any (the first one in
    table order). *)
Definition get_by_evaluation_and_user (w : World) (e u : string)
  : option Evaluator.t :=
  find (fun j => (Evaluator.evaluation_id j =? e) && (Evaluator.user_id j =? u))
       (evaluators w).

(** Does a juror row carry the given vote? *)
Definition voted (v : string) (j : Evaluator.t) : bool :=
  eq_opt v (Evaluator.vote j).

(** Modelled from the spec: [get_votes] is missing; the dictionary
    [{"true": n, "false": m}] counting the jurors of the evaluation whose
    cast vote is each of the two boolean-like values. *)
Definition get_votes (w : World) (e : string) : nat * nat :=
  (length (filter (voted "true") (list_by_evaluation w e)),
   length (filter (voted "false") (list_by_evaluation w e))).

Definition evaluator_create (r : Evaluator.t) (w : World) : World :=
  mkWorld (hubs w) (participants w) (evaluations w)
          (repo_create (evaluators w) r) (effects w).

Definition evaluator_update (i : string)
  (partial : Evaluator.t -> Evaluator.t) (w : World) : World :=
  mkWorld (hubs w) (participants w) (evaluations w)
          (repo_update Evaluator.id (evaluators w) i partial) (effects w).

Definition evaluator_delete (i : string) (w : World) : World :=
  mkWorld (hubs w) (participants w) (evaluations w)
          (repo_delete Evaluator.id (evaluators w) i) (effects w).

(** ** Result envelopes *)

(** The [message] of a result envelope, by kind. *)
Inductive Reply :=
  | EvaluationNotFound | ChallengeNotFound
  | AlreadyStarted | ChannelNotCreated | Started | StartError
  | TeamOrAdminCannotJudge | Withdrawn | PoolFull | Joined (count : nat)
  | ToggleError
  | AdminCannotVote | CreatorCannotVote | ParticipantCannotVote
  | NotAnEvaluator | AlreadyVoted | VoteRecorded (vote : string)
  | OnlyAdmin | AlreadyCompleted | Approved | Rejected
  | Unauthorized | ForcedComplete (result : string).

(** The dictionary a service call returns; keys a call does not set are
    [None]. *)
Record Result := mkResult {
  success : bool;
  message : Reply;
  action : option string;
  count : option nat;
  is_full : option bool;
  evaluation_id : option string
}.

Definition failure (m : Reply) : Result :=
  mkResult false m None None None None.

Definition succeeded (m : Reply) : Result :=
  mkResult true m None None None None.

(** ** Column updates written by the service *)

Definition set_channel (ch : string) (e : Evaluation.t) : Evaluation.t :=
  Evaluation.mk (Evaluation.id e) (Evaluation.challenge_hub_id e)
    "evaluating" (Evaluation.deadline_at e) (Some ch)
    (Evaluation.github_repo_url e) (Evaluation.github_repo_public e)
    (Evaluation.true_votes e) (Evaluation.false_votes e)
    (Evaluation.admin_approval e) (Evaluation.final_result e)
    (Evaluation.completed_at e).

Definition set_admin_approval (a : string) (e : Evaluation.t)
  : Evaluation.t :=
  Evaluation.mk (Evaluation.id e) (Evaluation.challenge_hub_id e)
    (Evaluation.status e) (Evaluation.deadline_at e)
    (Evaluation.evaluation_channel_id e)
    (Evaluation.github_repo_url e) (Evaluation.github_repo_public e)
    (Evaluation.true_votes e) (Evaluation.false_votes e)
    (Some a) (Evaluation.final_result e) (Evaluation.completed_at e).

Definition set_completed (final_result at_ : string) (e : Evaluation.t)
  : Evaluation.t :=
  Evaluation.mk (Evaluation.id e) (Evaluation.challenge_hub_id e)
    "completed" (Evaluation.deadline_at e)
    (Evaluation.evaluation_channel_id e)
    (Evaluation.github_repo_url e) (Evaluation.github_repo_public e)
    (Evaluation.true_votes e) (Evaluation.false_votes e)
    (Evaluation.admin_approval e) (Some final_result) (Some at_).

Definition hub_set_completed (at_ : string) (h : Hub.t) : Hub.t :=
  Hub.mk (Hub.id h) (Hub.creator_id h) (Hub.theme h) "completed"
    (Hub.challenge_channel_id h) (Hub.hub_channel_id h) (Some at_).

Definition set_vote (v at_ : string) (j : Evaluator.t) : Evaluator.t :=
  Evaluator.mk (Evaluator.id j) (Evaluator.evaluation_id j)
    (Evaluator.user_id j) (Some v) (Some at_).

(** ** The service *)

(** [evaluation.get("github_repo_public", 0) == 1] *)
Definition github_public (e : Evaluation.t) : bool :=
  match Evaluation.github_repo_public e with
  | Some 1%Z => true
  | _ => false
  end.

(** The direct message sent under [try: ... except: pass]. *)
Definition send_dm (env : Env) (user : string) (msg : Message) (w : World)
  : World :=
  let (ok, w) := call env (OpenConversation user) w in
  if ok then
    match dm_channel_of env user with
    | Some ch => try_call env (PostMessage ch msg) w
    | None => w
    end
  else w.

(** Posts to a channel reference when it is set. *)
Definition post_if_set (env : Env) (ch : option string) (msg : Message)
  (w : World) : World :=
  match ch with
  | Some c => if truthy ch then try_call env (PostMessage c msg) w else w
  | None => w
  end.

(** The decision of [finalize_evaluation]: [(final_result, result_message)]
    from the admin decision passed in, the votes counted and the artifact
    columns of the evaluation. *)
Definition decide_result (admin_approval : option string)
  (true_votes false_votes : nat) (github_public : bool)
  (github_url : option string) : string * ResultMessage :=
  if eq_opt "rejected" admin_approval then
    ("failed", Failed [RejectedByAdmin])
  else if (false_votes <? true_votes)%nat && github_public
          && truthy github_url then
    ("success", Succeeded)
  else
    let reasons : list Reason := [] in
    let reasons :=
      if (true_votes <=? false_votes)%nat
      then (reasons ++ [VotesNotMajority true_votes false_votes])%list
      else reasons in
    let reasons :=
      if negb (truthy github_url) then (reasons ++ [RepoLinkMissing])%list
      else if negb github_public then (reasons ++ [RepoNotPublic])%list
      else reasons in
    ("failed", Failed reasons).

Definition finalize_evaluation (env : Env) (evaluation_id : string)
  (admin_approval : option string) (w : World) : World :=
  match evaluation_get w evaluation_id with
  | None => w
  | Some evaluation =>
    if negb (Evaluation.status evaluation =? "evaluating") then w
    else
      let (true_votes, false_votes) := get_votes w evaluation_id in
      let github_public := github_public evaluation in
      let github_url := Evaluation.github_repo_url evaluation in
      let (final_result, result_message) :=
        decide_result admin_approval true_votes false_votes github_public
                      github_url in
      let w := evaluation_update evaluation_id
                 (set_completed final_result (clock env 0)) w in
      let challenge_id := Evaluation.challenge_hub_id evaluation in
      let w :=
        match hub_get w challenge_id with
        | Some challenge =>
          let w := hub_update challenge_id
                     (hub_set_completed (clock env 1)) w in
          let result := MResult result_message true_votes false_votes
                                github_public in
          let w := post_if_set env (Hub.hub_channel_id challenge) result w in
          post_if_set env (Hub.challenge_channel_id challenge) result w
        | None => w
        end in
      match Evaluation.evaluation_channel_id evaluation with
      | Some ch =>
        if truthy (Some ch) then try_call env (ArchiveChannel ch) w else w
      | None => w
      end
  end.

Definition admin_finalize_evaluation (env : Env)
  (evaluation_id admin_user_id approval : string) (w : World)
  : Result * World :=
  if negb (eq_opt admin_user_id (admin_slack_id env)) then
    (failure OnlyAdmin, w)
  else
    match evaluation_get w evaluation_id with
    | None => (failure EvaluationNotFound, w)
    | Some evaluation =>
      if Evaluation.status evaluation =? "completed" then
        (failure AlreadyCompleted, w)
      else
        let w := evaluation_update evaluation_id
                   (set_admin_approval approval) w in
        let w := finalize_evaluation env evaluation_id (Some approval) w in
        if approval =? "approved" then (succeeded Approved, w)
        else (succeeded Rejected, w)
    end.

Definition force_complete_evaluation (env : Env)
  (evaluation_id admin_user_id result : string) (w : World)
  : Result * World :=
  if negb (eq_opt admin_user_id (admin_slack_id env)) then
    (failure Unauthorized, w)
  else
    match evaluation_get w evaluation_id with
    | None => (failure EvaluationNotFound, w)
    | Some evaluation =>
      let w := evaluation_update evaluation_id
                 (set_completed result (clock env 0)) w in
      let challenge_id := Evaluation.challenge_hub_id evaluation in
      let w := hub_update challenge_id (hub_set_completed (clock env 1)) w in
      let w :=
        match Evaluation.evaluation_channel_id evaluation with
        | Some ch =>
          if truthy (Some ch) then
            let (ok, w) :=
              call env (PostMessage ch (MForced result admin_user_id)) w in
            if ok then try_call env (ArchiveChannel ch) w else w
          else w
        | None => w
        end in
      (succeeded (ForcedComplete result), w)
    end.

Definition start_evaluation (env : Env)
  (challenge_id trigger_channel_id : string) (w : World) : Result * World :=
  match hub_get w challenge_id with
  | None => (failure ChallengeNotFound, w)
  | Some challenge =>
    match get_by_challenge w challenge_id with
    | Some _ => (failure AlreadyStarted, w)
    | None =>
      let evaluation_id := uuid4 env 0 in
      let deadline := plus_hours env (clock env 0) 48 in
      let w := evaluation_create
                 (Evaluation.mk evaluation_id challenge_id "pending" deadline
                                None None None 0 0 None None None) w in
      let channel_name :=
        "challenge-evaluation-" ++ substring 0 8 (uuid4 env 1) in
      let (ok, w) := call env (CreateChannel channel_name) w in
      if negb ok then (failure ChannelNotCreated, w)
      else
        let eval_channel_id := channel_id_of env channel_name in
        let w := evaluation_update evaluation_id
                   (set_channel eval_channel_id) w in
        let creator_id := Hub.creator_id challenge in
        let all_user_ids :=
          nodup string_dec
            ((if truthy (Some creator_id) then [creator_id] else [])
             ++ participant_ids w challenge_id
             ++ (match admin_slack_id env with
                 | Some a => if truthy (Some a) then [a] else []
                 | None => []
                 end))%list in
        let w := try_call env (InviteUsers eval_channel_id all_user_ids) w in
        let (ok, w) :=
          call env (AddOnceJob ("finalize_evaluation_" ++ evaluation_id)
                               (48 * 60) evaluation_id) w in
        if negb ok then (failure StartError, w)
        else
          let w := try_call env (PostMessage eval_channel_id MWelcome) w in
          let target_channel :=
            match Hub.hub_channel_id challenge with
            | Some c => if truthy (Some c) then c else trigger_channel_id
            | None => trigger_channel_id
            end in
          let (ok, w) :=
            call env (PostMessage target_channel
                                  (MJuryCall (Hub.theme challenge))) w in
          if negb ok then (failure StartError, w)
          else
            (mkResult true Started None None None (Some evaluation_id), w)
    end
  end.

(** [user_id == ADMIN_USER_ID or user_id == creator_id or user_id in
    participant_ids] *)
Definition team_or_admin (env : Env) (w : World) (challenge : Hub.t)
  (user_id : string) : bool :=
  eq_opt user_id (admin_slack_id env)
  || (user_id =? Hub.creator_id challenge)
  || existsb (String.eqb user_id) (participant_ids w (Hub.id challenge)).

(** The batch invite of [toggle_juror] once the third juror is in: one
    [try] around the invite, the announcement naming the first three
    jurors, and a direct message to each. *)
Definition batch_invite (env : Env) (evaluation_id : string)
  (evaluation : Evaluation.t) (w : World) : World :=
  let all_jurors := list_by_evaluation w evaluation_id in
  let juror_ids := map Evaluator.user_id all_jurors in
  match Evaluation.evaluation_channel_id evaluation with
  | Some ch =>
    if truthy (Some ch) then
      let (ok, w) := call env (InviteUsers ch juror_ids) w in
      if ok then
        if (3 <=? length juror_ids)%nat then
          let (ok, w) :=
            call env (PostMessage ch (MJuryAssembled (firstn 3 juror_ids)))
                 w in
          if ok then
            fold_left (fun w j_id => send_dm env j_id MJuryReadyDM w)
                      juror_ids w
          else w
        else w
      else w
    else w
  | None => w
  end.

Definition toggle_juror (env : Env) (evaluation_id user_id : string)
  (w : World) : Result * World :=
  match evaluation_get w evaluation_id with
  | None => (failure EvaluationNotFound, w)
  | Some evaluation =>
    match hub_get w (Evaluation.challenge_hub_id evaluation) with
    | None => (failure ChallengeNotFound, w)
    | Some challenge =>
      if team_or_admin env w challenge user_id then
        (mkResult false TeamOrAdminCannotJudge (Some "none") None None None,
         w)
      else
        match get_by_evaluation_and_user w evaluation_id user_id with
        | Some existing_juror =>
          let w := evaluator_delete (Evaluator.id existing_juror) w in
          let count := count_evaluators w evaluation_id in
          let w := send_dm env user_id
                           (MWithdrawnDM (Hub.theme challenge)) w in
          (mkResult true Withdrawn (Some "left") (Some count) None None, w)
        | None =>
          let current_count := count_evaluators w evaluation_id in
          if (3 <=? current_count)%nat then
            (mkResult false PoolFull (Some "full") None None None, w)
          else
            let juror_id := uuid4 env 0 in
            let w := evaluator_create
                       (Evaluator.mk juror_id evaluation_id user_id
                                     None None) w in
            let current_count := current_count + 1 in
            let w := send_dm env user_id
                       (MCandidateDM (Hub.theme challenge) current_count) w in
            let w :=
              if (3 <=? current_count)%nat
              then batch_invite env evaluation_id evaluation w
              else w in
            (mkResult true (Joined current_count) (Some "joined")
                      (Some current_count)
                      (Some (3 <=? current_count)%nat) None, w)
        end
    end
  end.

(** The message posted by [submit_vote] once three votes are in. *)
Definition completion_trigger (env : Env) (evaluation : Evaluation.t)
  (t f : nat) (w : World) : World :=
  let github_url := Evaluation.github_repo_url evaluation in
  let eval_channel_id := Evaluation.evaluation_channel_id evaluation in
  if truthy github_url && github_public evaluation then
    post_if_set env eval_channel_id (MAdminApprovalRequest t f github_url) w
  else
    post_if_set env eval_channel_id
      (if negb (truthy github_url) then MRepoMissing else MRepoPrivate) w.

Definition submit_vote (env : Env) (evaluation_id user_id vote : string)
  (w : World) : Result * World :=
  match evaluation_get w evaluation_id with
  | None => (failure EvaluationNotFound, w)
  | Some evaluation =>
    match hub_get w (Evaluation.challenge_hub_id evaluation) with
    | None => (failure ChallengeNotFound, w)
    | Some challenge =>
      if eq_opt user_id (admin_slack_id env) then
        (failure AdminCannotVote, w)
      else if user_id =? Hub.creator_id challenge then
        (failure CreatorCannotVote, w)
      else if existsb (String.eqb user_id)
                      (participant_ids w (Hub.id challenge)) then
        (failure ParticipantCannotVote, w)
      else
        match get_by_evaluation_and_user w evaluation_id user_id with
        | None => (failure NotAnEvaluator, w)
        | Some evaluator =>
          if truthy (Evaluator.vote evaluator) then
            (failure AlreadyVoted, w)
          else
            let w := evaluator_update (Evaluator.id evaluator)
                       (set_vote (lower env vote) (clock env 0)) w in
            let (t, f) := get_votes w evaluation_id in
            let w := update_votes evaluation_id t f w in
            let total_votes := t + f in
            let w :=
              if (3 <=? total_votes)%nat
              then completion_trigger env evaluation t f w
              else w in
            (succeeded (VoteRecorded vote), w)
        end
    end
  end.

(** * Notions the properties are stated with *)

(** ** Decisions and calls of a finalization *)


(** The calls [finalize_evaluation] makes for a decision: posts of the
    result message to the hub's channels, then at most one archive, of the
    evaluation channel. *)
Definition is_post_of (m : Message) (e : Effect) : Prop :=
  exists c, e = PostMessage c m.

Definition archive_of (ch : option string) (l : list Effect) : Prop :=
  l = [] \/ exists c, ch = Some c /\ l = [ArchiveChannel c].

Definition is_archive (e : Effect) : bool :=
  match e with
  | ArchiveChannel _ => true
  | _ => false
  end.

(** Number of [archive_channel] calls in a log. *)
Definition archives (l : list Effect) : nat :=
  length (filter is_archive l).

Definition is_invite (e : Effect) : bool :=
  match e with
  | InviteUsers _ _ => true
  | _ => false
  end.

(** ** Record store, eligibility and juror slots *)

(** Two worlds with the same record store. *)
Definition same_store (w w' : World) : Prop :=
  hubs w' = hubs w /\ participants w' = participants w
  /\ evaluations w' = evaluations w /\ evaluators w' = evaluators w.

(** The evaluations recorded for a hub. *)
Definition evaluations_of (w : World) (h : string) : list Evaluation.t :=
  repo_list (evaluations w) (fun e => Evaluation.challenge_hub_id e =? h).

(** The record [start_evaluation] creates before it provisions the
    channel. *)
Definition pending_evaluation (env : Env) (h : string) : Evaluation.t :=
  Evaluation.mk (uuid4 env 0) h "pending"
                (plus_hours env (clock env 0) 48)
                None None None 0 0 None None None.

(** A user who may not judge an evaluation of the hub: the configured
    administrator, the hub's creator, or one of its participants. *)
Definition on_team_or_admin (env : Env) (w : World) (hub : Hub.t)
  (u : string) : Prop :=
  admin_slack_id env = Some u
  \/ u = Hub.creator_id hub
  \/ exists p, In p (participants w)
               /\ Participant.challenge_hub_id p = Hub.id hub
               /\ Participant.user_id p = u.

(** The pair that identifies a juror slot. *)
Definition slot (j : Evaluator.t) : string * string :=
  (Evaluator.evaluation_id j, Evaluator.user_id j).

(** The data model's invariant on evaluators: a user holds at most one
    slot in an evaluation. *)
Definition unique_slots (w : World) : Prop :=
  NoDup (map slot (evaluators w)).

(** ** The service as a whole *)

(** A request to the service, as the handlers and the scheduler make
    them. *)
Inductive Request :=
  | StartEvaluation (challenge_id trigger_channel_id : string)
  | ToggleJuror (evaluation_id user_id : string)
  | SubmitVote (evaluation_id user_id vote : string)
  | AdminFinalize (evaluation_id admin_user_id approval : string)
  | FinalizeTimer (evaluation_id : string)
  | ForceComplete (evaluation_id admin_user_id result : string).

Definition handle (env : Env) (r : Request) (w : World) : World :=
  match r with
  | StartEvaluation h c => snd (start_evaluation env h c w)
  | ToggleJuror e u => snd (toggle_juror env e u w)
  | SubmitVote e u v => snd (submit_vote env e u v w)
  | AdminFinalize e a d => snd (admin_finalize_evaluation env e a d w)
  | FinalizeTimer e => finalize_evaluation env e None w
  | ForceComplete e a r => snd (force_complete_evaluation env e a r w)
  end.

(** Requests served one after the other, each in its own environment. *)
Definition run (calls : list (Env * Request)) (w : World) : World :=
  fold_left (fun w c => handle (fst c) (snd c) w) calls w.

(** ** Concurrent joins: the two phases of [toggle_juror]

    The handlers run each request in a thread of its own, so two calls of
    [toggle_juror] can interleave between repository calls. The join path
    reads the size of the pool with one repository call
    ([count_evaluators]) and inserts with another ([create]); the two
    phases below cut [toggle_juror] between them. *)

(** Where a call of [toggle_juror] stands. *)
Inductive Join :=
  | Arrived (user_id : string)
  | Counted (user_id : string) (evaluation : Evaluation.t)
            (challenge : Hub.t) (current_count : nat)
  | Returned (result : Result).

(** [toggle_juror] up to and including [current_count =
    count_evaluators(evaluation_id)]; the checks that return early and
    the leave path run to their end. *)
Definition toggle_juror_read (env : Env) (evaluation_id user_id : string)
  (w : World) : Join * World :=
  match evaluation_get w evaluation_id with
  | None => (Returned (failure EvaluationNotFound), w)
  | Some evaluation =>
    match hub_get w (Evaluation.challenge_hub_id evaluation) with
    | None => (Returned (failure ChallengeNotFound), w)
    | Some challenge =>
      if team_or_admin env w challenge user_id then
        (Returned (mkResult false TeamOrAdminCannotJudge (Some "none")
                            None None None), w)
      else
        match get_by_evaluation_and_user w evaluation_id user_id with
        | Some existing_juror =>
          let w := evaluator_delete (Evaluator.id existing_juror) w in
          let count := count_evaluators w evaluation_id in
          let w := send_dm env user_id
                           (MWithdrawnDM (Hub.theme challenge)) w in
          (Returned (mkResult true Withdrawn (Some "left") (Some count)
                              None None), w)
        | None =>
          (Counted user_id evaluation challenge
                   (count_evaluators w evaluation_id), w)
        end
    end
  end.

(** [toggle_juror] from [if current_count >= 3] on, with the values read
    in the first phase. *)
Definition toggle_juror_write (env : Env) (evaluation_id user_id : string)
  (evaluation : Evaluation.t) (challenge : Hub.t) (current_count : nat)
  (w : World) : Result * World :=
  if (3 <=? current_count)%nat then
    (mkResult false PoolFull (Some "full") None None None, w)
  else
    let juror_id := uuid4 env 0 in
    let w := evaluator_create
               (Evaluator.mk juror_id evaluation_id user_id None None) w in
    let current_count := current_count + 1 in
    let w := send_dm env user_id
               (MCandidateDM (Hub.theme challenge) current_count) w in
    let w :=
      if (3 <=? current_count)%nat
      then batch_invite env evaluation_id evaluation w
      else w in
    (mkResult true (Joined current_count) (Some "joined")
              (Some current_count) (Some (3 <=? current_count)%nat) None, w).

(** One atomic step of a call. *)
Definition step_join (env : Env) (evaluation_id : string) (j : Join)
  (w : World) : Join * World :=
  match j with
  | Arrived u => toggle_juror_read env evaluation_id u w
  | Counted u evaluation challenge c =>
    let (r, w) := toggle_juror_write env evaluation_id u evaluation
                                     challenge c w in
    (Returned r, w)
  | Returned r => (Returned r, w)
  end.

(** The calls in flight, each with its own environment, and a schedule
    that names the call that takes the next step. *)
Fixpoint interleave (evaluation_id : string) (schedule : list nat)
  (calls : list (Env * Join)) (w : World) : list (Env * Join) * World :=
  match schedule with
  | [] => (calls, w)
  | n :: schedule =>
    match nth_error calls n with
    | Some (env, j) =>
      let (j', w') := step_join env evaluation_id j w in
      interleave evaluation_id schedule
        (firstn n calls ++ (env, j') :: skipn (S n) calls)%list w'
    | None => interleave evaluation_id schedule calls w
    end
  end.

(** The result each call has returned, if it has. *)
Definition results (calls : list (Env * Join)) : list (option Result) :=
  map (fun c => match snd c with
                | Returned r => Some r
                | _ => None
                end) calls.

(** ** Concurrent finalizations: the two phases of [finalize_evaluation]

    The deadline job and the hourly check of pending evaluations run in
    threads of the scheduler, and the administrator's decision in a
    thread of the listener, so two calls of [finalize_evaluation] can
    interleave between repository calls. The guard reads the evaluation
    with one repository call ([get]) and the completion is written with
    another ([update]); the two phases below cut [finalize_evaluation]
    after the guard. *)

(** Where a call of [finalize_evaluation] stands. *)
Inductive Finalization :=
  | Called (admin_approval : option string)
  | Guarded (admin_approval : option string) (evaluation : Evaluation.t)
  | Finished.

(** [finalize_evaluation] up to and including the guard
    [evaluation.get("status") != "evaluating"]: the evaluation read, when
    the call goes on. *)
Definition finalize_read (evaluation_id : string) (w : World)
  : option Evaluation.t :=
  match evaluation_get w evaluation_id with
  | None => None
  | Some evaluation =>
    if negb (Evaluation.status evaluation =? "evaluating") then None
    else Some evaluation
  end.

(** [finalize_evaluation] from the count of the votes on, with the
    evaluation read in the first phase. *)
Definition finalize_write (env : Env) (evaluation_id : string)
  (admin_approval : option string) (evaluation : Evaluation.t) (w : World)
  : World :=
  let (true_votes, false_votes) := get_votes w evaluation_id in
  let github_public := github_public evaluation in
  let github_url := Evaluation.github_repo_url evaluation in
  let (final_result, result_message) :=
    decide_result admin_approval true_votes false_votes github_public
                  github_url in
  let w := evaluation_update evaluation_id
             (set_completed final_result (clock env 0)) w in
  let challenge_id := Evaluation.challenge_hub_id evaluation in
  let w :=
    match hub_get w challenge_id with
    | Some challenge =>
      let w := hub_update challenge_id
                 (hub_set_completed (clock env 1)) w in
      let result := MResult result_message true_votes false_votes
                            github_public in
      let w := post_if_set env (Hub.hub_channel_id challenge) result w in
      post_if_set env (Hub.challenge_channel_id challenge) result w
    | None => w
    end in
  match Evaluation.evaluation_channel_id evaluation with
  | Some ch =>
    if truthy (Some ch) then try_call env (ArchiveChannel ch) w else w
  | None => w
  end.

(** One atomic step of a call. *)
Definition step_finalize (env : Env) (evaluation_id : string)
  (c : Finalization) (w : World) : Finalization * World :=
  match c with
  | Called admin_approval =>
    match finalize_read evaluation_id w with
    | Some evaluation => (Guarded admin_approval evaluation, w)
    | None => (Finished, w)
    end
  | Guarded admin_approval evaluation =>
    (Finished,
     finalize_write env evaluation_id admin_approval evaluation w)
  | Finished => (Finished, w)
  end.

(** The calls in flight, each with its own environment, under a schedule
    that names the call that takes the next step. *)
Fixpoint interleave_finalize (evaluation_id : string) (schedule : list nat)
  (calls : list (Env * Finalization)) (w : World)
  : list (Env * Finalization) * World :=
  match schedule with
  | [] => (calls, w)
  | n :: schedule =>
    match nth_error calls n with
    | Some (env, c) =>
      let (c', w') := step_finalize env evaluation_id c w in
      interleave_finalize evaluation_id schedule
        (firstn n calls ++ (env, c') :: skipn (S n) calls)%list w'
    | None => interleave_finalize evaluation_id schedule calls w
    end
  end.

(** ** Sample data for concrete runs

    The votes of the sample runs are ASCII strings, on which [str.lower]
    is [ascii_lower]. *)

Definition sample_env : Env :=
  mkEnv (Some "UADMIN")
        (fun k => match k with
                  | 0 => "2025-01-10T12:00:00"
                  | _ => "2025-01-10T12:00:01"
                  end)
        (fun t h => t ++ "+48h")
        (fun k => match k with
                  | 0 => "1b4e28ba-2fa1-11d2-883f-0016d3cca427"
                  | _ => "6fa459ea-ee8a-3ca4-894e-db77e160355e"
                  end)
        (fun name => "C-" ++ name)
        (fun user => Some ("D-" ++ user))
        (fun _ _ => true)
        ascii_lower.

Definition sample_hub : Hub.t :=
  Hub.mk "H1" "U1" "AI Chatbot" "evaluating" (Some "CTEAM") (Some "CHUB")
         None.

Definition sample_evaluation : Evaluation.t :=
  Evaluation.mk "E1" "H1" "evaluating" "2025-01-12T12:00:00" (Some "CEVAL")
                (Some "https://github.com/team/project") (Some 1%Z)
                2 1 None None None.

(** A hub under evaluation: two team members, three jurors who voted
    true, true and false, and a public repository. *)
Definition sample_world : World :=
  mkWorld [sample_hub]
          [Participant.mk "P1" "H1" "U1"; Participant.mk "P2" "H1" "U2"]
          [sample_evaluation]
          [Evaluator.mk "J1" "E1" "U7" (Some "true") (Some "t1");
           Evaluator.mk "J2" "E1" "U8" (Some "true") (Some "t2");
           Evaluator.mk "J3" "E1" "U9" (Some "false") (Some "t3")]
          [].

(** The sample hub once its evaluation has succeeded. *)
Definition completed_world : World :=
  mkWorld [hub_set_completed "2025-01-11T09:00:01" sample_hub]
          (participants sample_world)
          [set_completed "success" "2025-01-11T09:00:00" sample_evaluation]
          (evaluators sample_world)
          [PostMessage "CHUB" (MResult Succeeded 2 1 true);
           PostMessage "CTEAM" (MResult Succeeded 2 1 true);
           ArchiveChannel "CEVAL"].

(** An environment in which Slack refuses to create channels. *)
Definition no_channel_env : Env :=
  mkEnv (admin_slack_id sample_env) (clock sample_env)
        (plus_hours sample_env) (uuid4 sample_env)
        (channel_id_of sample_env) (dm_channel_of sample_env)
        (fun _ e => match e with
                    | CreateChannel _ => false
                    | _ => true
                    end)
        (lower sample_env).

(** The sample hub at its deadline, before any evaluation exists. *)
Definition deadline_world : World :=
  mkWorld [Hub.mk "H1" "U1" "AI Chatbot" "active" (Some "CTEAM")
                  (Some "CHUB") None]
          (participants sample_world) [] [] [].

(** The sample evaluation when jury recruitment opens. *)
Definition recruiting_world : World :=
  mkWorld (hubs sample_world) (participants sample_world)
          [Evaluation.mk "E1" "H1" "evaluating" "2025-01-12T12:00:00"
                         (Some "CEVAL") None None 0 0 None None None]
          [] [].

(** The sample evaluation before its third juror has voted. *)
Definition two_votes_world : World :=
  mkWorld (hubs sample_world) (participants sample_world)
          [Evaluation.mk "E1" "H1" "evaluating" "2025-01-12T12:00:00"
                         (Some "CEVAL")
                         (Some "https://github.com/team/project") (Some 1%Z)
                         2 0 None None None]
          [Evaluator.mk "J1" "E1" "U7" (Some "true") (Some "t1");
           Evaluator.mk "J2" "E1" "U8" (Some "true") (Some "t2");
           Evaluator.mk "J3" "E1" "U9" None None]
          [].

(** The environment of a second, concurrent call. *)
Definition second_env : Env :=
  mkEnv (admin_slack_id sample_env) (clock sample_env)
        (plus_hours sample_env)
        (fun _ => "9c5b94b1-35ad-49bb-b118-8e8fc24abf80")
        (channel_id_of sample_env) (dm_channel_of sample_env)
        (gateway_ok sample_env) (lower sample_env).

(** The sample evaluation with two of its three jurors recruited. *)
Definition two_jurors_world : World :=
  mkWorld (hubs sample_world) (participants sample_world)
          [Evaluation.mk "E1" "H1" "evaluating" "2025-01-12T12:00:00"
                         (Some "CEVAL") None None 0 0 None None None]
          [Evaluator.mk "J1" "E1" "U7" None None;
           Evaluator.mk "J2" "E1" "U8" None None]
          [].

(** The environment of a call served one second later. *)
Definition later_env : Env :=
  mkEnv (admin_slack_id sample_env)
        (fun k => match k with
                  | 0 => "2025-01-10T12:00:02"
                  | _ => "2025-01-10T12:00:03"
                  end)
        (plus_hours sample_env) (uuid4 sample_env)
        (channel_id_of sample_env) (dm_channel_of sample_env)
        (gateway_ok sample_env) (lower sample_env).

(** The environment of a third concurrent call. *)
Definition third_env : Env :=
  mkEnv (admin_slack_id sample_env) (clock sample_env)
        (plus_hours sample_env)
        (fun _ => "0f8fad5b-d9cb-469f-a165-70867728950e")
        (channel_id_of sample_env) (dm_channel_of sample_env)
        (gateway_ok sample_env) (lower sample_env).


(** * The rest of the service: repository links *)

(** ** Regular expressions

    The two patterns of the service use literals, the class [[^/]], [?],
    [+] and the anchors; [re.match] with them is the matcher below, which
    follows the expression character by character. *)

Inductive regex :=
  | Void
  | Eps
  | Lit (c : ascii)
  | NotLit (c : ascii)
  | Cat (r s : regex)
  | Alt (r s : regex)
  | Star (r : regex).

Fixpoint nullable (r : regex) : bool :=
  match r with
  | Void => false
  | Eps => true
  | Lit _ => false
  | NotLit _ => false
  | Cat r s => nullable r && nullable s
  | Alt r s => nullable r || nullable s
  | Star _ => true
  end.

(** What is left of an expression once the character [a] is read. *)
Fixpoint deriv (a : ascii) (r : regex) : regex :=
  match r with
  | Void => Void
  | Eps => Void
  | Lit c => if Ascii.eqb a c then Eps else Void
  | NotLit c => if Ascii.eqb a c then Void else Eps
  | Cat r s =>
    if nullable r then Alt (Cat (deriv a r) s) (deriv a s)
    else Cat (deriv a r) s
  | Alt r s => Alt (deriv a r) (deriv a s)
  | Star r => Cat (deriv a r) (Star r)
  end.

(** Does the whole string match the expression? *)
Fixpoint accepts (r : regex) (s : string) : bool :=
  match s with
  | EmptyString => nullable r
  | String a s => accepts (deriv a r) s
  end.

Fixpoint literal (s : string) : regex :=
  match s with
  | EmptyString => Eps
  | String c s => Cat (Lit c) (literal s)
  end.

(** [r+] and [r?] *)
Definition plus (r : regex) : regex := Cat r (Star r).

Definition opt (r : regex) : regex := Alt r Eps.

(** The strings an expression denotes. *)
Inductive matches : regex -> string -> Prop :=
  | MEps : matches Eps ""
  | MLit c : matches (Lit c) (String c "")
  | MNotLit c a : a <> c -> matches (NotLit c) (String a "")
  | MCat r s x y : matches r x -> matches s y -> matches (Cat r s) (x ++ y)
  | MAltL r s x : matches r x -> matches (Alt r s) x
  | MAltR r s x : matches s x -> matches (Alt r s) x
  | MStarNil r : matches (Star r) ""
  | MStarApp r x y :
      matches r x -> matches (Star r) y -> matches (Star r) (x ++ y).

Definition newline : string := String "010" "".

(** The pattern [^https?://github\.com/[^/]+/[^/]+/?$] of
    [_is_valid_github_url]. [re.match] anchors it at the start; without
    [re.MULTILINE] the final [$] holds at the end of the string and just
    before a newline that ends it, hence the optional newline. *)
Definition github_url_pattern : regex :=
  Cat (literal "http")
   (Cat (opt (Lit "s"))
    (Cat (literal "://github.com/")
     (Cat (plus (NotLit "/"))
      (Cat (Lit "/")
       (Cat (plus (NotLit "/"))
        (Cat (opt (Lit "/")) (opt (Lit "010")))))))).

Definition _is_valid_github_url (url : string) : bool :=
  accepts github_url_pattern url.

(** ** Looking the repository up *)

(** [s] without the prefix [p], when it starts with it. *)
Fixpoint strip_prefix (p s : string) : option string :=
  match p, s with
  | EmptyString, _ => Some s
  | String a p', String b s' =>
    if Ascii.eqb a b then strip_prefix p' s' else None
  | String _ _, EmptyString => None
  end.

(** The longest prefix without a slash (what a greedy [[^/]*] takes),
    and the rest. *)
Fixpoint span_not_slash (s : string) : string * string :=
  match s with
  | EmptyString => (EmptyString, EmptyString)
  | String a s' =>
    if Ascii.eqb a "/" then (EmptyString, s)
    else let (x, rest) := span_not_slash s' in (String a x, rest)
  end.

(** The groups of [re.match(r'https?://github\.com/([^/]+)/([^/]+)',
    github_url)], or [None] when the URL does not start that way. *)
Definition github_owner_repo (github_url : string)
  : option (string * string) :=
  match strip_prefix "http" github_url with
  | None => None
  | Some rest =>
    let rest := match strip_prefix "s" rest with
                | Some rest' => rest'
                | None => rest
                end in
    match strip_prefix "://github.com/" rest with
    | None => None
    | Some rest =>
      let (user, rest) := span_not_slash rest in
      if user =? "" then None
      else
        match strip_prefix "/" rest with
        | None => None
        | Some rest =>
          let (repo, _) := span_not_slash rest in
          if repo =? "" then None else Some (user, repo)
        end
    end
  end.

(** The value under ["private"] in the JSON body, by its truthiness. *)
Inductive PrivateField :=
  | PrivateMissing
  | PrivateValue (truthy_value : bool).

(** What [requests.get(api_url, timeout=5)] followed by
    [response.json()] comes to: an exception, or a status code with the
    body's ["private"] entry. *)
Inductive ApiResponse :=
  | ApiRaises
  | ApiStatus (status_code : nat) (private : PrivateField).

Definition api_url (user repo : string) : string :=
  "https://api.github.com/repos/" ++ user ++ "/" ++ repo.

(** [check_github_repo_public]; [github] is the GitHub API as the call
    finds it. *)
Definition check_github_repo_public (github : string -> ApiResponse)
  (github_url : string) : bool :=
  match github_owner_repo github_url with
  | None => false
  | Some (user, repo) =>
    match github (api_url user repo) with
    | ApiStatus status_code private =>
      if (status_code =? 200)%nat then
        negb (match private with
              | PrivateMissing => true
              | PrivateValue v => v
              end)
      else if (status_code =? 404)%nat then false
      else false
    | ApiRaises => false
    end
  end.

(** ** Submitting the repository link *)

(** The [message] of the envelopes of [submit_github_link]. *)
Inductive LinkReply :=
  | LinkEvaluationNotFound
  | LinkInvalidFormat
  | LinkSavedAwaitingAdmin (url : string)
  | LinkSavedPublic (url : string)
  | LinkSavedPrivate (url : string).

Definition set_github (url : string) (public : Z) (e : Evaluation.t)
  : Evaluation.t :=
  Evaluation.mk (Evaluation.id e) (Evaluation.challenge_hub_id e)
    (Evaluation.status e) (Evaluation.deadline_at e)
    (Evaluation.evaluation_channel_id e)
    (Some url) (Some public)
    (Evaluation.true_votes e) (Evaluation.false_votes e)
    (Evaluation.admin_approval e) (Evaluation.final_result e)
    (Evaluation.completed_at e).

(** [submit_github_link]: the envelope as [(success, message)]. The
    approval request it posts has the buttons and values of the one of
    [submit_vote] and another first line. *)
Definition submit_github_link (env : Env) (github : string -> ApiResponse)
  (evaluation_id github_url : string) (w : World)
  : (bool * LinkReply) * World :=
  match evaluation_get w evaluation_id with
  | None => ((false, LinkEvaluationNotFound), w)
  | Some evaluation =>
    if negb (_is_valid_github_url github_url) then
      ((false, LinkInvalidFormat), w)
    else
      let is_public := check_github_repo_public github github_url in
      let w := evaluation_update evaluation_id
                 (set_github github_url (if is_public then 1 else 0)%Z) w in
      if is_public then
        let (t, f) := get_votes w evaluation_id in
        let total_votes := t + f in
        if (3 <=? total_votes)%nat then
          let w := post_if_set env
                     (Evaluation.evaluation_channel_id evaluation)
                     (MAdminApprovalRequest t f (Some github_url)) w in
          ((true, LinkSavedAwaitingAdmin github_url), w)
        else ((true, LinkSavedPublic github_url), w)
      else ((true, LinkSavedPrivate github_url), w)
  end.

(** A path segment has no slash and is not empty. *)
Fixpoint no_slash (s : string) : bool :=
  match s with
  | EmptyString => true
  | String a s' => negb (Ascii.eqb a "/") && no_slash s'
  end.

Definition segment (s : string) : Prop :=
  s <> "" /\ no_slash s = true.

(** Number of [invite_users] calls in a log. *)
Definition invites (l : list Effect) : nat :=
  length (filter is_invite l).

(** A change of the evaluation table that rewrites rows in place: ids and
    hubs are kept, and a completed row stays completed unless its id is
    [fresh]. *)
Definition rows_rewritten (fresh : string) (l l' : list Evaluation.t)
  : Prop :=
  exists g,
    l' = map g l
    /\ (forall e, Evaluation.id (g e) = Evaluation.id e)
    /\ (forall e, Evaluation.challenge_hub_id (g e)
                  = Evaluation.challenge_hub_id e)
    /\ (forall e, Evaluation.id e <> fresh ->
                  Evaluation.status e = "completed" ->
                  Evaluation.status (g e) = "completed").

(** * Properties *)

Unset Implicit Arguments.

(** ** The record store *)

Section RepositoryFacts.
Variable Row : Type.
Variable row_id : Row -> string.
Variable partial : Row -> Row.
Hypothesis partial_keeps_id : forall r, row_id (partial r) = row_id r.

Lemma repo_get_update (rows : list Row) (i j : string) :
  repo_get row_id (repo_update row_id rows i partial) j =
  if j =? i then option_map partial (repo_get row_id rows j)
  else repo_get row_id rows j.
Proof.
  unfold repo_get, repo_update.
  induction rows as [|r rows IH]; simpl.
  - now destruct (j =? i).
  - destruct (row_id r =? i) eqn:Hri.
    + rewrite partial_keeps_id.
      destruct (row_id r =? j) eqn:Hrj.
      * apply String.eqb_eq in Hri, Hrj. subst i.
        rewrite Hrj, String.eqb_refl. reflexivity.
      * exact IH.
    + destruct (row_id r =? j) eqn:Hrj.
      * apply String.eqb_eq in Hrj. subst j. now rewrite Hri.
      * exact IH.
Qed.

Lemma repo_get_id (rows : list Row) (i : string) (r : Row) :
  repo_get row_id rows i = Some r -> row_id r = i.
Proof.
  unfold repo_get. intros H. apply find_some in H.
  now apply String.eqb_eq.
Qed.

Lemma repo_get_In (rows : list Row) (i : string) (r : Row) :
  repo_get row_id rows i = Some r -> In r rows.
Proof.
  unfold repo_get. intros H. now apply find_some in H.
Qed.
End RepositoryFacts.

Lemma set_completed_id r t e :
  Evaluation.id (set_completed r t e) = Evaluation.id e.
Proof. reflexivity. Qed.

Lemma set_admin_approval_id a e :
  Evaluation.id (set_admin_approval a e) = Evaluation.id e.
Proof. reflexivity. Qed.

Lemma hub_set_completed_id t h : Hub.id (hub_set_completed t h) = Hub.id h.
Proof. reflexivity. Qed.

(** External calls and hub updates leave the evaluation table alone. *)

Lemma evaluations_try_call env e w :
  evaluations (try_call env e w) = evaluations w.
Proof. reflexivity. Qed.

Lemma evaluations_post_if_set env ch m w :
  evaluations (post_if_set env ch m w) = evaluations w.
Proof.
  unfold post_if_set. destruct ch as [c|]; [|reflexivity].
  now destruct (truthy (Some c)).
Qed.

Lemma evaluations_hub_update i f w :
  evaluations (hub_update i f w) = evaluations w.
Proof. reflexivity. Qed.

(** ** Finalization: the decision rule *)

Lemma post_if_set_effects env ch m w :
  exists l, effects (post_if_set env ch m w) = (effects w ++ l)%list
            /\ Forall (is_post_of m) l.
Proof.
  unfold post_if_set. destruct ch as [c|].
  - destruct (truthy (Some c)).
    + exists [PostMessage c m]. split; [reflexivity|].
      constructor; [now exists c|constructor].
    + exists []. split; [now rewrite app_nil_r|constructor].
  - exists []. split; [now rewrite app_nil_r|constructor].
Qed.

Lemma archives_app l1 l2 : archives (l1 ++ l2) = archives l1 + archives l2.
Proof. unfold archives. now rewrite filter_app, length_app. Qed.

Lemma archives_posts m l : Forall (is_post_of m) l -> archives l = 0.
Proof.
  induction 1 as [|e l [c ->] _ IH]; [reflexivity|exact IH].
Qed.

Lemma archives_archive_of ch l : archive_of ch l -> archives l <= 1.
Proof.
  intros [->|(c & _ & ->)]; simpl; unfold archives; simpl; lia.
Qed.




Lemma eq_opt_true x y : eq_opt x y = true <-> y = Some x.
Proof.
  destruct y as [s|]; simpl.
  - rewrite String.eqb_eq. split; intros H; [now subst|now inversion H].
  - split; discriminate.
Qed.

Lemma eq_opt_false x y : eq_opt x y = false <-> y <> Some x.
Proof.
  rewrite <- eq_opt_true. destruct (eq_opt x y); split; congruence.
Qed.

(** What [finalize_evaluation] does to an evaluation that is being
    evaluated: one update of the evaluation table with the decision,
    posts that carry the decision's message, and the archive. *)
Lemma finalize_evaluating env id admin w ev :
  evaluation_get w id = Some ev ->
  Evaluation.status ev = "evaluating" ->
  let t := fst (get_votes w id) in
  let f := snd (get_votes w id) in
  let d := decide_result admin t f (github_public ev)
                         (Evaluation.github_repo_url ev) in
  let w' := finalize_evaluation env id admin w in
  evaluations w'
  = repo_update Evaluation.id (evaluations w) id
                (set_completed (fst d) (clock env 0))
  /\ evaluators w' = evaluators w
  /\ participants w' = participants w
  /\ exists posts arch,
       effects w' = (effects w ++ posts ++ arch)%list
       /\ Forall (is_post_of (MResult (snd d) t f (github_public ev))) posts
       /\ archive_of (Evaluation.evaluation_channel_id ev) arch.
Proof.
  intros Hget Hst. cbv zeta. unfold finalize_evaluation.
  rewrite Hget, Hst. simpl negb. cbv iota.
  destruct (get_votes w id) as [t f]. simpl fst. simpl snd.
  destruct (decide_result admin t f (github_public ev)
                          (Evaluation.github_repo_url ev)) as [fr msg].
  simpl fst. simpl snd.
  set (w1 := evaluation_update id (set_completed fr (clock env 0)) w).
  set (m := MResult msg t f (github_public ev)).
  assert (Hhub : exists w2 l2,
             match hub_get w1 (Evaluation.challenge_hub_id ev) with
             | Some challenge =>
               post_if_set env (Hub.challenge_channel_id challenge) m
                 (post_if_set env (Hub.hub_channel_id challenge) m
                    (hub_update (Evaluation.challenge_hub_id ev)
                                (hub_set_completed (clock env 1)) w1))
             | None => w1
             end = w2
             /\ evaluations w2 = evaluations w1
             /\ evaluators w2 = evaluators w
             /\ participants w2 = participants w
             /\ effects w2 = (effects w ++ l2)%list
             /\ Forall (is_post_of m) l2).
  { destruct (hub_get w1 (Evaluation.challenge_hub_id ev)) as [ch|].
    - set (w2 := hub_update _ _ w1).
      destruct (post_if_set_effects env (Hub.hub_channel_id ch) m w2)
        as (la & Ha & Fa).
      destruct (post_if_set_effects env (Hub.challenge_channel_id ch) m
                  (post_if_set env (Hub.hub_channel_id ch) m w2))
        as (lb & Hb & Fb).
      eexists; exists (la ++ lb)%list. split; [reflexivity|].
      repeat split.
      + now rewrite !evaluations_post_if_set.
      + unfold post_if_set.
        destruct (Hub.challenge_channel_id ch) as [c1|];
          destruct (Hub.hub_channel_id ch) as [c2|];
          repeat match goal with
                 | |- context [truthy ?x] => destruct (truthy x)
                 end; reflexivity.
      + unfold post_if_set.
        destruct (Hub.challenge_channel_id ch) as [c1|];
          destruct (Hub.hub_channel_id ch) as [c2|];
          repeat match goal with
                 | |- context [truthy ?x] => destruct (truthy x)
                 end; reflexivity.
      + rewrite Hb, Ha. now rewrite app_assoc.
      + apply Forall_app. now split.
    - exists w1, []. repeat split; try reflexivity.
      + now rewrite app_nil_r.
      + constructor. }
  destruct Hhub as (w2 & l2 & -> & He & Hj & Hp & Hl & Hf).
  destruct (Evaluation.evaluation_channel_id ev) as [c|].
  - destruct (truthy (Some c)).
    + simpl. repeat split; try assumption.
      exists l2, [ArchiveChannel c]. split.
      * now rewrite Hl, app_assoc.
      * split; [assumption|]. right. now exists c.
    + repeat split; try assumption.
      exists l2, []. rewrite app_nil_r. repeat split; try assumption.
      now left.
  - repeat split; try assumption.
    exists l2, []. rewrite app_nil_r. repeat split; try assumption.
    now left.
Qed.

(** ** Finalization: the recorded result *)





(** ** Finalization: idempotence *)

Lemma finalize_not_evaluating env id admin w :
  option_map Evaluation.status (evaluation_get w id) <> Some "evaluating" ->
  finalize_evaluation env id admin w = w.
Proof.
  intros Hst. unfold finalize_evaluation.
  destruct (evaluation_get w id) as [ev|]; [|reflexivity].
  destruct (Evaluation.status ev =? "evaluating") eqn:He; [|reflexivity].
  apply String.eqb_eq in He. simpl in Hst. congruence.
Qed.

Lemma finalize_leaves_terminal env id admin w :
  option_map Evaluation.status
             (evaluation_get (finalize_evaluation env id admin w) id)
  <> Some "evaluating".
Proof.
  destruct (evaluation_get w id) as [ev|] eqn:Hget.
  - destruct (String.eqb_spec (Evaluation.status ev) "evaluating")
      as [Hst|Hst].
    + destruct (finalize_evaluating env id admin w ev Hget Hst)
        as (Hev & _).
      unfold evaluation_get. rewrite Hev.
      rewrite repo_get_update by apply set_completed_id.
      rewrite String.eqb_refl. fold (evaluation_get w id).
      rewrite Hget. simpl. discriminate.
    + rewrite finalize_not_evaluating; rewrite Hget; simpl; congruence.
  - rewrite finalize_not_evaluating; rewrite Hget; simpl; discriminate.
Qed.

Lemma finalize_archives_once env id admin w :
  archives (effects (finalize_evaluation env id admin w))
  <= archives (effects w) + 1.
Proof.
  destruct (evaluation_get w id) as [ev|] eqn:Hget.
  - destruct (String.eqb_spec (Evaluation.status ev) "evaluating")
      as [Hst|Hst].
    + destruct (finalize_evaluating env id admin w ev Hget Hst)
        as (_ & _ & _ & posts & arch & Hl & Hf & Ha).
      rewrite Hl, !archives_app.
      rewrite (archives_posts _ _ Hf).
      apply archives_archive_of in Ha. lia.
    + rewrite finalize_not_evaluating; [lia|].
      rewrite Hget; simpl; congruence.
  - rewrite finalize_not_evaluating; [lia|].
    rewrite Hget; simpl; discriminate.
Qed.

(** Served one after the other, calls of [finalize_evaluation] are
    idempotent: on an evaluation whose
    status is not 'evaluating' it changes nothing (no record update, no
    hub update, no call to the outside, so no archive); hence a second
    call, whatever its admin decision, leaves the world of the first call
    as it is, with the same recorded result, and the two calls together
    archive at most once. *)
Theorem finalize_evaluation_idempotent env env' id admin admin' w :
  (option_map Evaluation.status (evaluation_get w id) <> Some "evaluating" ->
   finalize_evaluation env id admin w = w)
  /\ let w1 := finalize_evaluation env id admin w in
     let w2 := finalize_evaluation env' id admin' w1 in
     w2 = w1
     /\ evaluation_get w2 id = evaluation_get w1 id
     /\ archives (effects w2) <= archives (effects w) + 1.
Proof.
  split; [apply finalize_not_evaluating|].
  cbv zeta.
  assert (H2 : finalize_evaluation env' id admin'
                 (finalize_evaluation env id admin w)
               = finalize_evaluation env id admin w).
  { apply finalize_not_evaluating, finalize_leaves_terminal. }
  rewrite H2. repeat split. apply finalize_archives_once.
Qed.

Lemma finalize_evaluation_idempotent_witness :
  option_map Evaluation.status (evaluation_get completed_world "E1")
  <> Some "evaluating"
  /\ finalize_evaluation sample_env "E1" None completed_world
     = completed_world.
Proof.
  assert (H : option_map Evaluation.status
                (evaluation_get completed_world "E1")
              <> Some "evaluating") by (simpl; discriminate).
  split; [exact H|].
  exact (proj1 (finalize_evaluation_idempotent sample_env sample_env "E1"
                  None None completed_world) H).
Defined.

Example finalize_sample_world :
  finalize_evaluation sample_env "E1" None sample_world
  = mkWorld [hub_set_completed "2025-01-10T12:00:01" sample_hub]
            (participants sample_world)
            [set_completed "success" "2025-01-10T12:00:00" sample_evaluation]
            (evaluators sample_world)
            [PostMessage "CHUB" (MResult Succeeded 2 1 true);
             PostMessage "CTEAM" (MResult Succeeded 2 1 true);
             ArchiveChannel "CEVAL"].
Proof. reflexivity. Qed.

(** ** Terminal evaluations *)

Lemma finalize_completed env id admin w ev :
  evaluation_get w id = Some ev ->
  Evaluation.status ev = "completed" ->
  finalize_evaluation env id admin w = w.
Proof.
  intros Hget Hst. apply finalize_not_evaluating.
  rewrite Hget. simpl. rewrite Hst. discriminate.
Qed.

Lemma admin_finalize_completed env id admin_user approval w ev :
  evaluation_get w id = Some ev ->
  Evaluation.status ev = "completed" ->
  success (fst (admin_finalize_evaluation env id admin_user approval w))
  = false
  /\ snd (admin_finalize_evaluation env id admin_user approval w) = w.
Proof.
  intros Hget Hst. unfold admin_finalize_evaluation.
  destruct (eq_opt admin_user (admin_slack_id env)); simpl.
  - rewrite Hget, Hst. simpl. now split.
  - now split.
Qed.

Lemma force_complete_not_admin env id user result w :
  admin_slack_id env <> Some user ->
  force_complete_evaluation env id user result w = (failure Unauthorized, w).
Proof.
  intros H. apply eq_opt_false in H. unfold force_complete_evaluation.
  now rewrite H.
Qed.

(** C4, at a completed evaluation. [finalize_evaluation] and
    [admin_finalize_evaluation] leave a completed evaluation and its hub
    as they are ([finalize_completed], [admin_finalize_completed]), but
    [force_complete_evaluation] has no status guard: called by the
    administrator on the sample evaluation that completed with 'success',
    it succeeds, overwrites the recorded result with 'failed' and the
    completion time of evaluation and hub, and archives the channel
    again. *)
Theorem force_complete_overwrites_completed :
  let w := completed_world in
  let r := force_complete_evaluation sample_env "E1" "UADMIN" "failed" w in
  let w' := snd r in
  option_map Evaluation.status (evaluation_get w "E1") = Some "completed"
  /\ option_map Evaluation.final_result (evaluation_get w "E1")
     = Some (Some "success")
  /\ success (fst r) = true
  /\ option_map Evaluation.final_result (evaluation_get w' "E1")
     = Some (Some "failed")
  /\ evaluation_get w' "E1" <> evaluation_get w "E1"
  /\ hub_get w' "H1" <> hub_get w "H1"
  /\ archives (effects w') = archives (effects w) + 1.
Proof.
  cbv zeta. repeat split; try reflexivity; vm_compute; discriminate.
Qed.

(** ** Starting an evaluation *)

Lemma get_by_challenge_none w h :
  get_by_challenge w h = None <-> evaluations_of w h = [].
Proof.
  unfold get_by_challenge, evaluations_of.
  destruct (repo_list (evaluations w) _); simpl; split; congruence.
Qed.

Lemma start_evaluation_duplicate env h c w ev :
  get_by_challenge w h = Some ev ->
  success (fst (start_evaluation env h c w)) = false
  /\ snd (start_evaluation env h c w) = w.
Proof.
  intros Hex. unfold start_evaluation.
  destruct (hub_get w h); [rewrite Hex|]; now split.
Qed.

(** The evaluation table after [start_evaluation]: untouched, or with the
    new record, still pending or switched to evaluating. *)
Lemma start_evaluation_evaluations env h c w :
  let w' := snd (start_evaluation env h c w) in
  evaluations w' = evaluations w
  \/ get_by_challenge w h = None
     /\ (evaluations w' = (evaluations w ++ [pending_evaluation env h])%list
         \/ exists ch,
              evaluations w'
              = repo_update Evaluation.id
                  (evaluations w ++ [pending_evaluation env h])%list
                  (uuid4 env 0) (set_channel ch)).
Proof.
  cbv zeta. unfold start_evaluation.
  destruct (hub_get w h) as [hub|]; [|now left].
  destruct (get_by_challenge w h) as [ev|] eqn:Hex; [now left|].
  right. split; [reflexivity|].
  unfold call, try_call, call. simpl.
  repeat match goal with
         | |- context [gateway_ok ?e ?l ?x] =>
           destruct (gateway_ok e l x); simpl
         end;
    try (now left);
    right; eexists; reflexivity.
Qed.

Lemma filter_length_map {A} (p : A -> bool) (g : A -> A) (l : list A) :
  (forall x, p (g x) = p x) ->
  length (filter p (map g l)) = length (filter p l).
Proof.
  intros Hp. induction l as [|x l IH]; simpl; [reflexivity|].
  rewrite Hp. destruct (p x); simpl; now rewrite IH.
Qed.

Lemma start_evaluation_at_most_one env h c w :
  (forall h', length (evaluations_of w h') <= 1) ->
  forall h', length (evaluations_of (snd (start_evaluation env h c w)) h')
             <= 1.
Proof.
  intros Hinv h'.
  assert (Hnew : get_by_challenge w h = None ->
                 length (filter (fun e => Evaluation.challenge_hub_id e =? h')
                                (evaluations w ++ [pending_evaluation env h]))
                 <= 1).
  { intros Hnone. apply get_by_challenge_none in Hnone.
    rewrite filter_app, length_app. simpl.
    destruct (String.eqb_spec h h') as [->|Hne]; simpl.
    - unfold evaluations_of, repo_list in Hnone. rewrite Hnone. simpl. lia.
    - specialize (Hinv h'). unfold evaluations_of, repo_list in Hinv. lia. }
  unfold evaluations_of, repo_list.
  destruct (start_evaluation_evaluations env h c w)
    as [->|(Hnone & [->|(ch & ->)])].
  - apply Hinv.
  - now apply Hnew.
  - unfold repo_update. rewrite filter_length_map; [now apply Hnew|].
    intros x. now destruct (Evaluation.id x =? uuid4 env 0).
Qed.

Lemma start_evaluation_channel_failure env h c w hub :
  hub_get w h = Some hub ->
  get_by_challenge w h = None ->
  gateway_ok env (effects w)
    (CreateChannel
       ("challenge-evaluation-" ++ substring 0 8 (uuid4 env 1))) = false ->
  start_evaluation env h c w
  = (failure ChannelNotCreated,
     mkWorld (hubs w) (participants w)
             (evaluations w ++ [pending_evaluation env h])%list
             (evaluators w)
             (effects w ++
              [CreateChannel
                 ("challenge-evaluation-" ++ substring 0 8 (uuid4 env 1))])
             %list).
Proof.
  intros Hhub Hnone Hfail. unfold start_evaluation.
  rewrite Hhub, Hnone. unfold call at 1.
  unfold evaluation_create at 1. cbn [effects].
  rewrite Hfail. reflexivity.
Qed.

(** C2, at a provisioning failure. Whenever an evaluation exists for a
    hub, [start_evaluation] rejects and creates nothing
    ([start_evaluation_duplicate], [start_evaluation_at_most_one]); but the
    record is created before the channel, and when [create_channel] fails
    the call returns without removing it: the hub keeps an evaluation
    stuck in 'pending', and every retried [start_evaluation] for the hub
    is rejected as a duplicate. *)
Theorem start_evaluation_failed_provisioning env env' h c w hub :
  hub_get w h = Some hub ->
  get_by_challenge w h = None ->
  gateway_ok env (effects w)
    (CreateChannel
       ("challenge-evaluation-" ++ substring 0 8 (uuid4 env 1))) = false ->
  let r := start_evaluation env h c w in
  fst r = failure ChannelNotCreated
  /\ get_by_challenge (snd r) h = Some (pending_evaluation env h)
  /\ Evaluation.status (pending_evaluation env h) = "pending"
  /\ forall c', start_evaluation env' h c' (snd r)
                = (failure AlreadyStarted, snd r).
Proof.
  intros Hhub Hnone Hfail. cbv zeta.
  rewrite (start_evaluation_channel_failure env h c w hub Hhub Hnone Hfail).
  cbn [fst snd].
  set (w' := mkWorld _ _ _ _ _).
  assert (Hget : get_by_challenge w' h = Some (pending_evaluation env h)).
  { apply get_by_challenge_none in Hnone.
    unfold get_by_challenge, repo_list, w'. cbn [evaluations].
    rewrite filter_app.
    unfold evaluations_of, repo_list in Hnone. rewrite Hnone.
    cbn. now rewrite String.eqb_refl. }
  split; [reflexivity|]. split; [exact Hget|]. split; [reflexivity|].
  intros c'. unfold start_evaluation.
  change (hub_get w' h) with (hub_get w h).
  now rewrite Hhub, Hget.
Qed.

Lemma start_evaluation_failed_provisioning_witness :
  hub_get deadline_world "H1"
  = Some (Hub.mk "H1" "U1" "AI Chatbot" "active" (Some "CTEAM")
                 (Some "CHUB") None)
  /\ get_by_challenge deadline_world "H1" = None
  /\ fst (start_evaluation no_channel_env "H1" "CGENERAL" deadline_world)
     = failure ChannelNotCreated
  /\ get_by_challenge
       (snd (start_evaluation no_channel_env "H1" "CGENERAL" deadline_world))
       "H1"
     = Some (pending_evaluation no_channel_env "H1")
  /\ Evaluation.status (pending_evaluation no_channel_env "H1") = "pending"
  /\ forall c',
       start_evaluation sample_env "H1" c'
         (snd (start_evaluation no_channel_env "H1" "CGENERAL"
                                deadline_world))
       = (failure AlreadyStarted,
          snd (start_evaluation no_channel_env "H1" "CGENERAL"
                                deadline_world)).
Proof.
  split; [reflexivity|]. split; [reflexivity|].
  exact (start_evaluation_failed_provisioning no_channel_env sample_env
           "H1" "CGENERAL" deadline_world _ eq_refl eq_refl eq_refl).
Defined.

Example start_evaluation_deadline_world :
  let r := start_evaluation sample_env "H1" "CGENERAL" deadline_world in
  success (fst r) = true
  /\ option_map Evaluation.status (get_by_challenge (snd r) "H1")
     = Some "evaluating"
  /\ effects (snd r)
     = [CreateChannel "challenge-evaluation-6fa459ea";
        InviteUsers "C-challenge-evaluation-6fa459ea" ["U1"; "U2"; "UADMIN"];
        AddOnceJob
          "finalize_evaluation_1b4e28ba-2fa1-11d2-883f-0016d3cca427" 2880
          "1b4e28ba-2fa1-11d2-883f-0016d3cca427";
        PostMessage "C-challenge-evaluation-6fa459ea" MWelcome;
        PostMessage "CHUB" (MJuryCall "AI Chatbot")].
Proof. cbv zeta. repeat split; reflexivity. Qed.

(** ** Calls to the outside leave the record store alone *)

Lemma same_store_refl w : same_store w w.
Proof. now repeat split. Qed.

Lemma same_store_trans w1 w2 w3 :
  same_store w1 w2 -> same_store w2 w3 -> same_store w1 w3.
Proof.
  intros (A & B & C & D) (A' & B' & C' & D').
  repeat split; congruence.
Qed.

Lemma same_store_call env e w : same_store w (snd (call env e w)).
Proof. now repeat split. Qed.

Lemma same_store_try_call env e w : same_store w (try_call env e w).
Proof. now repeat split. Qed.

Lemma same_store_send_dm env u m w : same_store w (send_dm env u m w).
Proof.
  unfold send_dm, call.
  destruct (gateway_ok env (effects w) (OpenConversation u));
    [|now repeat split].
  destruct (dm_channel_of env u); now repeat split.
Qed.

Lemma same_store_post_if_set env ch m w :
  same_store w (post_if_set env ch m w).
Proof.
  unfold post_if_set. destruct ch as [c|]; [|apply same_store_refl].
  destruct (truthy (Some c)); now repeat split.
Qed.

Lemma same_store_dms env m us w :
  same_store w (fold_left (fun w j_id => send_dm env j_id m w) us w).
Proof.
  revert w. induction us as [|u us IH]; intros w; simpl.
  - apply same_store_refl.
  - eapply same_store_trans; [apply (same_store_send_dm env u m)|apply IH].
Qed.

Lemma same_store_batch_invite env id ev w :
  same_store w (batch_invite env id ev w).
Proof.
  unfold batch_invite.
  destruct (Evaluation.evaluation_channel_id ev) as [c|];
    [|apply same_store_refl].
  destruct (truthy (Some c)); [|apply same_store_refl].
  unfold call at 1.
  destruct (gateway_ok env (effects w) _); [|now repeat split].
  destruct (3 <=? _)%nat; [|now repeat split].
  unfold call at 1. cbn [effects].
  destruct (gateway_ok env _ _); [|now repeat split].
  eapply same_store_trans; [|apply same_store_dms]. now repeat split.
Qed.

Lemma same_store_completion_trigger env ev t f w :
  same_store w (completion_trigger env ev t f w).
Proof.
  unfold completion_trigger.
  destruct (truthy _ && _); apply same_store_post_if_set.
Qed.

(** Posts and direct messages never archive a channel. *)

Lemma archives_try_post env c m w :
  archives (effects (try_call env (PostMessage c m) w))
  = archives (effects w).
Proof. simpl. rewrite archives_app. simpl. unfold archives. simpl. lia. Qed.

Lemma archives_post_if_set env ch m w :
  archives (effects (post_if_set env ch m w)) = archives (effects w).
Proof.
  destruct (post_if_set_effects env ch m w) as (l & -> & Hf).
  rewrite archives_app, (archives_posts _ _ Hf). lia.
Qed.

Lemma archives_completion_trigger env ev t f w :
  archives (effects (completion_trigger env ev t f w))
  = archives (effects w).
Proof.
  unfold completion_trigger.
  destruct (truthy _ && _); apply archives_post_if_set.
Qed.

(** ** Eligibility *)

Lemma participant_ids_spec w h u :
  existsb (String.eqb u) (participant_ids w h) = true
  <-> exists p, In p (participants w)
                /\ Participant.challenge_hub_id p = h
                /\ Participant.user_id p = u.
Proof.
  unfold participant_ids, repo_list. rewrite existsb_exists. split.
  - intros (x & Hin & Heq). apply String.eqb_eq in Heq. subst x.
    apply in_map_iff in Hin. destruct Hin as (p & Hu & Hp).
    apply filter_In in Hp. destruct Hp as (Hp & Hh).
    apply String.eqb_eq in Hh. now exists p.
  - intros (p & Hp & Hh & Hu). exists u. split.
    + apply in_map_iff. exists p. split; [assumption|].
      apply filter_In. split; [assumption|]. now apply String.eqb_eq.
    + apply String.eqb_refl.
Qed.

Lemma team_or_admin_spec env w hub u :
  team_or_admin env w hub u = true <-> on_team_or_admin env w hub u.
Proof.
  unfold team_or_admin, on_team_or_admin.
  rewrite !orb_true_iff, eq_opt_true, String.eqb_eq, participant_ids_spec.
  tauto.
Qed.

(** C5. The hub's creator, its participants and the configured
    administrator never join the jury pool of the hub's evaluation through
    [toggle_juror] and never vote through [submit_vote]: both calls return
    a failure envelope and leave the world as it was, so no evaluator
    record is created and no vote is recorded. *)
Theorem team_and_admin_never_judge env w id u ev hub :
  evaluation_get w id = Some ev ->
  hub_get w (Evaluation.challenge_hub_id ev) = Some hub ->
  on_team_or_admin env w hub u ->
  (success (fst (toggle_juror env id u w)) = false
   /\ snd (toggle_juror env id u w) = w)
  /\ forall vote,
       success (fst (submit_vote env id u vote w)) = false
       /\ snd (submit_vote env id u vote w) = w.
Proof.
  intros Hev Hhub Hteam. split.
  - unfold toggle_juror. rewrite Hev, Hhub.
    apply team_or_admin_spec in Hteam. rewrite Hteam. now split.
  - intros vote. unfold submit_vote. rewrite Hev, Hhub.
    destruct Hteam as [Ha|[Hc|Hp]].
    + apply eq_opt_true in Ha. rewrite Ha. now split.
    + destruct (eq_opt u (admin_slack_id env)); [now split|].
      subst u. rewrite String.eqb_refl. now split.
    + apply participant_ids_spec in Hp.
      destruct (eq_opt u (admin_slack_id env)); [now split|].
      destruct (u =? Hub.creator_id hub); [now split|].
      rewrite Hp. now split.
Qed.

Lemma team_and_admin_never_judge_witness :
  evaluation_get sample_world "E1" = Some sample_evaluation
  /\ hub_get sample_world "H1" = Some sample_hub
  /\ on_team_or_admin sample_env sample_world sample_hub "U2"
  /\ (success (fst (toggle_juror sample_env "E1" "U2" sample_world)) = false
      /\ snd (toggle_juror sample_env "E1" "U2" sample_world) = sample_world)
  /\ forall vote,
       success (fst (submit_vote sample_env "E1" "U2" vote sample_world))
       = false
       /\ snd (submit_vote sample_env "E1" "U2" vote sample_world)
          = sample_world.
Proof.
  assert (H : on_team_or_admin sample_env sample_world sample_hub "U2").
  { right. right. exists (Participant.mk "P2" "H1" "U2").
    simpl. repeat split. right. now left. }
  split; [reflexivity|]. split; [reflexivity|]. split; [exact H|].
  exact (team_and_admin_never_judge sample_env sample_world "E1" "U2"
           sample_evaluation sample_hub eq_refl eq_refl H).
Defined.

(** ** Votes are written once *)





(** ** The jury pool *)

Lemma same_store_evaluators w w' :
  same_store w w' -> evaluators w' = evaluators w.
Proof. now intros (_ & _ & _ & H). Qed.

(** The evaluator table after [toggle_juror]: untouched, without the
    caller's slot, or with a new slot that was added below capacity. *)
Lemma toggle_juror_evaluators env id u w :
  let w' := snd (toggle_juror env id u w) in
  evaluators w' = evaluators w
  \/ (exists j, get_by_evaluation_and_user w id u = Some j
                /\ evaluators w'
                   = repo_delete Evaluator.id (evaluators w) (Evaluator.id j))
  \/ (count_evaluators w id < 3
      /\ get_by_evaluation_and_user w id u = None
      /\ evaluators w'
         = (evaluators w ++ [Evaluator.mk (uuid4 env 0) id u None None])%list).
Proof.
  cbv zeta. unfold toggle_juror.
  destruct (evaluation_get w id) as [ev|]; [|now left].
  destruct (hub_get w _) as [hub|]; [|now left].
  destruct (team_or_admin env w hub u); [now left|].
  destruct (get_by_evaluation_and_user w id u) as [j|] eqn:Hj.
  - right. left. exists j. split; [reflexivity|]. cbn [snd].
    now rewrite (same_store_evaluators _ _ (same_store_send_dm env u _ _)).
  - destruct (Nat.leb_spec 3 (count_evaluators w id)) as [Hfull|Hroom];
      [now left|].
    right. right. split; [exact Hroom|]. split; [reflexivity|]. cbn [snd].
    set (w1 := evaluator_create _ w).
    set (w2 := send_dm env u _ w1).
    assert (H2 : evaluators w2 = evaluators w1)
      by apply (same_store_evaluators _ _ (same_store_send_dm env u _ w1)).
    destruct (3 <=? count_evaluators w id + 1)%nat; [|exact H2].
    now rewrite (same_store_evaluators _ _
                   (same_store_batch_invite env id ev w2)).
Qed.

Lemma filter_length_le {A} (p : A -> bool) (l : list A) :
  length (filter p l) <= length l.
Proof.
  induction l as [|x l IH]; simpl; [lia|]. destruct (p x); simpl; lia.
Qed.

Lemma filter_filter_length_le {A} (p q : A -> bool) (l : list A) :
  length (filter p (filter q l)) <= length (filter p l).
Proof.
  induction l as [|x l IH]; simpl; [lia|].
  destruct (q x); simpl; destruct (p x); simpl; lia.
Qed.

Lemma toggle_juror_count env id u w e :
  count_evaluators (snd (toggle_juror env id u w)) e
  <= Nat.max 3 (count_evaluators w e).
Proof.
  unfold count_evaluators, list_by_evaluation, repo_list.
  destruct (toggle_juror_evaluators env id u w)
    as [->|[(j & _ & ->)|(Hroom & _ & ->)]].
  - lia.
  - unfold repo_delete.
    pose proof (filter_filter_length_le
                  (fun j0 => Evaluator.evaluation_id j0 =? e)
                  (fun r => negb (Evaluator.id r =? Evaluator.id j))
                  (evaluators w)). lia.
  - rewrite filter_app, length_app. cbn [filter Evaluator.evaluation_id].
    unfold count_evaluators, list_by_evaluation, repo_list in Hroom.
    destruct (String.eqb_spec id e) as [->|Hne]; cbn [length]; lia.
Qed.

(** Only [toggle_juror] adds or removes jurors. *)

Lemma start_evaluation_evaluators env h c w :
  evaluators (snd (start_evaluation env h c w)) = evaluators w.
Proof.
  unfold start_evaluation.
  destruct (hub_get w h) as [hub|]; [|reflexivity].
  destruct (get_by_challenge w h); [reflexivity|].
  unfold call, try_call, call. simpl.
  repeat match goal with
         | |- context [gateway_ok ?e ?l ?x] =>
           destruct (gateway_ok e l x); simpl
         end; reflexivity.
Qed.

Lemma finalize_evaluators env id admin w :
  evaluators (finalize_evaluation env id admin w) = evaluators w.
Proof.
  destruct (evaluation_get w id) as [ev|] eqn:Hget.
  - destruct (String.eqb_spec (Evaluation.status ev) "evaluating")
      as [Hst|Hst].
    + now destruct (finalize_evaluating env id admin w ev Hget Hst)
        as (_ & -> & _).
    + rewrite finalize_not_evaluating; [reflexivity|].
      rewrite Hget; simpl; congruence.
  - rewrite finalize_not_evaluating; [reflexivity|].
    rewrite Hget; simpl; discriminate.
Qed.

Lemma admin_finalize_evaluators env id a d w :
  evaluators (snd (admin_finalize_evaluation env id a d w)) = evaluators w.
Proof.
  unfold admin_finalize_evaluation.
  destruct (negb _); [reflexivity|].
  destruct (evaluation_get w id) as [ev|]; [|reflexivity].
  destruct (Evaluation.status ev =? "completed"); [reflexivity|].
  destruct (d =? "approved"); cbn [snd]; now rewrite finalize_evaluators.
Qed.

Lemma force_complete_evaluators env id a r w :
  evaluators (snd (force_complete_evaluation env id a r w)) = evaluators w.
Proof.
  unfold force_complete_evaluation.
  destruct (negb _); [reflexivity|].
  destruct (evaluation_get w id) as [ev|]; [|reflexivity].
  cbn [snd].
  destruct (Evaluation.evaluation_channel_id ev) as [c|]; [|reflexivity].
  destruct (truthy (Some c)); [|reflexivity].
  unfold call, try_call, call. cbn [effects].
  destruct (gateway_ok env _ _); reflexivity.
Qed.

(** The evaluator table after [submit_vote]: untouched, or with the vote
    columns of the caller's slot written. *)
Lemma submit_vote_evaluators env id u vote w :
  let w' := snd (submit_vote env id u vote w) in
  (success (fst (submit_vote env id u vote w)) = false /\ w' = w)
  \/ exists j,
       get_by_evaluation_and_user w id u = Some j
       /\ truthy (Evaluator.vote j) = false
       /\ evaluators w'
          = repo_update Evaluator.id (evaluators w) (Evaluator.id j)
                        (set_vote (lower env vote) (clock env 0)).
Proof.
  cbv zeta. unfold submit_vote.
  destruct (evaluation_get w id) as [ev|]; [|now left].
  destruct (hub_get w _) as [hub|]; [|now left].
  destruct (eq_opt _ _); [now left|].
  destruct (_ =? Hub.creator_id hub); [now left|].
  destruct (existsb _ _); [now left|].
  destruct (get_by_evaluation_and_user w id u) as [j|]; [|now left].
  destruct (truthy (Evaluator.vote j)) eqn:Hv; [now left|].
  right. exists j. split; [reflexivity|]. split; [exact Hv|].
  destruct (get_votes _ id) as [t f]. cbn [snd].
  destruct (3 <=? t + f)%nat; [|reflexivity].
  now rewrite (same_store_evaluators _ _
                 (same_store_completion_trigger env ev t f _)).
Qed.

Lemma handle_count env r w e :
  count_evaluators (handle env r w) e <= Nat.max 3 (count_evaluators w e).
Proof.
  destruct r as [h c|id u|id u v|id a d|id|id a res]; cbn [handle].
  - unfold count_evaluators, list_by_evaluation.
    rewrite start_evaluation_evaluators. lia.
  - apply toggle_juror_count.
  - unfold count_evaluators, list_by_evaluation, repo_list.
    destruct (submit_vote_evaluators env id u v w)
      as [(_ & ->)|(j & _ & _ & ->)]; [lia|].
    unfold repo_update. rewrite filter_length_map; [lia|].
    intros x. now destruct (Evaluator.id x =? Evaluator.id j).
  - unfold count_evaluators, list_by_evaluation.
    rewrite admin_finalize_evaluators. lia.
  - unfold count_evaluators, list_by_evaluation.
    rewrite finalize_evaluators. lia.
  - unfold count_evaluators, list_by_evaluation.
    rewrite force_complete_evaluators. lia.
Qed.

Lemma run_count calls w :
  (forall e, count_evaluators w e <= 3) ->
  forall e, count_evaluators (run calls w) e <= 3.
Proof.
  revert w. induction calls as [|[env r] calls IH]; intros w Hw e.
  - apply Hw.
  - simpl. apply IH. intros e'.
    pose proof (handle_count env r w e'). specialize (Hw e'). lia.
Qed.

(** With requests served one after the other, the jury pool of an
    evaluation never exceeds three members:
    pools of at most three stay so after [toggle_juror] and after any
    sequence of service requests; [toggle_juror] adds a juror row only
    when the count it reads is below three; and a join attempt (by a user
    outside team and administration who holds no slot) on a pool of three
    returns the 'pool full' failure and leaves the world as it was. *)
Theorem jury_pool_capacity env id u w calls :
  (forall e, count_evaluators w e <= 3) ->
  let r := toggle_juror env id u w in
  (forall e, count_evaluators (snd r) e <= 3)
  /\ (forall e, count_evaluators (run calls w) e <= 3)
  /\ (length (evaluators w) < length (evaluators (snd r)) ->
      count_evaluators w id < 3)
  /\ (forall ev hub,
        evaluation_get w id = Some ev ->
        hub_get w (Evaluation.challenge_hub_id ev) = Some hub ->
        ~ on_team_or_admin env w hub u ->
        get_by_evaluation_and_user w id u = None ->
        count_evaluators w id = 3 ->
        r = (mkResult false PoolFull (Some "full") None None None, w)).
Proof.
  intros Hw. cbv zeta. split; [|split; [|split]].
  - intros e. pose proof (toggle_juror_count env id u w e).
    specialize (Hw e). lia.
  - now apply run_count.
  - intros Hgrow.
    destruct (toggle_juror_evaluators env id u w)
      as [Heq|[(j & _ & Heq)|(Hroom & _)]].
    + rewrite Heq in Hgrow. lia.
    + rewrite Heq in Hgrow. unfold repo_delete in Hgrow.
      pose proof (filter_length_le
                    (fun r => negb (Evaluator.id r =? Evaluator.id j))
                    (evaluators w)). lia.
    + exact Hroom.
  - intros ev hub Hev Hhub Hout Hslot Hfull.
    unfold toggle_juror. rewrite Hev, Hhub.
    destruct (team_or_admin env w hub u) eqn:Ht.
    + exfalso. now apply Hout, team_or_admin_spec.
    + now rewrite Hslot, Hfull.
Qed.

Lemma jury_pool_capacity_witness :
  (forall e, count_evaluators sample_world e <= 3)
  /\ toggle_juror sample_env "E1" "U5" sample_world
     = (mkResult false PoolFull (Some "full") None None None, sample_world)
  /\ forall e,
       count_evaluators
         (run [(sample_env, ToggleJuror "E1" "U5");
               (sample_env, ToggleJuror "E1" "U6")] sample_world) e <= 3.
Proof.
  assert (Hw : forall e, count_evaluators sample_world e <= 3).
  { intros e. unfold count_evaluators, list_by_evaluation, repo_list.
    apply (filter_length_le _ (evaluators sample_world)). }
  assert (Hout : ~ on_team_or_admin sample_env sample_world sample_hub "U5").
  { intros [Ha|[Hc|(p & Hp & _ & Hu)]]; try discriminate.
    simpl in Hp. destruct Hp as [<-|[<-|[]]]; discriminate. }
  pose proof (jury_pool_capacity sample_env "E1" "U5" sample_world
                [(sample_env, ToggleJuror "E1" "U5");
                 (sample_env, ToggleJuror "E1" "U6")] Hw)
    as (_ & Hrun & _ & Hfull).
  split; [exact Hw|]. split; [|exact Hrun].
  exact (Hfull sample_evaluation sample_hub eq_refl eq_refl Hout eq_refl
               eq_refl).
Defined.

(** Three users join an empty pool, a fourth is turned away. *)
Example three_jurors_then_full :
  let join u w := toggle_juror sample_env "E1" u w in
  let r1 := join "U7" recruiting_world in
  let r2 := join "U8" (snd r1) in
  let r3 := join "U9" (snd r2) in
  let r4 := join "U5" (snd r3) in
  is_full (fst r1) = Some false
  /\ is_full (fst r2) = Some false
  /\ is_full (fst r3) = Some true
  /\ count_evaluators (snd r3) "E1" = 3
  /\ message (fst r4) = PoolFull
  /\ snd r4 = snd r3
  /\ filter (fun e => match e with InviteUsers _ _ => true | _ => false end)
            (effects (snd r4))
     = [InviteUsers "CEVAL" ["U7"; "U8"; "U9"]].
Proof. cbv zeta. repeat split; reflexivity. Qed.

(** ** What a vote changes *)

Lemma set_votes_id t f e : Evaluation.id (set_votes t f e) = Evaluation.id e.
Proof. reflexivity. Qed.

(** A successful [submit_vote], step by step. *)
Lemma submit_vote_success env id u vote w :
  success (fst (submit_vote env id u vote w)) = true ->
  exists ev j,
    evaluation_get w id = Some ev
    /\ get_by_evaluation_and_user w id u = Some j
    /\ truthy (Evaluator.vote j) = false
    /\ let w1 := evaluator_update (Evaluator.id j)
                   (set_vote (lower env vote) (clock env 0)) w in
       let t := fst (get_votes w1 id) in
       let f := snd (get_votes w1 id) in
       let w2 := update_votes id t f w1 in
       snd (submit_vote env id u vote w)
       = if (3 <=? t + f)%nat then completion_trigger env ev t f w2 else w2.
Proof.
  unfold submit_vote.
  destruct (evaluation_get w id) as [ev|]; [|discriminate].
  destruct (hub_get w _) as [hub|]; [|discriminate].
  destruct (eq_opt _ _); [discriminate|].
  destruct (_ =? Hub.creator_id hub); [discriminate|].
  destruct (existsb _ _); [discriminate|].
  destruct (get_by_evaluation_and_user w id u) as [j|]; [|discriminate].
  destruct (truthy (Evaluator.vote j)) eqn:Hv; [discriminate|].
  intros _. exists ev, j.
  split; [reflexivity|]. split; [reflexivity|]. split; [exact Hv|].
  cbv zeta. destruct (get_votes _ id) as [t f]. reflexivity.
Qed.

(** C8. A successful [submit_vote] writes the vote columns of the
    caller's juror row and the running tallies of the evaluation, and
    nothing else in the record store: hubs and participants are as they
    were, and every evaluation keeps its status, final result and
    completion time, whatever the number of votes; outside the store it
    only posts a message, it archives nothing. *)
Theorem submit_vote_only_records_vote env id u vote w :
  success (fst (submit_vote env id u vote w)) = true ->
  let w' := snd (submit_vote env id u vote w) in
  hubs w' = hubs w
  /\ participants w' = participants w
  /\ (exists j,
        get_by_evaluation_and_user w id u = Some j
        /\ evaluators w'
           = repo_update Evaluator.id (evaluators w) (Evaluator.id j)
                         (set_vote (lower env vote) (clock env 0)))
  /\ (exists t f,
        evaluations w'
        = repo_update Evaluation.id (evaluations w) id (set_votes t f))
  /\ (forall i,
        option_map Evaluation.status (evaluation_get w' i)
        = option_map Evaluation.status (evaluation_get w i)
        /\ option_map Evaluation.final_result (evaluation_get w' i)
           = option_map Evaluation.final_result (evaluation_get w i)
        /\ option_map Evaluation.completed_at (evaluation_get w' i)
           = option_map Evaluation.completed_at (evaluation_get w i))
  /\ (exists m l, effects w' = (effects w ++ l)%list
                  /\ Forall (is_post_of m) l)
  /\ archives (effects w') = archives (effects w).
Proof.
  intros Hok. cbv zeta.
  destruct (submit_vote_success env id u vote w Hok)
    as (ev & j & Hev & Hj & _ & Hw').
  cbv zeta in Hw'.
  set (w1 := evaluator_update (Evaluator.id j)
               (set_vote (lower env vote) (clock env 0)) w) in *.
  set (t := fst (get_votes w1 id)) in *.
  set (f := snd (get_votes w1 id)) in *.
  set (w2 := update_votes id t f w1) in *.
  assert (Hs : same_store w2 (snd (submit_vote env id u vote w))).
  { rewrite Hw'. destruct (3 <=? t + f)%nat.
    - apply same_store_completion_trigger.
    - apply same_store_refl. }
  destruct Hs as (Hh & Hp & He & Hjs).
  assert (Hevs : evaluations (snd (submit_vote env id u vote w))
                 = repo_update Evaluation.id (evaluations w) id
                               (set_votes t f)) by (now rewrite He).
  split; [now rewrite Hh|]. split; [now rewrite Hp|].
  split; [exists j; split; [exact Hj|now rewrite Hjs]|].
  split; [now exists t, f|].
  split.
  { intros i. unfold evaluation_get. rewrite Hevs.
    rewrite repo_get_update by apply set_votes_id.
    destruct (i =? id); [|now repeat split].
    destruct (repo_get Evaluation.id (evaluations w) i); now repeat split. }
  rewrite Hw'. destruct (3 <=? t + f)%nat.
  - split.
    + unfold completion_trigger.
      destruct (truthy _ && _);
        match goal with
        | |- context [post_if_set ?e ?c ?m ?x] =>
          destruct (post_if_set_effects e c m x) as (l & Hl & Hf);
            exists m, l; split; [exact Hl|exact Hf]
        end.
    + now rewrite archives_completion_trigger.
  - split; [|reflexivity].
    exists MWelcome, []. split; [now rewrite app_nil_r|constructor].
Qed.

Lemma submit_vote_only_records_vote_witness :
  success (fst (submit_vote sample_env "E1" "U9" "False" two_votes_world))
  = true
  /\ option_map Evaluation.status
       (evaluation_get
          (snd (submit_vote sample_env "E1" "U9" "False" two_votes_world))
          "E1")
     = option_map Evaluation.status (evaluation_get two_votes_world "E1")
  /\ archives
       (effects
          (snd (submit_vote sample_env "E1" "U9" "False" two_votes_world)))
     = archives (effects two_votes_world).
Proof.
  pose proof (submit_vote_only_records_vote sample_env "E1" "U9" "False"
                two_votes_world eq_refl)
    as (_ & _ & _ & _ & Hst & _ & Harch).
  split; [reflexivity|]. split; [exact (proj1 (Hst "E1"))|exact Harch].
Defined.

Example third_vote_does_not_finalize :
  let w' := snd (submit_vote sample_env "E1" "U9" "False" two_votes_world) in
  evaluation_get w' "E1"
  = Some (Evaluation.mk "E1" "H1" "evaluating" "2025-01-12T12:00:00"
                        (Some "CEVAL")
                        (Some "https://github.com/team/project") (Some 1%Z)
                        2 1 None None None)
  /\ get_by_evaluation_and_user w' "E1" "U9"
     = Some (Evaluator.mk "J3" "E1" "U9" (Some "false")
                          (Some "2025-01-10T12:00:00"))
  /\ effects w'
     = [PostMessage "CEVAL"
          (MAdminApprovalRequest 2 1
             (Some "https://github.com/team/project"))].
Proof. cbv zeta. repeat split; reflexivity. Qed.

(** ** The value of a vote *)

Lemma filter_map_commute {A} (p : A -> bool) (g : A -> A) (l : list A) :
  (forall x, p (g x) = p x) ->
  filter p (map g l) = map g (filter p l).
Proof.
  intros Hp. induction l as [|x l IH]; simpl; [reflexivity|].
  rewrite Hp. destruct (p x); simpl; now rewrite IH.
Qed.

Lemma filter_length_map_In {A} (p : A -> bool) (g : A -> A) (l : list A) :
  (forall x, In x l -> p (g x) = p x) ->
  length (filter p (map g l)) = length (filter p l).
Proof.
  induction l as [|x l IH]; intros Hp; simpl; [reflexivity|].
  rewrite (Hp x (or_introl eq_refl)).
  destruct (p x); simpl; rewrite IH; auto; intros y Hy; apply Hp; now right.
Qed.

Lemma find_map_commute {A} (p : A -> bool) (g : A -> A) (l : list A) :
  (forall x, p (g x) = p x) ->
  find p (map g l) = option_map g (find p l).
Proof.
  intros Hp. induction l as [|x l IH]; simpl; [reflexivity|].
  rewrite Hp. now destruct (p x).
Qed.

Lemma NoDup_map_eq {A B} (k : A -> B) (l : list A) (x y : A) :
  NoDup (map k l) -> In x l -> In y l -> k x = k y -> x = y.
Proof.
  induction l as [|a l IH]; intros Hnd Hx Hy Hk; [destruct Hx|].
  simpl in Hnd. inversion Hnd as [|? ? Hnotin Hnd']; subst.
  destruct Hx as [->|Hx]; destruct Hy as [->|Hy].
  - reflexivity.
  - exfalso. apply Hnotin. rewrite Hk. now apply in_map.
  - exfalso. apply Hnotin. rewrite <- Hk. now apply in_map.
  - now apply IH.
Qed.

(** The juror's slot after the vote is written. *)
Lemma slot_after_vote w id u j v at_ :
  get_by_evaluation_and_user w id u = Some j ->
  get_by_evaluation_and_user
    (evaluator_update (Evaluator.id j) (set_vote v at_) w) id u
  = Some (set_vote v at_ j).
Proof.
  unfold get_by_evaluation_and_user, evaluator_update, repo_update.
  cbn [evaluators]. intros Hj.
  rewrite find_map_commute.
  - rewrite Hj. simpl. now rewrite String.eqb_refl.
  - intros x. now destruct (Evaluator.id x =? Evaluator.id j).
Qed.

(** A value that is not counted leaves the counts as they were. *)
Lemma get_votes_after_uncounted_vote w id j v at_ :
  NoDup (map Evaluator.id (evaluators w)) ->
  In j (evaluators w) ->
  truthy (Evaluator.vote j) = false ->
  v <> "true" -> v <> "false" ->
  get_votes (evaluator_update (Evaluator.id j) (set_vote v at_) w) id
  = get_votes w id.
Proof.
  intros Hnd Hin Hv Ht Hf.
  assert (Hrow : forall b x,
             (b = "true" \/ b = "false") -> In x (evaluators w) ->
             voted b (if Evaluator.id x =? Evaluator.id j
                      then set_vote v at_ x else x)
             = voted b x).
  { intros b x Hb Hx.
    destruct (String.eqb_spec (Evaluator.id x) (Evaluator.id j)) as [He|];
      [|reflexivity].
    assert (x = j) by (eapply NoDup_map_eq; eauto). subst x.
    unfold voted, set_vote. simpl.
    assert (Hbv : (b =? v) = false)
      by (apply String.eqb_neq; destruct Hb; congruence).
    rewrite Hbv.
    destruct (Evaluator.vote j) as [s|]; [|reflexivity]. simpl in *.
    destruct (String.eqb_spec s ""); [|discriminate]. subst s.
    destruct Hb; subst b; reflexivity. }
  unfold get_votes, list_by_evaluation, repo_list, evaluator_update,
    repo_update. cbn [evaluators].
  rewrite filter_map_commute
    by (intros x; now destruct (Evaluator.id x =? Evaluator.id j)).
  f_equal; apply filter_length_map_In; intros x Hx;
    apply filter_In in Hx; destruct Hx as (Hx & _);
    apply Hrow; auto.
Qed.

Lemma submit_vote_accepted env id u vote w ev hub j :
  evaluation_get w id = Some ev ->
  hub_get w (Evaluation.challenge_hub_id ev) = Some hub ->
  ~ on_team_or_admin env w hub u ->
  get_by_evaluation_and_user w id u = Some j ->
  truthy (Evaluator.vote j) = false ->
  fst (submit_vote env id u vote w) = succeeded (VoteRecorded vote).
Proof.
  intros Hev Hhub Hout Hj Hv.
  assert (Ht : team_or_admin env w hub u = false).
  { destruct (team_or_admin env w hub u) eqn:Ht; [|reflexivity].
    exfalso. now apply Hout, team_or_admin_spec. }
  unfold team_or_admin in Ht. apply orb_false_iff in Ht.
  destruct Ht as (Ht & Hp). apply orb_false_iff in Ht.
  destruct Ht as (Ha & Hc).
  unfold submit_vote. rewrite Hev, Hhub, Ha, Hc, Hp, Hj, Hv.
  now destruct (get_votes _ id).
Qed.

(** C10, as the code has it. [submit_vote] does not check the value of the
    vote: for every call by a registered juror who is outside team and
    administration and has not voted, the call succeeds and the
    lower-cased argument ([vote.lower()], whatever [str.lower] makes of
    it) is stored in the juror's vote column, with the time of the call;
    the tallies written to the evaluation are the counts of 'true' and
    'false' among its jurors, which a lower-cased value other than these
    two leaves as they were when the evaluator ids are unique (they are
    the primary key of the table). *)
Theorem submit_vote_stores_any_value env id u vote w ev hub j :
  evaluation_get w id = Some ev ->
  hub_get w (Evaluation.challenge_hub_id ev) = Some hub ->
  ~ on_team_or_admin env w hub u ->
  get_by_evaluation_and_user w id u = Some j ->
  truthy (Evaluator.vote j) = false ->
  let r := submit_vote env id u vote w in
  fst r = succeeded (VoteRecorded vote)
  /\ get_by_evaluation_and_user (snd r) id u
     = Some (Evaluator.mk (Evaluator.id j) (Evaluator.evaluation_id j)
               (Evaluator.user_id j) (Some (lower env vote))
               (Some (clock env 0)))
  /\ evaluation_get (snd r) id
     = Some (set_votes (fst (get_votes (snd r) id))
                       (snd (get_votes (snd r) id)) ev)
  /\ (lower env vote <> "true" -> lower env vote <> "false" ->
      NoDup (map Evaluator.id (evaluators w)) ->
      get_votes (snd r) id = get_votes w id).
Proof.
  intros Hev Hhub Hout Hj Hv. cbv zeta.
  pose proof (submit_vote_accepted env id u vote w ev hub j
                Hev Hhub Hout Hj Hv) as Hok.
  split; [exact Hok|].
  assert (Hs : success (fst (submit_vote env id u vote w)) = true)
    by (now rewrite Hok).
  destruct (submit_vote_success env id u vote w Hs)
    as (ev' & j' & Hev' & Hj' & _ & Hw').
  rewrite Hev in Hev'. rewrite Hj in Hj'.
  injection Hev' as <-. injection Hj' as <-.
  cbv zeta in Hw'.
  set (w1 := evaluator_update (Evaluator.id j)
               (set_vote (lower env vote) (clock env 0)) w) in *.
  set (t := fst (get_votes w1 id)) in *.
  set (f := snd (get_votes w1 id)) in *.
  set (w2 := update_votes id t f w1) in *.
  assert (Hsame : same_store w2 (snd (submit_vote env id u vote w))).
  { rewrite Hw'. destruct (3 <=? t + f)%nat.
    - apply same_store_completion_trigger.
    - apply same_store_refl. }
  destruct Hsame as (_ & _ & He & Hjs).
  assert (Hvotes : get_votes (snd (submit_vote env id u vote w)) id
                   = get_votes w1 id).
  { unfold get_votes, list_by_evaluation. now rewrite Hjs. }
  split; [|split].
  - unfold get_by_evaluation_and_user. rewrite Hjs.
    exact (slot_after_vote w id u j (lower env vote) (clock env 0) Hj).
  - rewrite Hvotes. fold t f. unfold evaluation_get. rewrite He.
    unfold w2, update_votes, evaluation_update. cbn [evaluations].
    rewrite repo_get_update by apply set_votes_id.
    rewrite String.eqb_refl.
    change (repo_get Evaluation.id (evaluations w1) id)
      with (evaluation_get w id).
    now rewrite Hev.
  - intros Ht Hf Hnd. rewrite Hvotes.
    apply get_votes_after_uncounted_vote; try assumption.
    unfold get_by_evaluation_and_user in Hj. now apply find_some in Hj.
Qed.

Lemma submit_vote_stores_any_value_witness :
  evaluation_get two_votes_world "E1"
  = Some (Evaluation.mk "E1" "H1" "evaluating" "2025-01-12T12:00:00"
                        (Some "CEVAL")
                        (Some "https://github.com/team/project") (Some 1%Z)
                        2 0 None None None)
  /\ hub_get two_votes_world "H1" = Some sample_hub
  /\ ~ on_team_or_admin sample_env two_votes_world sample_hub "U9"
  /\ get_by_evaluation_and_user two_votes_world "E1" "U9"
     = Some (Evaluator.mk "J3" "E1" "U9" None None)
  /\ NoDup (map Evaluator.id (evaluators two_votes_world))
  /\ get_by_evaluation_and_user
       (snd (submit_vote sample_env "E1" "U9" "Maybe" two_votes_world))
       "E1" "U9"
     = Some (Evaluator.mk "J3" "E1" "U9" (Some "maybe")
                          (Some "2025-01-10T12:00:00"))
  /\ get_votes
       (snd (submit_vote sample_env "E1" "U9" "Maybe" two_votes_world)) "E1"
     = get_votes two_votes_world "E1".
Proof.
  assert (Hout : ~ on_team_or_admin sample_env two_votes_world sample_hub
                   "U9").
  { intros [Ha|[Hc|(p & Hp & _ & Hu)]]; try discriminate.
    simpl in Hp. destruct Hp as [<-|[<-|[]]]; discriminate. }
  assert (Hnd : NoDup (map Evaluator.id (evaluators two_votes_world))).
  { simpl. repeat constructor; simpl; intuition discriminate. }
  pose proof (submit_vote_stores_any_value sample_env "E1" "U9" "Maybe"
                two_votes_world _ sample_hub _ eq_refl eq_refl Hout eq_refl
                eq_refl)
    as (_ & Hslot & _ & Hvotes).
  split; [reflexivity|]. split; [reflexivity|]. split; [exact Hout|].
  split; [reflexivity|]. split; [exact Hnd|].
  split; [exact Hslot|].
  apply Hvotes; [discriminate|discriminate|exact Hnd].
Defined.

(** C10, as stated, fails: the third juror of the sample evaluation
    votes "Maybe"; the call succeeds, "maybe" is stored as the juror's
    vote, and a later vote by the same juror is refused as already
    cast. *)
Lemma submit_vote_stores_invalid_value :
  let r := submit_vote sample_env "E1" "U9" "Maybe" two_votes_world in
  get_by_evaluation_and_user two_votes_world "E1" "U9"
  = Some (Evaluator.mk "J3" "E1" "U9" None None)
  /\ lower sample_env "Maybe" <> "true"
  /\ lower sample_env "Maybe" <> "false"
  /\ success (fst r) = true
  /\ option_map Evaluator.vote (get_by_evaluation_and_user (snd r) "E1" "U9")
     = Some (Some "maybe")
  /\ evaluators (snd r) <> evaluators two_votes_world
  /\ fst (submit_vote sample_env "E1" "U9" "true" (snd r))
     = failure AlreadyVoted.
Proof.
  cbv zeta. repeat split; try reflexivity; vm_compute; discriminate.
Qed.

(** ** Concurrent joins *)

(** Run alone, the two phases are [toggle_juror]. *)
Lemma toggle_juror_phases env id u w :
  toggle_juror env id u w
  = match toggle_juror_read env id u w with
    | (Returned r, w') => (r, w')
    | (Counted u' ev hub c, w') => toggle_juror_write env id u' ev hub c w'
    | (Arrived _, w') => (failure ToggleError, w')
    end.
Proof.
  unfold toggle_juror, toggle_juror_read, toggle_juror_write.
  destruct (evaluation_get w id) as [ev|]; [|reflexivity].
  destruct (hub_get w _) as [hub|]; [|reflexivity].
  destruct (team_or_admin env w hub u); [reflexivity|].
  destruct (get_by_evaluation_and_user w id u); reflexivity.
Qed.

Lemma interleave_one_call env id u w :
  interleave id [0; 0] [(env, Arrived u)] w
  = ([(env, Returned (fst (toggle_juror env id u w)))],
     snd (toggle_juror env id u w)).
Proof.
  rewrite toggle_juror_phases. cbn [interleave nth_error step_join].
  unfold toggle_juror_read.
  destruct (evaluation_get w id) as [ev|]; [|reflexivity].
  destruct (hub_get w _) as [hub|]; [|reflexivity].
  destruct (team_or_admin env w hub u); [reflexivity|].
  destruct (get_by_evaluation_and_user w id u); [reflexivity|].
  cbn.
  now destruct (toggle_juror_write env id u ev hub (count_evaluators w id) w).
Qed.

(** C9, at two racing joins. The capacity check and the insertion of
    [toggle_juror] are two repository calls, and the fill decision comes
    from the count read before the insertion. When two users race for the
    third slot and both read the count before either inserts, both insert:
    the pool ends with four jurors, both calls return [is_full = true] and
    the batch invite is made twice. Served one after the other, the same
    two calls fill the pool once and turn the second user away. *)
Theorem racing_joins_both_fill_the_pool :
  let calls := [(sample_env, Arrived "U5"); (second_env, Arrived "U6")] in
  let raced := interleave "E1" [0; 1; 0; 1] calls two_jurors_world in
  let serial := interleave "E1" [0; 0; 1; 1] calls two_jurors_world in
  count_evaluators two_jurors_world "E1" = 2
  /\ map (option_map is_full) (results (fst raced))
     = [Some (Some true); Some (Some true)]
  /\ count_evaluators (snd raced) "E1" = 4
  /\ length (filter is_invite (effects (snd raced))) = 2
  /\ map (option_map is_full) (results (fst serial))
     = [Some (Some true); Some None]
  /\ map (option_map message) (results (fst serial))
     = [Some (Joined 3); Some PoolFull]
  /\ count_evaluators (snd serial) "E1" = 3
  /\ length (filter is_invite (effects (snd serial))) = 1.
Proof. cbv zeta. repeat split; vm_compute; reflexivity. Qed.

(** C7, at three racing joins. [toggle_juror] inserts whenever the count
    it read is below three, but the count is read by one repository call
    and the row inserted by another. When three users race for the third
    slot of a pool of two and all read the count before any inserts, each
    reads 2 and each inserts: every call reports success and the pool
    ends with five jurors. *)
Theorem racing_joins_exceed_capacity :
  let calls := [(sample_env, Arrived "U4"); (second_env, Arrived "U5");
                (third_env, Arrived "U6")] in
  let counted := interleave "E1" [0; 1; 2] calls two_jurors_world in
  let raced := interleave "E1" [0; 1; 2; 0; 1; 2] calls two_jurors_world in
  count_evaluators two_jurors_world "E1" = 2
  /\ map (fun c => match snd c with
                   | Counted _ _ _ current_count => Some current_count
                   | _ => None
                   end) (fst counted)
     = [Some 2; Some 2; Some 2]
  /\ snd counted = two_jurors_world
  /\ map (option_map success) (results (fst raced))
     = [Some true; Some true; Some true]
  /\ map (option_map message) (results (fst raced))
     = [Some (Joined 3); Some (Joined 3); Some (Joined 3)]
  /\ map Evaluator.user_id (list_by_evaluation (snd raced) "E1")
     = ["U7"; "U8"; "U4"; "U5"; "U6"]
  /\ count_evaluators (snd raced) "E1" = 5
  /\ ~ count_evaluators (snd raced) "E1" <= 3.
Proof.
  cbv zeta. repeat split; try (vm_compute; reflexivity).
  vm_compute. intros H.
  repeat (inversion H as [|? H']; clear H; rename H' into H).
Qed.

(** ** Concurrent finalizations *)

(** Run alone, the two phases are [finalize_evaluation]. *)
Lemma finalize_evaluation_phases env id admin w :
  finalize_evaluation env id admin w
  = match finalize_read id w with
    | Some ev => finalize_write env id admin ev w
    | None => w
    end.
Proof.
  unfold finalize_evaluation, finalize_read, finalize_write.
  destruct (evaluation_get w id) as [ev|]; [|reflexivity].
  now destruct (negb (Evaluation.status ev =? "evaluating")).
Qed.

Lemma interleave_one_finalization env id admin w :
  interleave_finalize id [0; 0] [(env, Called admin)] w
  = ([(env, Finished)], finalize_evaluation env id admin w).
Proof.
  rewrite finalize_evaluation_phases.
  cbn [interleave_finalize nth_error step_finalize].
  now destruct (finalize_read id w).
Qed.

(** C3, at two racing finalizations. The guard of [finalize_evaluation]
    and the update that completes the evaluation are two repository
    calls. When the deadline job and the administrator's rejection both
    pass the guard before either writes, both complete the evaluation:
    the result 'success' that the first records and reports is
    overwritten by 'failed', which is reported too, and the evaluation
    channel is archived twice. Served one after the other, the same two
    calls record 'success' and archive once. *)
Theorem racing_finalizations_both_complete :
  let calls := [(sample_env, Called None);
                (later_env, Called (Some "rejected"))] in
  let first := interleave_finalize "E1" [0; 1; 0] calls sample_world in
  let raced := interleave_finalize "E1" [0; 1; 0; 1] calls sample_world in
  let serial := interleave_finalize "E1" [0; 0; 1; 1] calls sample_world in
  option_map Evaluation.status (evaluation_get sample_world "E1")
  = Some "evaluating"
  /\ map snd (fst (interleave_finalize "E1" [0; 1] calls sample_world))
     = [Guarded None sample_evaluation;
        Guarded (Some "rejected") sample_evaluation]
  /\ option_map Evaluation.final_result (evaluation_get (snd first) "E1")
     = Some (Some "success")
  /\ option_map Evaluation.status (evaluation_get (snd first) "E1")
     = Some "completed"
  /\ map snd (fst raced) = [Finished; Finished]
  /\ option_map Evaluation.final_result (evaluation_get (snd raced) "E1")
     = Some (Some "failed")
  /\ option_map Evaluation.completed_at (evaluation_get (snd raced) "E1")
     = Some (Some "2025-01-10T12:00:02")
  /\ snd raced <> snd first
  /\ effects (snd raced)
     = [PostMessage "CHUB" (MResult Succeeded 2 1 true);
        PostMessage "CTEAM" (MResult Succeeded 2 1 true);
        ArchiveChannel "CEVAL";
        PostMessage "CHUB" (MResult (Failed [RejectedByAdmin]) 2 1 true);
        PostMessage "CTEAM" (MResult (Failed [RejectedByAdmin]) 2 1 true);
        ArchiveChannel "CEVAL"]
  /\ archives (effects (snd raced)) = 2
  /\ snd serial
     = finalize_evaluation later_env "E1" (Some "rejected")
         (finalize_evaluation sample_env "E1" None sample_world)
  /\ option_map Evaluation.final_result (evaluation_get (snd serial) "E1")
     = Some (Some "success")
  /\ archives (effects (snd serial)) = 1.
Proof.
  cbv zeta. repeat split; try (vm_compute; reflexivity).
  vm_compute. discriminate.
Qed.

(** ** The decision rule on the documented scenarios *)

Example decide_majority_and_public_repo :
  decide_result None 2 1 true (Some "https://github.com/team/project")
  = ("success", Succeeded).
Proof. reflexivity. Qed.

Example decide_minority_and_missing_repo :
  decide_result None 1 2 false None
  = ("failed", Failed [VotesNotMajority 1 2; RepoLinkMissing]).
Proof. reflexivity. Qed.

Example decide_minority_and_private_repo :
  decide_result (Some "approved") 1 1 false
                (Some "https://github.com/team/project")
  = ("failed", Failed [VotesNotMajority 1 1; RepoNotPublic]).
Proof. reflexivity. Qed.

Example decide_missing_repo_only :
  decide_result None 3 0 false None = ("failed", Failed [RepoLinkMissing]).
Proof. reflexivity. Qed.

Example decide_rejected_despite_votes :
  decide_result (Some "rejected") 3 0 true
                (Some "https://github.com/team/project")
  = ("failed", Failed [RejectedByAdmin]).
Proof. reflexivity. Qed.

(** ** Juror slots stay unique

    The invariant assumed of the evaluator table when a vote is cast is
    kept by every request, so it holds in every world the service reaches
    from one where it holds. *)

Lemma NoDup_map_filter {A B} (k : A -> B) (p : A -> bool) (l : list A) :
  NoDup (map k l) -> NoDup (map k (filter p l)).
Proof.
  induction l as [|x l IH]; intros Hnd; simpl; [constructor|].
  simpl in Hnd. inversion Hnd as [|? ? Hnotin Hnd']; subst.
  destruct (p x); simpl; [|now apply IH].
  constructor; [|now apply IH].
  intros Hin. apply Hnotin. apply in_map_iff in Hin.
  destruct Hin as (y & Hk & Hy). apply filter_In in Hy.
  rewrite <- Hk. apply in_map. tauto.
Qed.

Lemma NoDup_snoc {A} (l : list A) (a : A) :
  NoDup l -> ~ In a l -> NoDup (l ++ [a]).
Proof.
  induction l as [|x l IH]; intros Hnd Hnotin; simpl.
  - constructor; [intros []|constructor].
  - inversion Hnd as [|? ? Hx Hnd']; subst. constructor.
    + intros Hin. apply in_app_or in Hin. destruct Hin as [Hin|[->|[]]].
      * now apply Hx.
      * apply Hnotin. now left.
    + apply IH; [exact Hnd'|]. intros Hin. apply Hnotin. now right.
Qed.

Lemma no_slot_not_in w id u :
  get_by_evaluation_and_user w id u = None ->
  ~ In (id, u) (map slot (evaluators w)).
Proof.
  unfold get_by_evaluation_and_user. intros Hnone Hin.
  apply in_map_iff in Hin. destruct Hin as (j & Hs & Hj).
  pose proof (find_none _ _ Hnone j Hj) as Hp. cbv beta in Hp.
  unfold slot in Hs. injection Hs as He Hu.
  now rewrite He, Hu, !String.eqb_refl in Hp.
Qed.

Lemma toggle_juror_unique_slots env id u w :
  unique_slots w -> unique_slots (snd (toggle_juror env id u w)).
Proof.
  unfold unique_slots. intros Hnd.
  destruct (toggle_juror_evaluators env id u w)
    as [->|[(j & _ & ->)|(_ & Hnone & ->)]].
  - exact Hnd.
  - now apply NoDup_map_filter.
  - rewrite map_app. apply NoDup_snoc; [exact Hnd|].
    now apply no_slot_not_in.
Qed.

Lemma handle_unique_slots env r w :
  unique_slots w -> unique_slots (handle env r w).
Proof.
  intros Hnd.
  destruct r as [h c|id u|id u v|id a d|id|id a res]; cbn [handle].
  - unfold unique_slots. now rewrite start_evaluation_evaluators.
  - now apply toggle_juror_unique_slots.
  - unfold unique_slots.
    destruct (submit_vote_evaluators env id u v w)
      as [(_ & ->)|(j & _ & _ & ->)]; [exact Hnd|].
    unfold repo_update. rewrite map_map.
    replace (map (fun x => slot (if Evaluator.id x =? Evaluator.id j
                                  then set_vote (lower env v) (clock env 0) x
                                  else x)) (evaluators w))
      with (map slot (evaluators w)); [exact Hnd|].
    apply map_ext. intros x.
    now destruct (Evaluator.id x =? Evaluator.id j).
  - unfold unique_slots. now rewrite admin_finalize_evaluators.
  - unfold unique_slots. now rewrite finalize_evaluators.
  - unfold unique_slots. now rewrite force_complete_evaluators.
Qed.

Lemma run_unique_slots calls w :
  unique_slots w -> unique_slots (run calls w).
Proof.
  revert w. induction calls as [|[env r] calls IH]; intros w Hw.
  - exact Hw.
  - simpl. apply IH. now apply handle_unique_slots.
Qed.

(** * The repository link *)

(** ** The matcher decides the language of an expression *)

Lemma cat_inv r s z :
  matches (Cat r s) z ->
  exists x y, z = x ++ y /\ matches r x /\ matches s y.
Proof. intros H. inversion H; subst. now exists x, y. Qed.

Lemma alt_inv r s z : matches (Alt r s) z -> matches r z \/ matches s z.
Proof. intros H. inversion H; subst; tauto. Qed.

Lemma eps_inv z : matches Eps z -> z = "".
Proof. intros H. now inversion H. Qed.

Lemma lit_inv c z : matches (Lit c) z -> z = String c "".
Proof. intros H. now inversion H. Qed.

Lemma notlit_inv c z :
  matches (NotLit c) z -> exists a, a <> c /\ z = String a "".
Proof. intros H. inversion H; subst. now exists a. Qed.

Lemma nullable_spec r : nullable r = true <-> matches r "".
Proof.
  induction r; simpl.
  - split; [discriminate|intros H; inversion H].
  - split; [constructor|reflexivity].
  - split; [discriminate|intros H; inversion H].
  - split; [discriminate|intros H; inversion H].
  - rewrite andb_true_iff, IHr1, IHr2. split.
    + intros (H1 & H2). change "" with ("" ++ ""). now constructor.
    + intros H. apply cat_inv in H. destruct H as (x & y & Hxy & H1 & H2).
      destruct x; [|discriminate]. simpl in Hxy. subst y. now split.
  - rewrite orb_true_iff, IHr1, IHr2. split.
    + intros [H|H]; [now apply MAltL|now apply MAltR].
    + apply alt_inv.
  - split; [constructor|reflexivity].
Qed.

Lemma star_cons_inv r a s :
  matches (Star r) (String a s) ->
  exists x y, s = x ++ y /\ matches r (String a x) /\ matches (Star r) y.
Proof.
  intros H. remember (Star r) as r' eqn:Hr. remember (String a s) as t eqn:Ht.
  revert a s Ht. induction H; intros a0 s0 Ht; try discriminate.
  injection Hr as ->.
  destruct x as [|b x].
  - simpl in Ht. now apply IHmatches2.
  - simpl in Ht. injection Ht as -> <-. now exists x, y.
Qed.

Lemma deriv_spec a r s : matches (deriv a r) s <-> matches r (String a s).
Proof.
  revert s. induction r; intros s; simpl.
  - split; intros H; inversion H.
  - split; intros H; inversion H.
  - destruct (Ascii.eqb_spec a c) as [->|Hne]; split; intros H.
    + apply eps_inv in H. subst. constructor.
    + apply lit_inv in H. injection H as ->. constructor.
    + inversion H.
    + apply lit_inv in H. congruence.
  - destruct (Ascii.eqb_spec a c) as [->|Hne]; split; intros H.
    + inversion H.
    + apply notlit_inv in H. destruct H as (b & Hb & Heq). congruence.
    + apply eps_inv in H. subst. now constructor.
    + apply notlit_inv in H. destruct H as (b & Hb & Heq).
      injection Heq as -> ->. constructor.
  - assert (Hc : matches (Cat (deriv a r1) r2) s ->
                 matches (Cat r1 r2) (String a s)).
    { intros H. apply cat_inv in H. destruct H as (x & y & -> & H1 & H2).
      change (String a (x ++ y)) with (String a x ++ y).
      constructor; [now apply IHr1|assumption]. }
    assert (Hd : matches (Cat r1 r2) (String a s) ->
                 matches (Cat (deriv a r1) r2) s
                 \/ (matches r1 "" /\ matches r2 (String a s))).
    { intros H. apply cat_inv in H. destruct H as (x & y & Hxy & H1 & H2).
      destruct x as [|b x]; simpl in Hxy.
      - subst y. now right.
      - injection Hxy as -> ->. left.
        constructor; [now apply IHr1|assumption]. }
    destruct (nullable r1) eqn:Hn; split; intros H.
    + apply alt_inv in H. destruct H as [H|H]; [now apply Hc|].
      change (String a s) with ("" ++ String a s).
      constructor; [now apply nullable_spec|now apply IHr2].
    + apply Hd in H. destruct H as [H|(_ & H)];
        [now apply MAltL|apply MAltR; now apply IHr2].
    + now apply Hc.
    + apply Hd in H. destruct H as [H|(H & _)]; [assumption|].
      apply nullable_spec in H. congruence.
  - split; intros H; apply alt_inv in H; destruct H as [H|H];
      [apply MAltL; now apply IHr1|apply MAltR; now apply IHr2
      |apply MAltL; now apply IHr1|apply MAltR; now apply IHr2].
  - split; intros H.
    + apply cat_inv in H. destruct H as (x & y & -> & H1 & H2).
      change (String a (x ++ y)) with (String a x ++ y).
      constructor; [now apply IHr|assumption].
    + apply star_cons_inv in H. destruct H as (x & y & -> & H1 & H2).
      constructor; [now apply IHr|assumption].
Qed.

Lemma accepts_spec r s : accepts r s = true <-> matches r s.
Proof.
  revert r. induction s as [|a s IH]; intros r; simpl.
  - apply nullable_spec.
  - rewrite IH. apply deriv_spec.
Qed.

(** ** The shape of a valid repository link *)

Lemma append_assoc (x y z : string) : (x ++ y) ++ z = x ++ y ++ z.
Proof. induction x as [|a x IH]; simpl; [reflexivity|now rewrite IH]. Qed.

Lemma append_nil_r (x : string) : x ++ "" = x.
Proof. induction x as [|a x IH]; simpl; [reflexivity|now rewrite IH]. Qed.

Lemma literal_spec p x : matches (literal p) x <-> x = p.
Proof.
  revert x. induction p as [|c p IH]; intros x; simpl.
  - split; [apply eps_inv|intros ->; constructor].
  - split.
    + intros H. apply cat_inv in H. destruct H as (y & z & -> & H1 & H2).
      apply lit_inv in H1. apply IH in H2. now subst.
    + intros ->. change (String c p) with (String c "" ++ p).
      constructor; [constructor|now apply IH].
Qed.

Lemma opt_lit_spec c x :
  matches (opt (Lit c)) x <-> x = "" \/ x = String c "".
Proof.
  unfold opt. split.
  - intros H. apply alt_inv in H. destruct H as [H|H].
    + right. now apply lit_inv.
    + left. now apply eps_inv.
  - intros [-> | ->]; [apply MAltR|apply MAltL]; constructor.
Qed.

Lemma star_not_slash_spec x :
  matches (Star (NotLit "/")) x <-> no_slash x = true.
Proof.
  split.
  - intros H. remember (Star (NotLit "/")) as r eqn:Hr.
    induction H; try discriminate; [reflexivity|].
    injection Hr as ->. apply notlit_inv in H.
    destruct H as (a & Ha & ->). simpl.
    apply Ascii.eqb_neq in Ha. rewrite Ha. simpl. now apply IHmatches2.
  - induction x as [|a x IH]; simpl; intros H; [constructor|].
    apply andb_true_iff in H. destruct H as (Ha & Hx).
    change (String a x) with (String a "" ++ x).
    constructor; [|now apply IH].
    constructor. apply Ascii.eqb_neq. now destruct (Ascii.eqb a "/").
Qed.

Lemma no_slash_app x y :
  no_slash (x ++ y) = no_slash x && no_slash y.
Proof.
  induction x as [|a x IH]; simpl; [reflexivity|].
  now rewrite IH, andb_assoc.
Qed.

Lemma segment_spec x : matches (plus (NotLit "/")) x <-> segment x.
Proof.
  unfold plus, segment. split.
  - intros H. apply cat_inv in H. destruct H as (y & z & -> & H1 & H2).
    apply notlit_inv in H1. destruct H1 as (a & Ha & ->).
    apply star_not_slash_spec in H2. simpl. split; [discriminate|].
    apply Ascii.eqb_neq in Ha. now rewrite Ha.
  - intros (Hne & Hns). destruct x as [|a x]; [congruence|].
    simpl in Hns. apply andb_true_iff in Hns. destruct Hns as (Ha & Hx).
    change (String a x) with (String a "" ++ x).
    constructor; [|now apply star_not_slash_spec].
    constructor. apply Ascii.eqb_neq. now destruct (Ascii.eqb a "/").
Qed.

Lemma valid_github_url_parts url :
  _is_valid_github_url url = true ->
  exists scheme owner repo closing final,
    url = scheme ++ "://github.com/" ++ owner ++ "/" ++ repo
                 ++ closing ++ final
    /\ (scheme = "http" \/ scheme = "https")
    /\ segment owner /\ segment repo
    /\ (closing = "" \/ closing = "/")
    /\ (final = "" \/ final = newline).
Proof.
  unfold _is_valid_github_url. rewrite accepts_spec.
  unfold github_url_pattern. intros H.
  apply cat_inv in H. destruct H as (x1 & y1 & -> & H1 & H).
  apply cat_inv in H. destruct H as (x2 & y2 & -> & H2 & H).
  apply cat_inv in H. destruct H as (x3 & y3 & -> & H3 & H).
  apply cat_inv in H. destruct H as (x4 & y4 & -> & H4 & H).
  apply cat_inv in H. destruct H as (x5 & y5 & -> & H5 & H).
  apply cat_inv in H. destruct H as (x6 & y6 & -> & H6 & H).
  apply cat_inv in H. destruct H as (x7 & x8 & -> & H7 & H8).
  apply literal_spec in H1, H3. apply lit_inv in H5.
  apply opt_lit_spec in H2, H7, H8.
  apply segment_spec in H4, H6. subst x1 x3 x5.
  exists ("http" ++ x2), x4, x6, x7, x8.
  split; [now rewrite append_assoc|].
  split; [destruct H2 as [-> | ->]; [now left|now right]|].
  split; [exact H4|]. split; [exact H6|]. split; [exact H7|exact H8].
Qed.

(** X1. [_is_valid_github_url] accepts exactly the links made of the
    scheme http or https, the host github.com, an owner and a repository
    (two non-empty segments without a slash), at most one closing slash
    and at most one final newline: nothing before the scheme, no other
    host, no further path. *)
Theorem valid_github_url_shape url :
  _is_valid_github_url url = true
  <-> exists scheme owner repo closing final,
        url = scheme ++ "://github.com/" ++ owner ++ "/" ++ repo
                     ++ closing ++ final
        /\ (scheme = "http" \/ scheme = "https")
        /\ segment owner /\ segment repo
        /\ (closing = "" \/ closing = "/")
        /\ (final = "" \/ final = newline).
Proof.
  split; [apply valid_github_url_parts|].
  unfold _is_valid_github_url. rewrite accepts_spec.
  unfold github_url_pattern.
  intros (scheme & owner & repo & closing & final & -> & Hs & Ho & Hr
          & Hc & Hf).
  assert (Hscheme : exists s, scheme = "http" ++ s
                              /\ matches (opt (Lit "s")) s).
  { destruct Hs as [-> | ->].
    - exists "". split; [reflexivity|]. apply opt_lit_spec. now left.
    - exists "s". split; [reflexivity|]. apply opt_lit_spec. now right. }
  destruct Hscheme as (s & -> & Hopt).
  rewrite append_assoc.
  constructor; [now apply literal_spec|].
  constructor; [exact Hopt|].
  change ("://github.com/" ++ owner ++ "/" ++ repo ++ closing ++ final)
    with ("://github.com/" ++ (owner ++ "/" ++ repo ++ closing ++ final)).
  constructor; [now apply literal_spec|].
  constructor; [now apply segment_spec|].
  change ("/" ++ repo ++ closing ++ final)
    with ("/" ++ (repo ++ closing ++ final)).
  constructor; [constructor|].
  constructor; [now apply segment_spec|].
  constructor; apply opt_lit_spec; [exact Hc|exact Hf].
Qed.

Example valid_github_urls :
  map _is_valid_github_url
      ["https://github.com/team/project"; "http://github.com/team/project/";
       "https://github.com/team/project/tree/main"; "https://github.com/team";
       "https://gitlab.com/team/project"; "github.com/team/project"]
  = [true; true; false; false; false; false].
Proof. reflexivity. Qed.

(** ** From the link to the API *)

Lemma strip_prefix_app p s : strip_prefix p (p ++ s) = Some s.
Proof.
  induction p as [|a p IH]; simpl; [now destruct s|].
  now rewrite Ascii.eqb_refl.
Qed.

Lemma span_not_slash_end x :
  no_slash x = true -> span_not_slash x = (x, "").
Proof.
  induction x as [|a x IH]; simpl; intros H; [reflexivity|].
  apply andb_true_iff in H. destruct H as (Ha & Hx).
  destruct (Ascii.eqb a "/"); [discriminate|]. now rewrite IH.
Qed.

Lemma span_not_slash_slash x rest :
  no_slash x = true ->
  span_not_slash (x ++ String "/" rest) = (x, String "/" rest).
Proof.
  induction x as [|a x IH]; simpl; intros H; [reflexivity|].
  apply andb_true_iff in H. destruct H as (Ha & Hx).
  destruct (Ascii.eqb a "/"); [discriminate|]. now rewrite IH.
Qed.

Lemma segment_not_empty x y : segment x -> (x ++ y =? "") = false.
Proof.
  intros (Hne & _). destruct x; [congruence|reflexivity].
Qed.

Lemma segment_eqb_empty x : segment x -> (x =? "") = false.
Proof.
  intros (Hne & _). destruct x; [congruence|reflexivity].
Qed.

(** The groups found in a valid link. *)
Lemma valid_github_url_groups url :
  _is_valid_github_url url = true ->
  exists owner repo,
    github_owner_repo url = Some (owner, repo)
    /\ segment owner /\ segment repo.
Proof.
  intros H. apply valid_github_url_parts in H.
  destruct H as (scheme & owner & repo & closing & final & -> & Hs & Ho & Hr
                 & Hc & Hf).
  assert (Hrest : forall rest,
             rest = "://github.com/" ++ owner ++ "/" ++ repo
                    ++ closing ++ final ->
             exists repo',
               match strip_prefix "://github.com/" rest with
               | None => None
               | Some rest =>
                 let (user, rest) := span_not_slash rest in
                 if user =? "" then None
                 else
                   match strip_prefix "/" rest with
                   | None => None
                   | Some rest =>
                     let (repo, _) := span_not_slash rest in
                     if repo =? "" then None else Some (user, repo)
                   end
               end = Some (owner, repo')
               /\ segment repo').
  { intros rest ->. rewrite strip_prefix_app.
    change (owner ++ "/" ++ repo ++ closing ++ final)
      with (owner ++ String "/" (repo ++ closing ++ final)).
    rewrite span_not_slash_slash by apply Ho.
    rewrite (segment_eqb_empty owner Ho). cbn [strip_prefix].
    rewrite Ascii.eqb_refl.
    destruct Hc as [-> | ->].
    - exists (repo ++ final). cbn [append].
      assert (Hns : no_slash (repo ++ final) = true).
      { rewrite no_slash_app. destruct Hr as (_ & ->).
        destruct Hf as [-> | ->]; reflexivity. }
      rewrite (span_not_slash_end _ Hns).
      rewrite (segment_not_empty repo final Hr).
      split; [reflexivity|]. split; [|exact Hns].
      destruct Hr as (Hne & _). destruct repo; [congruence|discriminate].
    - exists repo.
      change (repo ++ "/" ++ final) with (repo ++ String "/" final).
      rewrite span_not_slash_slash by apply Hr.
      rewrite (segment_eqb_empty repo Hr). now split. }
  unfold github_owner_repo.
  destruct Hs as [-> | ->].
  - destruct (Hrest _ eq_refl) as (repo' & Heq & Hseg).
    exists owner, repo'. split; [exact Heq|now split].
  - destruct (Hrest _ eq_refl) as (repo' & Heq & Hseg).
    exists owner, repo'. split; [exact Heq|now split].
Qed.

(** X2. Every link that [_is_valid_github_url] accepts is also parsed by
    [check_github_repo_public], with an owner and a repository that are
    proper path segments; the check then answers true exactly when the
    GitHub API answers 200 with a falsy ["private"] entry (a missing
    entry, another status or an exception all give false). *)
Theorem valid_link_is_checked github url :
  _is_valid_github_url url = true ->
  exists owner repo,
    github_owner_repo url = Some (owner, repo)
    /\ segment owner /\ segment repo
    /\ (check_github_repo_public github url = true
        <-> github (api_url owner repo) = ApiStatus 200 (PrivateValue false)).
Proof.
  intros Hvalid.
  destruct (valid_github_url_groups url Hvalid)
    as (owner & repo & Hgroups & Ho & Hr).
  exists owner, repo. split; [exact Hgroups|]. split; [exact Ho|].
  split; [exact Hr|].
  unfold check_github_repo_public. rewrite Hgroups.
  destruct (github (api_url owner repo)) as [|code private].
  - split; discriminate.
  - destruct (Nat.eqb_spec code 200) as [->|Hcode].
    + destruct private as [|[|]]; simpl; split;
        try discriminate; reflexivity.
    + split.
      * now destruct (code =? 404)%nat.
      * intros H. injection H as H _. congruence.
Qed.

Lemma valid_link_is_checked_witness :
  _is_valid_github_url "https://github.com/team/project/" = true
  /\ exists owner repo,
       github_owner_repo "https://github.com/team/project/"
       = Some (owner, repo)
       /\ segment owner /\ segment repo
       /\ (check_github_repo_public
             (fun _ => ApiStatus 200 (PrivateValue false))
             "https://github.com/team/project/" = true
           <-> ApiStatus 200 (PrivateValue false)
               = ApiStatus 200 (PrivateValue false)).
Proof.
  split; [reflexivity|].
  exact (valid_link_is_checked (fun _ => ApiStatus 200 (PrivateValue false))
           "https://github.com/team/project/" eq_refl).
Defined.

Example check_github_repo_public_answers :
  let url := "https://github.com/team/project" in
  map (fun r => check_github_repo_public (fun _ => r) url)
      [ApiStatus 200 (PrivateValue false); ApiStatus 200 (PrivateValue true);
       ApiStatus 200 PrivateMissing; ApiStatus 404 PrivateMissing;
       ApiStatus 403 (PrivateValue false); ApiRaises]
  = [true; false; false; false; false; false].
Proof. reflexivity. Qed.

(** ** Submitting the link *)

Lemma set_github_id url p e :
  Evaluation.id (set_github url p e) = Evaluation.id e.
Proof. reflexivity. Qed.

(** An accepted [submit_github_link], step by step. *)
Lemma submit_github_link_accepted env github id url w ev :
  evaluation_get w id = Some ev ->
  _is_valid_github_url url = true ->
  let is_public := check_github_repo_public github url in
  let w1 := evaluation_update id
              (set_github url (if is_public then 1 else 0)%Z) w in
  let t := fst (get_votes w id) in
  let f := snd (get_votes w id) in
  let r := submit_github_link env github id url w in
  fst (fst r) = true
  /\ snd r = if is_public && (3 <=? t + f)%nat
             then post_if_set env (Evaluation.evaluation_channel_id ev)
                    (MAdminApprovalRequest t f (Some url)) w1
             else w1.
Proof.
  intros Hev Hvalid. cbv zeta. unfold submit_github_link.
  rewrite Hev, Hvalid. cbn [negb].
  destruct (check_github_repo_public github url); [|now split].
  change (get_votes (evaluation_update id (set_github url 1) w) id)
    with (get_votes w id).
  destruct (get_votes w id) as [t f]. cbn [fst snd andb].
  destruct (3 <=? t + f)%nat; now split.
Qed.

(** X3. [submit_github_link] fails in exactly two cases, an unknown
    evaluation or a link that is not of the valid shape, and then
    changes nothing; a repository that is private, missing or
    unreachable is still a success. *)
Theorem submit_github_link_rejects env github id url w :
  let r := submit_github_link env github id url w in
  (fst (fst r) = false
   <-> evaluation_get w id = None \/ _is_valid_github_url url = false)
  /\ (fst (fst r) = false -> snd r = w).
Proof.
  cbv zeta.
  destruct (evaluation_get w id) as [ev|] eqn:Hev.
  - destruct (_is_valid_github_url url) eqn:Hvalid.
    + destruct (submit_github_link_accepted env github id url w ev Hev Hvalid)
        as (Hok & _).
      rewrite Hok. split; [|discriminate].
      split; [discriminate|]. intros [H|H]; discriminate.
    + unfold submit_github_link. rewrite Hev, Hvalid. cbn.
      split; [|reflexivity]. split; [now right|reflexivity].
  - unfold submit_github_link. rewrite Hev. cbn.
    split; [|reflexivity]. split; [now left|reflexivity].
Qed.

Lemma submit_github_link_rejects_witness :
  fst (fst (submit_github_link sample_env (fun _ => ApiRaises) "E1"
              "https://github.com/team/project/issues" sample_world))
  = false
  /\ snd (submit_github_link sample_env (fun _ => ApiRaises) "E1"
            "https://github.com/team/project/issues" sample_world)
     = sample_world.
Proof.
  split; [reflexivity|].
  exact (proj2 (submit_github_link_rejects sample_env (fun _ => ApiRaises)
                  "E1" "https://github.com/team/project/issues"
                  sample_world) eq_refl).
Defined.

(** X4. An accepted [submit_github_link] writes the link and its
    verified-public flag (1 or 0, as the check answered) on the
    evaluation and nothing else in the record store: the evaluation
    keeps its status, tallies, admin decision and result, whatever its
    status is, and the other evaluations, the hubs, the participants and
    the jurors are as they were; no channel is archived. *)
Theorem submit_github_link_writes_link env github id url w ev :
  evaluation_get w id = Some ev ->
  _is_valid_github_url url = true ->
  let w' := snd (submit_github_link env github id url w) in
  let flag := if check_github_repo_public github url then 1%Z else 0%Z in
  evaluation_get w' id = Some (set_github url flag ev)
  /\ (forall i, i <> id -> evaluation_get w' i = evaluation_get w i)
  /\ hubs w' = hubs w
  /\ participants w' = participants w
  /\ evaluators w' = evaluators w
  /\ archives (effects w') = archives (effects w).
Proof.
  intros Hev Hvalid. cbv zeta.
  destruct (submit_github_link_accepted env github id url w ev Hev Hvalid)
    as (_ & Hw').
  cbv zeta in Hw'.
  set (flag := (if check_github_repo_public github url then 1 else 0)%Z)
    in *.
  set (w1 := evaluation_update id (set_github url flag) w) in *.
  assert (Hs : same_store w1 (snd (submit_github_link env github id url w))
               /\ archives (effects (snd (submit_github_link env github id
                                                             url w)))
                  = archives (effects w)).
  { rewrite Hw'. destruct (_ && _).
    - split; [apply same_store_post_if_set|].
      now rewrite archives_post_if_set.
    - split; [apply same_store_refl|reflexivity]. }
  destruct Hs as ((Hh & Hp & He & Hj) & Ha).
  assert (Hget : forall i,
             evaluation_get (snd (submit_github_link env github id url w)) i
             = if i =? id
               then option_map (set_github url flag) (evaluation_get w i)
               else evaluation_get w i).
  { intros i. unfold evaluation_get. rewrite He.
    unfold w1, evaluation_update. cbn [evaluations].
    now rewrite repo_get_update by apply set_github_id. }
  split; [rewrite Hget, String.eqb_refl, Hev; reflexivity|].
  split.
  { intros i Hi. rewrite Hget. apply String.eqb_neq in Hi. now rewrite Hi. }
  now repeat split.
Qed.

Lemma submit_github_link_writes_link_witness :
  evaluation_get completed_world "E1"
  = Some (set_completed "success" "2025-01-11T09:00:00" sample_evaluation)
  /\ _is_valid_github_url "http://github.com/other/fork" = true
  /\ evaluation_get
       (snd (submit_github_link sample_env
               (fun _ => ApiStatus 404 PrivateMissing) "E1"
               "http://github.com/other/fork" completed_world)) "E1"
     = Some (set_github "http://github.com/other/fork" 0
               (set_completed "success" "2025-01-11T09:00:00"
                              sample_evaluation)).
Proof.
  split; [reflexivity|]. split; [reflexivity|].
  exact (proj1 (submit_github_link_writes_link sample_env
                  (fun _ => ApiStatus 404 PrivateMissing) "E1"
                  "http://github.com/other/fork" completed_world _
                  eq_refl eq_refl)).
Defined.

(** X5. An accepted [submit_github_link] looks the repository up at the
    GitHub API, at the address made of the owner and the name found in
    the link, and the answer at that address is all it takes from GitHub.
    Of the calls to Slack, which are what the log of effects records, it
    makes at most one: the request for the administrator's approval,
    posted to the evaluation channel, exactly when the repository was
    verified public, at least three votes are cast and the evaluation has
    a channel; otherwise the log is as it was. *)
Theorem submit_github_link_asks_admin env github id url w ev :
  evaluation_get w id = Some ev ->
  _is_valid_github_url url = true ->
  let w' := snd (submit_github_link env github id url w) in
  let t := fst (get_votes w id) in
  let f := snd (get_votes w id) in
  let ready := check_github_repo_public github url && (3 <=? t + f)%nat
               && truthy (Evaluation.evaluation_channel_id ev) in
  (exists owner repo,
     github_owner_repo url = Some (owner, repo)
     /\ forall github',
          github' (api_url owner repo) = github (api_url owner repo) ->
          submit_github_link env github' id url w
          = submit_github_link env github id url w)
  /\ (ready = true ->
      exists c, Evaluation.evaluation_channel_id ev = Some c
                /\ effects w'
                   = (effects w
                      ++ [PostMessage c
                            (MAdminApprovalRequest t f (Some url))])%list)
  /\ (ready = false -> effects w' = effects w).
Proof.
  intros Hev Hvalid. cbv zeta. split.
  { destruct (valid_github_url_groups url Hvalid)
      as (owner & repo & Hgroups & _).
    exists owner, repo. split; [exact Hgroups|].
    intros github' Hsame. unfold submit_github_link.
    replace (check_github_repo_public github' url)
      with (check_github_repo_public github url); [reflexivity|].
    unfold check_github_repo_public. now rewrite Hgroups, Hsame. }
  destruct (submit_github_link_accepted env github id url w ev Hev Hvalid)
    as (_ & ->).
  cbv zeta.
  destruct (check_github_repo_public github url && (3 <=? _)%nat);
    cbn [andb].
  - unfold post_if_set.
    destruct (Evaluation.evaluation_channel_id ev) as [c|].
    + destruct (truthy (Some c)); split; try discriminate.
      * intros _. now exists c.
      * reflexivity.
    + split; [discriminate|reflexivity].
  - split; [discriminate|reflexivity].
Qed.

Lemma submit_github_link_asks_admin_witness :
  evaluation_get sample_world "E1" = Some sample_evaluation
  /\ _is_valid_github_url "https://github.com/team/project" = true
  /\ exists c,
       Evaluation.evaluation_channel_id sample_evaluation = Some c
       /\ effects
            (snd (submit_github_link sample_env
                    (fun _ => ApiStatus 200 (PrivateValue false)) "E1"
                    "https://github.com/team/project" sample_world))
          = (effects sample_world
             ++ [PostMessage c
                   (MAdminApprovalRequest 2 1
                      (Some "https://github.com/team/project"))])%list.
Proof.
  split; [reflexivity|]. split; [reflexivity|].
  exact (proj1 (proj2 (submit_github_link_asks_admin sample_env
                         (fun _ => ApiStatus 200 (PrivateValue false)) "E1"
                         "https://github.com/team/project" sample_world
                         sample_evaluation eq_refl eq_refl)) eq_refl).
Defined.

(** ** Link, votes and decision together *)

Lemma decide_result_fst admin t f pub url :
  fst (decide_result admin t f pub url)
  = if eq_opt "rejected" admin then "failed"
    else if (f <? t)%nat && pub && truthy url then "success"
    else "failed".
Proof.
  unfold decide_result.
  destruct (eq_opt "rejected" admin); [reflexivity|].
  now destruct ((f <? t)%nat && pub && truthy url).
Qed.

Lemma valid_github_url_truthy url :
  _is_valid_github_url url = true -> truthy (Some url) = true.
Proof. destruct url; [discriminate|reflexivity]. Qed.

Lemma submit_github_link_row env github id url w ev :
  evaluation_get w id = Some ev ->
  _is_valid_github_url url = true ->
  let w' := snd (submit_github_link env github id url w) in
  evaluation_get w' id
  = Some (set_github url
            (if check_github_repo_public github url then 1 else 0)%Z ev)
  /\ evaluators w' = evaluators w.
Proof.
  intros Hev Hvalid. cbv zeta.
  destruct (submit_github_link_accepted env github id url w ev Hev Hvalid)
    as (_ & ->).
  cbv zeta.
  set (w1 := evaluation_update id _ w).
  assert (H1 : evaluation_get w1 id
               = Some (set_github url
                         (if check_github_repo_public github url
                          then 1 else 0)%Z ev)).
  { unfold evaluation_get, w1, evaluation_update. cbn [evaluations].
    rewrite repo_get_update by apply set_github_id.
    rewrite String.eqb_refl. fold (evaluation_get w id). now rewrite Hev. }
  destruct (_ && _); [|now split].
  destruct (same_store_post_if_set env (Evaluation.evaluation_channel_id ev)
              (MAdminApprovalRequest (fst (get_votes w id))
                                     (snd (get_votes w id)) (Some url)) w1)
    as (_ & _ & He & Hj).
  split; [|exact Hj].
  unfold evaluation_get. rewrite He. exact H1.
Qed.

(** X6. Link and votes decide together: once a valid link is submitted
    for an evaluation that is being evaluated, a finalization that the
    administrator does not reject records 'success' exactly when the
    true votes exceed the false votes and the check found the repository
    public, and 'failed' otherwise. *)
Theorem link_then_finalize env env' github id url admin w ev :
  evaluation_get w id = Some ev ->
  Evaluation.status ev = "evaluating" ->
  _is_valid_github_url url = true ->
  admin <> Some "rejected" ->
  let w1 := snd (submit_github_link env github id url w) in
  let w2 := finalize_evaluation env' id admin w1 in
  let t := fst (get_votes w id) in
  let f := snd (get_votes w id) in
  option_map Evaluation.final_result (evaluation_get w2 id)
  = Some (Some (if (f <? t)%nat && check_github_repo_public github url
                then "success" else "failed")).
Proof.
  intros Hev Hst Hvalid Hadmin. cbv zeta.
  destruct (submit_github_link_row env github id url w ev Hev Hvalid)
    as (Hrow & Hjurors).
  set (w1 := snd (submit_github_link env github id url w)) in *.
  set (ev1 := set_github url _ ev) in Hrow.
  destruct (finalize_evaluating env' id admin w1 ev1 Hrow Hst)
    as (Hevs & _).
  unfold evaluation_get. rewrite Hevs.
  rewrite repo_get_update by apply set_completed_id.
  rewrite String.eqb_refl. fold (evaluation_get w1 id). rewrite Hrow.
  cbn [option_map set_completed Evaluation.final_result].
  rewrite decide_result_fst.
  apply eq_opt_false in Hadmin. rewrite Hadmin.
  assert (Hvotes : get_votes w1 id = get_votes w id)
    by (unfold get_votes, list_by_evaluation; now rewrite Hjurors).
  rewrite Hvotes.
  cbn [ev1 set_github Evaluation.github_repo_url].
  rewrite (valid_github_url_truthy url Hvalid), andb_true_r.
  assert (Hpub : github_public ev1 = check_github_repo_public github url)
    by (unfold github_public, ev1; cbn;
        now destruct (check_github_repo_public github url)).
  now rewrite Hpub.
Qed.

Lemma link_then_finalize_witness :
  evaluation_get sample_world "E1" = Some sample_evaluation
  /\ Evaluation.status sample_evaluation = "evaluating"
  /\ _is_valid_github_url "https://github.com/team/private" = true
  /\ @None string <> Some "rejected"
  /\ option_map Evaluation.final_result
       (evaluation_get
          (finalize_evaluation sample_env "E1" None
             (snd (submit_github_link sample_env
                     (fun _ => ApiStatus 200 (PrivateValue true)) "E1"
                     "https://github.com/team/private" sample_world)))
          "E1")
     = Some (Some "failed").
Proof.
  assert (H : @None string <> Some "rejected") by discriminate.
  split; [reflexivity|]. split; [reflexivity|]. split; [reflexivity|].
  split; [exact H|].
  exact (link_then_finalize sample_env sample_env
           (fun _ => ApiStatus 200 (PrivateValue true)) "E1"
           "https://github.com/team/private" None sample_world
           sample_evaluation eq_refl eq_refl eq_refl H).
Defined.

(** ** The administrator's operations *)

(** Only the configured administrator finalizes by hand: for any
    other caller (and for everyone when no administrator is configured)
    [admin_finalize_evaluation] and [force_complete_evaluation] return a
    failure and change nothing. *)
Theorem only_admin_finalizes env id user decision w :
  admin_slack_id env <> Some user ->
  admin_finalize_evaluation env id user decision w = (failure OnlyAdmin, w)
  /\ force_complete_evaluation env id user decision w
     = (failure Unauthorized, w).
Proof.
  intros H. apply eq_opt_false in H.
  unfold admin_finalize_evaluation, force_complete_evaluation.
  now rewrite H.
Qed.

Lemma only_admin_finalizes_witness :
  admin_slack_id sample_env <> Some "U7"
  /\ admin_finalize_evaluation sample_env "E1" "U7" "approved" sample_world
     = (failure OnlyAdmin, sample_world)
  /\ force_complete_evaluation sample_env "E1" "U7" "approved" sample_world
     = (failure Unauthorized, sample_world).
Proof.
  assert (H : admin_slack_id sample_env <> Some "U7") by discriminate.
  split; [exact H|].
  exact (only_admin_finalizes sample_env "E1" "U7" "approved" sample_world
           H).
Defined.

Lemma decide_result_not_rejected approval t f pub url :
  approval <> "rejected" ->
  decide_result (Some approval) t f pub url = decide_result None t f pub url.
Proof.
  intros H. unfold decide_result, eq_opt.
  apply not_eq_sym in H. apply String.eqb_neq in H. now rewrite H.
Qed.

(** X7. The administrator's decision on an evaluation that is being
    evaluated: the decision is stored and the evaluation is completed at
    once; 'rejected' records 'failed' whatever the votes and the link,
    while any other decision, 'approved' included, records what the
    votes and the link give, as the timer would: an approval does not
    force a success. *)
Theorem admin_decision env id admin approval w ev :
  admin_slack_id env = Some admin ->
  evaluation_get w id = Some ev ->
  Evaluation.status ev = "evaluating" ->
  let r := admin_finalize_evaluation env id admin approval w in
  let t := fst (get_votes w id) in
  let f := snd (get_votes w id) in
  let final_result :=
    if approval =? "rejected" then "failed"
    else fst (decide_result None t f (github_public ev)
                            (Evaluation.github_repo_url ev)) in
  fst r = succeeded (if approval =? "approved" then Approved else Rejected)
  /\ evaluation_get (snd r) id
     = Some (set_completed final_result (clock env 0)
                           (set_admin_approval approval ev)).
Proof.
  intros Hadmin Hev Hst. cbv zeta.
  apply eq_opt_true in Hadmin.
  unfold admin_finalize_evaluation. rewrite Hadmin, Hev, Hst. cbn [negb].
  change ("evaluating" =? "completed") with false. cbv iota.
  set (w1 := evaluation_update id (set_admin_approval approval) w).
  assert (H1 : evaluation_get w1 id = Some (set_admin_approval approval ev)).
  { unfold evaluation_get, w1, evaluation_update. cbn [evaluations].
    rewrite repo_get_update by apply set_admin_approval_id.
    rewrite String.eqb_refl. fold (evaluation_get w id). now rewrite Hev. }
  destruct (finalize_evaluating env id (Some approval) w1
              (set_admin_approval approval ev) H1 Hst) as (Hevs & _).
  assert (Hget : evaluation_get
                   (finalize_evaluation env id (Some approval) w1) id
                 = Some (set_completed
                           (if approval =? "rejected" then "failed"
                            else fst (decide_result None
                                        (fst (get_votes w id))
                                        (snd (get_votes w id))
                                        (github_public ev)
                                        (Evaluation.github_repo_url ev)))
                           (clock env 0) (set_admin_approval approval ev))).
  { unfold evaluation_get. rewrite Hevs.
    rewrite repo_get_update by apply set_completed_id.
    rewrite String.eqb_refl. fold (evaluation_get w1 id). rewrite H1.
    cbn [option_map]. f_equal. f_equal.
    change (get_votes w1 id) with (get_votes w id).
    change (github_public (set_admin_approval approval ev))
      with (github_public ev).
    change (Evaluation.github_repo_url (set_admin_approval approval ev))
      with (Evaluation.github_repo_url ev).
    destruct (String.eqb_spec approval "rejected") as [->|Hne].
    - reflexivity.
    - now rewrite decide_result_not_rejected. }
  destruct (approval =? "approved"); cbn [fst snd]; now split.
Qed.

Lemma admin_decision_witness :
  admin_slack_id sample_env = Some "UADMIN"
  /\ evaluation_get two_votes_world "E1"
     = Some (Evaluation.mk "E1" "H1" "evaluating" "2025-01-12T12:00:00"
               (Some "CEVAL") (Some "https://github.com/team/project")
               (Some 1%Z) 2 0 None None None)
  /\ option_map Evaluation.final_result
       (evaluation_get
          (snd (admin_finalize_evaluation sample_env "E1" "UADMIN"
                  "rejected" two_votes_world)) "E1")
     = Some (Some "failed").
Proof.
  split; [reflexivity|]. split; [reflexivity|].
  pose proof (admin_decision sample_env "E1" "UADMIN" "rejected"
                two_votes_world _ eq_refl eq_refl eq_refl) as (_ & H).
  rewrite H. reflexivity.
Defined.

Example approval_does_not_force_success :
  let w := mkWorld (hubs sample_world) (participants sample_world)
             (evaluations sample_world)
             [Evaluator.mk "J1" "E1" "U7" (Some "false") (Some "t1")] [] in
  option_map Evaluation.final_result
    (evaluation_get
       (snd (admin_finalize_evaluation sample_env "E1" "UADMIN" "approved"
                                       w)) "E1")
  = Some (Some "failed").
Proof. reflexivity. Qed.

(** X8. On an evaluation that is neither completed nor being evaluated
    (one left 'pending'), [admin_finalize_evaluation] stores the
    decision and reports success, but finalizes nothing: status, result,
    hub and call log are as they were. *)
Theorem admin_decision_on_pending env id admin approval w ev :
  admin_slack_id env = Some admin ->
  evaluation_get w id = Some ev ->
  Evaluation.status ev <> "completed" ->
  Evaluation.status ev <> "evaluating" ->
  admin_finalize_evaluation env id admin approval w
  = (succeeded (if approval =? "approved" then Approved else Rejected),
     evaluation_update id (set_admin_approval approval) w).
Proof.
  intros Hadmin Hev Hc He.
  apply eq_opt_true in Hadmin. apply String.eqb_neq in Hc.
  unfold admin_finalize_evaluation. rewrite Hadmin, Hev, Hc. cbn [negb].
  rewrite finalize_not_evaluating.
  - now destruct (approval =? "approved").
  - unfold evaluation_get, evaluation_update. cbn [evaluations].
    rewrite repo_get_update by apply set_admin_approval_id.
    rewrite String.eqb_refl. fold (evaluation_get w id). rewrite Hev.
    cbn. congruence.
Qed.

Lemma admin_decision_on_pending_witness :
  let w := snd (start_evaluation no_channel_env "H1" "CGENERAL"
                                 deadline_world) in
  admin_slack_id sample_env = Some "UADMIN"
  /\ evaluation_get w (uuid4 no_channel_env 0)
     = Some (pending_evaluation no_channel_env "H1")
  /\ admin_finalize_evaluation sample_env (uuid4 no_channel_env 0) "UADMIN"
                               "approved" w
     = (succeeded Approved,
        evaluation_update (uuid4 no_channel_env 0)
                          (set_admin_approval "approved") w).
Proof.
  cbv zeta. split; [reflexivity|]. split; [reflexivity|].
  apply (admin_decision_on_pending sample_env (uuid4 no_channel_env 0)
           "UADMIN" "approved" _ (pending_evaluation no_channel_env "H1"));
    try reflexivity; discriminate.
Defined.

Lemma hub_get_update f w h i :
  hub_get (hub_update h (hub_set_completed f) w) i
  = if i =? h then option_map (hub_set_completed f) (hub_get w i)
    else hub_get w i.
Proof.
  unfold hub_get, hub_update. cbn [hubs].
  now rewrite repo_get_update by apply hub_set_completed_id.
Qed.

(** X9. [force_complete_evaluation] by the administrator completes any
    evaluation it finds, whatever its status, votes and link: the given
    result is recorded as it is, the evaluation and the hub it names are
    marked completed, jurors and participants are untouched; the
    evaluation channel is archived only after the notice was posted
    there. *)
Theorem force_complete_records_result env id admin result w ev :
  admin_slack_id env = Some admin ->
  evaluation_get w id = Some ev ->
  let r := force_complete_evaluation env id admin result w in
  let w' := snd r in
  let h := Evaluation.challenge_hub_id ev in
  let notice ch := PostMessage ch (MForced result admin) in
  fst r = succeeded (ForcedComplete result)
  /\ evaluation_get w' id = Some (set_completed result (clock env 0) ev)
  /\ hub_get w' h = option_map (hub_set_completed (clock env 1)) (hub_get w h)
  /\ evaluators w' = evaluators w
  /\ participants w' = participants w
  /\ effects w'
     = (effects w
        ++ match Evaluation.evaluation_channel_id ev with
           | Some ch =>
             if truthy (Some ch) then
               notice ch
               :: (if gateway_ok env (effects w) (notice ch)
                   then [ArchiveChannel ch] else [])
             else []
           | None => []
           end)%list.
Proof.
  intros Hadmin Hev. cbv zeta. apply eq_opt_true in Hadmin.
  unfold force_complete_evaluation. rewrite Hadmin, Hev. cbn [negb fst snd].
  set (w1 := evaluation_update id (set_completed result (clock env 0)) w).
  set (w2 := hub_update (Evaluation.challenge_hub_id ev)
               (hub_set_completed (clock env 1)) w1).
  assert (H1 : evaluation_get w2 id
               = Some (set_completed result (clock env 0) ev)).
  { unfold evaluation_get, w2, w1, hub_update, evaluation_update.
    cbn [evaluations].
    rewrite repo_get_update by apply set_completed_id.
    rewrite String.eqb_refl. fold (evaluation_get w id). now rewrite Hev. }
  assert (H2 : hub_get w2 (Evaluation.challenge_hub_id ev)
               = option_map (hub_set_completed (clock env 1))
                            (hub_get w (Evaluation.challenge_hub_id ev))).
  { unfold w2. rewrite hub_get_update, String.eqb_refl. reflexivity. }
  destruct (Evaluation.evaluation_channel_id ev) as [ch|].
  - destruct (truthy (Some ch)).
    + unfold call, try_call, call. cbn [effects].
      change (effects w2) with (effects w).
      destruct (gateway_ok env (effects w) _); cbn [snd];
        repeat split; try assumption; cbn [effects];
        now rewrite <- app_assoc.
    + repeat split; try assumption. cbn. now rewrite app_nil_r.
  - repeat split; try assumption. cbn. now rewrite app_nil_r.
Qed.

Lemma force_complete_records_result_witness :
  admin_slack_id sample_env = Some "UADMIN"
  /\ evaluation_get two_jurors_world "E1"
     = Some (Evaluation.mk "E1" "H1" "evaluating" "2025-01-12T12:00:00"
               (Some "CEVAL") None None 0 0 None None None)
  /\ evaluation_get
       (snd (force_complete_evaluation sample_env "E1" "UADMIN" "success"
                                       two_jurors_world)) "E1"
     = Some (Evaluation.mk "E1" "H1" "completed" "2025-01-12T12:00:00"
               (Some "CEVAL") None None 0 0 None (Some "success")
               (Some "2025-01-10T12:00:00")).
Proof.
  split; [reflexivity|]. split; [reflexivity|].
  pose proof (force_complete_records_result sample_env "E1" "UADMIN"
                "success" two_jurors_world _ eq_refl eq_refl)
    as (_ & H & _).
  exact H.
Defined.

(** ** The hub of a finalized evaluation *)

Lemma hubs_try_call env e w : hubs (try_call env e w) = hubs w.
Proof. reflexivity. Qed.

Lemma hubs_post_if_set env ch m w :
  hubs (post_if_set env ch m w) = hubs w.
Proof.
  now destruct (same_store_post_if_set env ch m w) as (-> & _).
Qed.

(** X10. A finalization marks the hub of the evaluation completed, with
    a completion time, whether the result is success or failure; the
    other hubs are as they were. *)
Theorem finalize_completes_hub env id admin w ev hub :
  evaluation_get w id = Some ev ->
  Evaluation.status ev = "evaluating" ->
  hub_get w (Evaluation.challenge_hub_id ev) = Some hub ->
  let w' := finalize_evaluation env id admin w in
  hub_get w' (Evaluation.challenge_hub_id ev)
  = Some (Hub.mk (Hub.id hub) (Hub.creator_id hub) (Hub.theme hub)
                 "completed" (Hub.challenge_channel_id hub)
                 (Hub.hub_channel_id hub) (Some (clock env 1)))
  /\ forall h, h <> Evaluation.challenge_hub_id ev ->
               hub_get w' h = hub_get w h.
Proof.
  intros Hev Hst Hhub. cbv zeta.
  assert (Hhubs : hubs (finalize_evaluation env id admin w)
                  = hubs (hub_update (Evaluation.challenge_hub_id ev)
                            (hub_set_completed (clock env 1)) w)).
  { unfold finalize_evaluation. rewrite Hev, Hst.
    change ("evaluating" =? "evaluating") with true. cbn [negb]. cbv iota.
    destruct (get_votes w id) as [t f].
    destruct (decide_result admin t f (github_public ev)
                            (Evaluation.github_repo_url ev)) as [fr msg].
    change (hub_get (evaluation_update id (set_completed fr (clock env 0)) w)
                    (Evaluation.challenge_hub_id ev))
      with (hub_get w (Evaluation.challenge_hub_id ev)).
    rewrite Hhub.
    destruct (Evaluation.evaluation_channel_id ev) as [c|];
      [destruct (truthy (Some c))|];
      rewrite ?hubs_try_call; now rewrite !hubs_post_if_set. }
  assert (Hget : forall h,
             hub_get (finalize_evaluation env id admin w) h
             = hub_get (hub_update (Evaluation.challenge_hub_id ev)
                          (hub_set_completed (clock env 1)) w) h).
  { intros h. unfold hub_get at 1. rewrite Hhubs. reflexivity. }
  split.
  - rewrite Hget, hub_get_update, String.eqb_refl, Hhub. reflexivity.
  - intros h Hne. rewrite Hget, hub_get_update.
    apply String.eqb_neq in Hne. now rewrite Hne.
Qed.

Lemma finalize_completes_hub_witness :
  evaluation_get two_jurors_world "E1"
  = Some (Evaluation.mk "E1" "H1" "evaluating" "2025-01-12T12:00:00"
            (Some "CEVAL") None None 0 0 None None None)
  /\ hub_get two_jurors_world "H1" = Some sample_hub
  /\ option_map Evaluation.final_result
       (evaluation_get (finalize_evaluation sample_env "E1" None
                                            two_jurors_world) "E1")
     = Some (Some "failed")
  /\ option_map Hub.status
       (hub_get (finalize_evaluation sample_env "E1" None two_jurors_world)
                "H1")
     = Some "completed".
Proof.
  split; [reflexivity|]. split; [reflexivity|]. split; [reflexivity|].
  pose proof (finalize_completes_hub sample_env "E1" None two_jurors_world
                _ sample_hub eq_refl eq_refl eq_refl) as (H & _).
  exact (f_equal (option_map Hub.status) H).
Defined.

(** ** Joining, leaving and voting *)

Lemma same_store_join_calls env id u ev hub c w :
  same_store w
    (if (3 <=? c)%nat
     then batch_invite env id ev
            (send_dm env u (MCandidateDM (Hub.theme hub) c) w)
     else send_dm env u (MCandidateDM (Hub.theme hub) c) w).
Proof.
  destruct (3 <=? c)%nat.
  - eapply same_store_trans;
      [apply same_store_send_dm|apply same_store_batch_invite].
  - apply same_store_send_dm.
Qed.

(** A join that goes through, step by step. *)
Lemma toggle_juror_join env id u w ev hub :
  evaluation_get w id = Some ev ->
  hub_get w (Evaluation.challenge_hub_id ev) = Some hub ->
  ~ on_team_or_admin env w hub u ->
  get_by_evaluation_and_user w id u = None ->
  count_evaluators w id < 3 ->
  let c := count_evaluators w id + 1 in
  let slot := Evaluator.mk (uuid4 env 0) id u None None in
  let r := toggle_juror env id u w in
  fst r = mkResult true (Joined c) (Some "joined") (Some c)
                   (Some (3 <=? c)%nat) None
  /\ same_store (evaluator_create slot w) (snd r).
Proof.
  intros Hev Hhub Hout Hslot Hroom. cbv zeta.
  assert (Ht : team_or_admin env w hub u = false).
  { destruct (team_or_admin env w hub u) eqn:Ht; [|reflexivity].
    exfalso. now apply Hout, team_or_admin_spec. }
  unfold toggle_juror. rewrite Hev, Hhub, Ht, Hslot.
  apply Nat.leb_gt in Hroom. rewrite Hroom. cbn [fst snd].
  split; [reflexivity|]. apply same_store_join_calls.
Qed.

Lemma find_app_none {A} (p : A -> bool) (l : list A) (x : A) :
  find p l = None -> p x = true -> find p (l ++ [x]) = Some x.
Proof.
  induction l as [|a l IH]; simpl; intros Hn Hx; [now rewrite Hx|].
  destruct (p a); [discriminate|]. now apply IH.
Qed.

Lemma filter_fresh_snoc (l : list Evaluator.t) (x : Evaluator.t) :
  (forall j, In j l -> Evaluator.id j <> Evaluator.id x) ->
  repo_delete Evaluator.id (l ++ [x]) (Evaluator.id x) = l.
Proof.
  intros Hfresh. unfold repo_delete. rewrite filter_app. simpl.
  rewrite String.eqb_refl. simpl. rewrite app_nil_r.
  induction l as [|a l IH]; simpl; [reflexivity|].
  assert (Ha : (Evaluator.id a =? Evaluator.id x) = false)
    by (apply String.eqb_neq, Hfresh; now left).
  rewrite Ha. simpl. f_equal. apply IH.
  intros j Hj. apply Hfresh. now right.
Qed.

(** X11. Joining and leaving cancel out: when a user who may judge and
    holds no slot joins a pool with room, and then toggles again, the
    second call withdraws them and the evaluator table is back to what
    it was, with the count it had (the id drawn for the slot being
    new). *)
Theorem join_then_leave env env' id u w ev hub :
  evaluation_get w id = Some ev ->
  hub_get w (Evaluation.challenge_hub_id ev) = Some hub ->
  ~ on_team_or_admin env w hub u ->
  admin_slack_id env' = admin_slack_id env ->
  get_by_evaluation_and_user w id u = None ->
  count_evaluators w id < 3 ->
  (forall j, In j (evaluators w) -> Evaluator.id j <> uuid4 env 0) ->
  let r1 := toggle_juror env id u w in
  let r2 := toggle_juror env' id u (snd r1) in
  action (fst r1) = Some "joined"
  /\ action (fst r2) = Some "left"
  /\ count (fst r2) = Some (count_evaluators w id)
  /\ same_store w (snd r2).
Proof.
  intros Hev Hhub Hout Hadmin Hslot Hroom Hfresh. cbv zeta.
  destruct (toggle_juror_join env id u w ev hub Hev Hhub Hout Hslot Hroom)
    as (Hr1 & Hh & Hp & He & Hj).
  cbv zeta in Hr1, Hj.
  set (w1 := snd (toggle_juror env id u w)) in *.
  set (new := Evaluator.mk (uuid4 env 0) id u None None) in *.
  assert (Hev1 : evaluation_get w1 id = Some ev)
    by (unfold evaluation_get; rewrite He; exact Hev).
  assert (Hhub1 : hub_get w1 (Evaluation.challenge_hub_id ev) = Some hub)
    by (unfold hub_get; rewrite Hh; exact Hhub).
  assert (Ht1 : team_or_admin env' w1 hub u = false).
  { destruct (team_or_admin env' w1 hub u) eqn:Ht; [|reflexivity].
    exfalso. apply Hout. apply team_or_admin_spec.
    unfold team_or_admin, participant_ids in *. rewrite Hp, Hadmin in Ht.
    exact Ht. }
  assert (Hslot1 : get_by_evaluation_and_user w1 id u = Some new).
  { unfold get_by_evaluation_and_user. rewrite Hj. cbn [evaluators].
    apply find_app_none; [exact Hslot|].
    cbn. now rewrite !String.eqb_refl. }
  assert (Hdel : repo_delete Evaluator.id (evaluators w1) (Evaluator.id new)
                 = evaluators w).
  { rewrite Hj. cbn [evaluators evaluator_create].
    unfold repo_create. now apply filter_fresh_snoc. }
  split; [now rewrite Hr1|].
  unfold toggle_juror. rewrite Hev1, Hhub1, Ht1, Hslot1. cbn [fst snd action].
  split; [reflexivity|]. split.
  - cbn [count]. f_equal.
    unfold count_evaluators, list_by_evaluation, evaluator_delete.
    cbn [evaluators]. now rewrite Hdel.
  - eapply same_store_trans; [|apply same_store_send_dm].
    unfold same_store, evaluator_delete. cbn [hubs participants evaluations
                                              evaluators].
    now rewrite Hdel, Hh, Hp, He.
Qed.

Lemma join_then_leave_witness :
  evaluation_get two_jurors_world "E1"
  = Some (Evaluation.mk "E1" "H1" "evaluating" "2025-01-12T12:00:00"
            (Some "CEVAL") None None 0 0 None None None)
  /\ hub_get two_jurors_world "H1" = Some sample_hub
  /\ count_evaluators two_jurors_world "E1" < 3
  /\ action (fst (toggle_juror sample_env "E1" "U9" two_jurors_world))
     = Some "joined"
  /\ same_store two_jurors_world
       (snd (toggle_juror second_env "E1" "U9"
               (snd (toggle_juror sample_env "E1" "U9" two_jurors_world)))).
Proof.
  assert (Hout : ~ on_team_or_admin sample_env two_jurors_world sample_hub
                   "U9").
  { intros [Ha|[Hc|(p & Hp & _ & Hu)]]; try discriminate.
    simpl in Hp. destruct Hp as [<-|[<-|[]]]; discriminate. }
  assert (Hroom : count_evaluators two_jurors_world "E1" < 3)
    by (vm_compute; lia).
  assert (Hfresh : forall j, In j (evaluators two_jurors_world) ->
                             Evaluator.id j <> uuid4 sample_env 0).
  { intros j [<-|[<-|[]]]; discriminate. }
  pose proof (join_then_leave sample_env second_env "E1" "U9"
                two_jurors_world _ sample_hub eq_refl eq_refl Hout eq_refl
                eq_refl Hroom Hfresh) as (H1 & _ & _ & H4).
  split; [reflexivity|]. split; [reflexivity|]. split; [exact Hroom|].
  split; [exact H1|exact H4].
Defined.

(** X12. A user who has just joined the pool can vote at once, whether
    or not the pool is full: the vote after a join that went through is
    accepted and stored. *)
Theorem join_then_vote env env' id u vote w ev hub :
  evaluation_get w id = Some ev ->
  hub_get w (Evaluation.challenge_hub_id ev) = Some hub ->
  ~ on_team_or_admin env w hub u ->
  admin_slack_id env' = admin_slack_id env ->
  get_by_evaluation_and_user w id u = None ->
  count_evaluators w id < 3 ->
  let w1 := snd (toggle_juror env id u w) in
  let r := submit_vote env' id u vote w1 in
  fst r = succeeded (VoteRecorded vote)
  /\ option_map Evaluator.vote (get_by_evaluation_and_user (snd r) id u)
     = Some (Some (lower env' vote)).
Proof.
  intros Hev Hhub Hout Hadmin Hslot Hroom. cbv zeta.
  destruct (toggle_juror_join env id u w ev hub Hev Hhub Hout Hslot Hroom)
    as (_ & Hh & Hp & He & Hj).
  cbv zeta in Hj.
  set (w1 := snd (toggle_juror env id u w)) in *.
  set (new := Evaluator.mk (uuid4 env 0) id u None None) in *.
  assert (Hev1 : evaluation_get w1 id = Some ev)
    by (unfold evaluation_get; rewrite He; exact Hev).
  assert (Hhub1 : hub_get w1 (Evaluation.challenge_hub_id ev) = Some hub)
    by (unfold hub_get; rewrite Hh; exact Hhub).
  assert (Hout1 : ~ on_team_or_admin env' w1 hub u).
  { unfold on_team_or_admin in *. rewrite Hp, Hadmin. exact Hout. }
  assert (Hslot1 : get_by_evaluation_and_user w1 id u = Some new).
  { unfold get_by_evaluation_and_user. rewrite Hj. cbn [evaluators].
    apply find_app_none; [exact Hslot|].
    cbn. now rewrite !String.eqb_refl. }
  pose proof (submit_vote_accepted env' id u vote w1 ev hub new
                Hev1 Hhub1 Hout1 Hslot1 eq_refl) as Hok.
  split; [exact Hok|].
  assert (Hs : success (fst (submit_vote env' id u vote w1)) = true)
    by (now rewrite Hok).
  destruct (submit_vote_evaluators env' id u vote w1)
    as [(Hfail & _)|(j & Hj' & _ & Hevs)]; [congruence|].
  rewrite Hslot1 in Hj'. injection Hj' as <-.
  unfold get_by_evaluation_and_user. rewrite Hevs.
  change (find _ (repo_update Evaluator.id (evaluators w1) (Evaluator.id new)
                    (set_vote (lower env' vote) (clock env' 0))))
    with (get_by_evaluation_and_user
            (evaluator_update (Evaluator.id new)
               (set_vote (lower env' vote) (clock env' 0)) w1) id u).
  now rewrite (slot_after_vote w1 id u new _ _ Hslot1).
Qed.

Lemma join_then_vote_witness :
  evaluation_get recruiting_world "E1"
  = Some (Evaluation.mk "E1" "H1" "evaluating" "2025-01-12T12:00:00"
            (Some "CEVAL") None None 0 0 None None None)
  /\ hub_get recruiting_world "H1" = Some sample_hub
  /\ count_evaluators recruiting_world "E1" < 3
  /\ fst (submit_vote second_env "E1" "U9" "TRUE"
            (snd (toggle_juror sample_env "E1" "U9" recruiting_world)))
     = succeeded (VoteRecorded "TRUE")
  /\ option_map Evaluator.vote
       (get_by_evaluation_and_user
          (snd (submit_vote second_env "E1" "U9" "TRUE"
                  (snd (toggle_juror sample_env "E1" "U9"
                                     recruiting_world)))) "E1" "U9")
     = Some (Some "true").
Proof.
  assert (Hout : ~ on_team_or_admin sample_env recruiting_world sample_hub
                   "U9").
  { intros [Ha|[Hc|(p & Hp & _ & Hu)]]; try discriminate.
    simpl in Hp. destruct Hp as [<-|[<-|[]]]; discriminate. }
  assert (Hroom : count_evaluators recruiting_world "E1" < 3)
    by (vm_compute; lia).
  split; [reflexivity|]. split; [reflexivity|]. split; [exact Hroom|].
  exact (join_then_vote sample_env second_env "E1" "U9" "TRUE"
           recruiting_world _ sample_hub eq_refl eq_refl Hout eq_refl
           eq_refl Hroom).
Defined.

Lemma delete_absent (l : list Evaluator.t) (i : string) :
  ~ In i (map Evaluator.id l) -> repo_delete Evaluator.id l i = l.
Proof.
  unfold repo_delete. induction l as [|a l IH]; simpl; intros Hn;
    [reflexivity|].
  assert (Ha : (Evaluator.id a =? i) = false)
    by (apply String.eqb_neq; intros Heq; apply Hn; now left).
  rewrite Ha. simpl. f_equal. apply IH. intros H. apply Hn. now right.
Qed.

Lemma delete_count (l : list Evaluator.t) (j : Evaluator.t)
  (p : Evaluator.t -> bool) :
  NoDup (map Evaluator.id l) -> In j l -> p j = true ->
  S (length (filter p (repo_delete Evaluator.id l (Evaluator.id j))))
  = length (filter p l).
Proof.
  induction l as [|a l IH]; intros Hnd Hin Hp; [destruct Hin|].
  simpl in Hnd. inversion Hnd as [|? ? Hnotin Hnd']; subst.
  destruct Hin as [->|Hin].
  - unfold repo_delete. simpl. rewrite String.eqb_refl, Hp. simpl.
    fold (repo_delete Evaluator.id l (Evaluator.id j)).
    now rewrite delete_absent.
  - assert (Ha : (Evaluator.id a =? Evaluator.id j) = false).
    { apply String.eqb_neq. intros Heq. apply Hnotin. rewrite Heq.
      now apply in_map. }
    unfold repo_delete. simpl. rewrite Ha. simpl.
    fold (repo_delete Evaluator.id l (Evaluator.id j)).
    destruct (p a); simpl; now rewrite IH.
Qed.

(** X13. A withdrawal is always served: a user outside team and
    administration who holds a slot leaves the pool whether the pool is
    full and whether the vote is cast; the slot is deleted, the user
    holds none afterwards, the count returned is one less, and the
    evaluation row, with its running tallies, is not touched (slots and
    evaluator ids being unique). *)
Theorem slot_holder_leaves env id u w ev hub j :
  evaluation_get w id = Some ev ->
  hub_get w (Evaluation.challenge_hub_id ev) = Some hub ->
  ~ on_team_or_admin env w hub u ->
  get_by_evaluation_and_user w id u = Some j ->
  unique_slots w ->
  NoDup (map Evaluator.id (evaluators w)) ->
  let r := toggle_juror env id u w in
  fst r = mkResult true Withdrawn (Some "left")
                   (Some (count_evaluators w id - 1)) None None
  /\ evaluators (snd r)
     = repo_delete Evaluator.id (evaluators w) (Evaluator.id j)
  /\ get_by_evaluation_and_user (snd r) id u = None
  /\ evaluations (snd r) = evaluations w.
Proof.
  intros Hev Hhub Hout Hslot Hus Hnd. cbv zeta.
  assert (Ht : team_or_admin env w hub u = false).
  { destruct (team_or_admin env w hub u) eqn:Ht; [|reflexivity].
    exfalso. now apply Hout, team_or_admin_spec. }
  pose proof Hslot as Hfind. unfold get_by_evaluation_and_user in Hfind.
  apply find_some in Hfind. destruct Hfind as (Hin & Hkey).
  apply andb_true_iff in Hkey. destruct Hkey as (Hje & Hju).
  unfold toggle_juror. rewrite Hev, Hhub, Ht, Hslot. cbn [fst snd].
  destruct (same_store_send_dm env u (MWithdrawnDM (Hub.theme hub))
              (evaluator_delete (Evaluator.id j) w))
    as (_ & _ & He & Hj).
  split; [|split; [exact Hj|split; [|exact He]]].
  - f_equal. f_equal.
    unfold count_evaluators, list_by_evaluation, repo_list, evaluator_delete.
    cbn [evaluators].
    pose proof (delete_count (evaluators w) j
                  (fun x => Evaluator.evaluation_id x =? id) Hnd Hin Hje).
    lia.
  - unfold get_by_evaluation_and_user. rewrite Hj.
    cbn [evaluator_delete evaluators].
    destruct (find _ (repo_delete _ _ _)) as [x|] eqn:Hx; [|reflexivity].
    exfalso. apply find_some in Hx. destruct Hx as (Hx & Hk).
    unfold repo_delete in Hx. apply filter_In in Hx.
    destruct Hx as (Hx & Hid).
    apply andb_true_iff in Hk. destruct Hk as (Hxe & Hxu).
    apply String.eqb_eq in Hje, Hju, Hxe, Hxu.
    assert (x = j).
    { apply (NoDup_map_eq slot (evaluators w)); try assumption.
      unfold slot. congruence. }
    subst x. rewrite String.eqb_refl in Hid. discriminate.
Qed.

Lemma slot_holder_leaves_witness :
  evaluation_get sample_world "E1" = Some sample_evaluation
  /\ hub_get sample_world "H1" = Some sample_hub
  /\ get_by_evaluation_and_user sample_world "E1" "U7"
     = Some (Evaluator.mk "J1" "E1" "U7" (Some "true") (Some "t1"))
  /\ fst (toggle_juror sample_env "E1" "U7" sample_world)
     = mkResult true Withdrawn (Some "left") (Some 2) None None
  /\ get_votes (snd (toggle_juror sample_env "E1" "U7" sample_world)) "E1"
     = (1, 1)
  /\ evaluations (snd (toggle_juror sample_env "E1" "U7" sample_world))
     = [sample_evaluation].
Proof.
  assert (Hout : ~ on_team_or_admin sample_env sample_world sample_hub "U7").
  { intros [Ha|[Hc|(p & Hp & _ & Hu)]]; try discriminate.
    simpl in Hp. destruct Hp as [<-|[<-|[]]]; discriminate. }
  assert (Hus : unique_slots sample_world).
  { unfold unique_slots. simpl.
    repeat constructor; simpl; intuition discriminate. }
  assert (Hnd : NoDup (map Evaluator.id (evaluators sample_world))).
  { simpl. repeat constructor; simpl; intuition discriminate. }
  pose proof (slot_holder_leaves sample_env "E1" "U7" sample_world
                sample_evaluation sample_hub _ eq_refl eq_refl Hout eq_refl
                Hus Hnd) as (H1 & _ & _ & H4).
  split; [reflexivity|]. split; [reflexivity|]. split; [reflexivity|].
  split; [exact H1|]. split; [reflexivity|exact H4].
Defined.

(** ** The batch invite *)

Lemma invites_app l1 l2 : invites (l1 ++ l2) = invites l1 + invites l2.
Proof. unfold invites. now rewrite filter_app, length_app. Qed.

Lemma invites_send_dm env u m w :
  invites (effects (send_dm env u m w)) = invites (effects w).
Proof.
  unfold send_dm, call. cbn [effects].
  destruct (gateway_ok env (effects w) (OpenConversation u));
    [destruct (dm_channel_of env u)|];
    cbn [try_call call snd effects]; rewrite ?invites_app; cbn; lia.
Qed.

Lemma invites_dms env m us w :
  invites (effects (fold_left (fun w j_id => send_dm env j_id m w) us w))
  = invites (effects w).
Proof.
  revert w. induction us as [|u us IH]; intros w; simpl; [reflexivity|].
  now rewrite IH, invites_send_dm.
Qed.

Lemma batch_invite_invites env id ev w :
  invites (effects (batch_invite env id ev w))
  = invites (effects w)
    + (if truthy (Evaluation.evaluation_channel_id ev) then 1 else 0).
Proof.
  unfold batch_invite.
  destruct (Evaluation.evaluation_channel_id ev) as [c|]; [|cbn; lia].
  destruct (truthy (Some c)); [|lia].
  unfold call at 1. cbn [effects].
  assert (H1 : invites (effects w
                        ++ [InviteUsers c
                              (map Evaluator.user_id
                                   (list_by_evaluation w id))])
               = invites (effects w) + 1)
    by (rewrite invites_app; reflexivity).
  destruct (gateway_ok env (effects w) _); [|exact H1].
  destruct (3 <=? _)%nat; [|exact H1].
  unfold call at 1. cbn [effects].
  destruct (gateway_ok env _ _).
  - rewrite invites_dms. cbn [effects]. rewrite invites_app, H1. cbn. lia.
  - cbn [effects]. rewrite invites_app, H1. cbn. lia.
Qed.

Lemma batch_invite_call env id ev w c :
  Evaluation.evaluation_channel_id ev = Some c ->
  truthy (Some c) = true ->
  exists l,
    effects (batch_invite env id ev w)
    = (effects w
       ++ InviteUsers c (map Evaluator.user_id (list_by_evaluation w id))
       :: l)%list.
Proof.
  intros Hc Ht. unfold batch_invite. rewrite Hc, Ht.
  unfold call at 1. cbn [effects].
  destruct (gateway_ok env (effects w) _);
    [|exists []; reflexivity].
  destruct (3 <=? _)%nat; [|exists []; reflexivity].
  unfold call at 1. cbn [effects].
  set (w2 := mkWorld _ _ _ _ _).
  destruct (gateway_ok env _ _).
  - assert (Hgrow : forall us w0, exists l,
               effects (fold_left (fun w j_id => send_dm env j_id MJuryReadyDM w)
                                  us w0)
               = (effects w0 ++ l)%list).
    { induction us as [|u us IH]; intros w0; simpl.
      - exists []. now rewrite app_nil_r.
      - destruct (IH (send_dm env u MJuryReadyDM w0)) as (l & ->).
        assert (Hdm : exists l', effects (send_dm env u MJuryReadyDM w0)
                                 = (effects w0 ++ l')%list).
        { unfold send_dm, call. cbn [effects].
          destruct (gateway_ok env (effects w0) _);
            [destruct (dm_channel_of env u)|];
            cbn [try_call call snd effects];
            try (rewrite <- app_assoc); eexists; reflexivity. }
        destruct Hdm as (l' & ->). exists (l' ++ l)%list.
        now rewrite app_assoc. }
    destruct (Hgrow (map Evaluator.user_id (list_by_evaluation w id)) w2)
      as (l & ->).
    unfold w2. cbn [effects]. rewrite <- !app_assoc. cbn.
    eexists; reflexivity.
  - unfold w2. cbn [effects]. rewrite <- app_assoc. cbn.
    eexists; reflexivity.
Qed.

(** X14. The batch invite goes out on the third join and only then: a
    join that goes through returns [is_full] exactly when it finds two
    jurors, and the call makes one [invite_users], for all the jurors
    with the caller last, exactly then (the evaluation having a
    channel); the first and second joins invite nobody. *)
Theorem third_join_invites env id u w ev hub :
  evaluation_get w id = Some ev ->
  hub_get w (Evaluation.challenge_hub_id ev) = Some hub ->
  ~ on_team_or_admin env w hub u ->
  get_by_evaluation_and_user w id u = None ->
  count_evaluators w id < 3 ->
  let r := toggle_juror env id u w in
  let c := count_evaluators w id in
  let ch := Evaluation.evaluation_channel_id ev in
  is_full (fst r) = Some (c =? 2)%nat
  /\ invites (effects (snd r))
     = invites (effects w) + (if (c =? 2)%nat && truthy ch then 1 else 0)
  /\ forall x, c = 2 -> ch = Some x -> truthy ch = true ->
       In (InviteUsers x
             (map Evaluator.user_id (list_by_evaluation w id) ++ [u]))
          (effects (snd r)).
Proof.
  intros Hev Hhub Hout Hslot Hroom. cbv zeta.
  assert (Ht : team_or_admin env w hub u = false).
  { destruct (team_or_admin env w hub u) eqn:Ht; [|reflexivity].
    exfalso. now apply Hout, team_or_admin_spec. }
  unfold toggle_juror. rewrite Hev, Hhub, Ht, Hslot.
  pose proof Hroom as Hlt. apply Nat.leb_gt in Hlt. rewrite Hlt.
  cbn [fst snd is_full].
  set (c := count_evaluators w id) in *.
  set (new := Evaluator.mk (uuid4 env 0) id u None None).
  set (w1 := send_dm env u (MCandidateDM (Hub.theme hub) (c + 1))
               (evaluator_create new w)).
  assert (Hfull : (3 <=? c + 1)%nat = (c =? 2)%nat).
  { destruct c as [|[|[|c]]]; try reflexivity. lia. }
  assert (Hi1 : invites (effects w1) = invites (effects w))
    by (unfold w1; now rewrite invites_send_dm).
  assert (Hl1 : list_by_evaluation w1 id
                = (list_by_evaluation w id ++ [new])%list).
  { unfold list_by_evaluation, repo_list, w1.
    rewrite (same_store_evaluators _ _
               (same_store_send_dm env u _ (evaluator_create new w))).
    cbn [evaluator_create evaluators]. unfold repo_create.
    rewrite filter_app. cbn. now rewrite String.eqb_refl. }
  rewrite Hfull. split; [reflexivity|].
  destruct (c =? 2)%nat eqn:Hc; cbn [andb].
  - split.
    + now rewrite batch_invite_invites, Hi1.
    + intros x _ Hx Htx.
      destruct (batch_invite_call env id ev w1 x Hx) as (l & ->).
      { now rewrite <- Hx. }
      rewrite Hl1, map_app. cbn.
      apply in_or_app. right. now left.
  - split; [rewrite Hi1; lia|].
    intros x Hc2. rewrite Hc2 in Hc. discriminate.
Qed.

Lemma third_join_invites_witness :
  evaluation_get two_jurors_world "E1"
  = Some (Evaluation.mk "E1" "H1" "evaluating" "2025-01-12T12:00:00"
            (Some "CEVAL") None None 0 0 None None None)
  /\ hub_get two_jurors_world "H1" = Some sample_hub
  /\ count_evaluators two_jurors_world "E1" < 3
  /\ is_full (fst (toggle_juror sample_env "E1" "U9" two_jurors_world))
     = Some true
  /\ In (InviteUsers "CEVAL" ["U7"; "U8"; "U9"])
        (effects (snd (toggle_juror sample_env "E1" "U9" two_jurors_world))).
Proof.
  assert (Hout : ~ on_team_or_admin sample_env two_jurors_world sample_hub
                   "U9").
  { intros [Ha|[Hc|(p & Hp & _ & Hu)]]; try discriminate.
    simpl in Hp. destruct Hp as [<-|[<-|[]]]; discriminate. }
  assert (Hroom : count_evaluators two_jurors_world "E1" < 3)
    by (vm_compute; lia).
  pose proof (third_join_invites sample_env "E1" "U9" two_jurors_world _
                sample_hub eq_refl eq_refl Hout eq_refl Hroom)
    as (H1 & _ & H3).
  split; [reflexivity|]. split; [reflexivity|]. split; [exact Hroom|].
  split; [exact H1|].
  exact (H3 "CEVAL" eq_refl eq_refl eq_refl).
Defined.

(** ** Counting a vote *)

Lemma update_count (l : list Evaluator.t) (j : Evaluator.t)
  (g : Evaluator.t -> Evaluator.t) (p : Evaluator.t -> bool) :
  NoDup (map Evaluator.id l) -> In j l ->
  p j = false -> p (g j) = true ->
  length (filter p (repo_update Evaluator.id l (Evaluator.id j) g))
  = S (length (filter p l)).
Proof.
  unfold repo_update.
  induction l as [|a l IH]; intros Hnd Hin Hpj Hpg; [destruct Hin|].
  simpl in Hnd. inversion Hnd as [|? ? Hnotin Hnd']; subst.
  destruct Hin as [->|Hin]; simpl.
  - rewrite String.eqb_refl, Hpg, Hpj. simpl. f_equal.
    apply filter_length_map_In. intros x Hx.
    assert (Hne : (Evaluator.id x =? Evaluator.id j) = false).
    { apply String.eqb_neq. intros Heq. apply Hnotin. rewrite <- Heq.
      now apply in_map. }
    now rewrite Hne.
  - assert (Ha : (Evaluator.id a =? Evaluator.id j) = false).
    { apply String.eqb_neq. intros Heq. apply Hnotin. rewrite Heq.
      now apply in_map. }
    rewrite Ha. destruct (p a); simpl; now rewrite IH.
Qed.

Lemma update_count_same (l : list Evaluator.t) (j : Evaluator.t)
  (g : Evaluator.t -> Evaluator.t) (p : Evaluator.t -> bool) :
  NoDup (map Evaluator.id l) -> In j l ->
  p (g j) = p j ->
  length (filter p (repo_update Evaluator.id l (Evaluator.id j) g))
  = length (filter p l).
Proof.
  intros Hnd Hin Hp. unfold repo_update.
  apply filter_length_map_In. intros x Hx.
  destruct (String.eqb_spec (Evaluator.id x) (Evaluator.id j)) as [He|];
    [|reflexivity].
  assert (x = j) by (eapply NoDup_map_eq; eauto). now subst x.
Qed.

Lemma not_voted_yet j b :
  truthy (Evaluator.vote j) = false -> (b = "true" \/ b = "false") ->
  voted b j = false.
Proof.
  intros Hv Hb. unfold voted. destruct (Evaluator.vote j) as [s|];
    [|reflexivity].
  simpl in *. destruct (String.eqb_spec s ""); [|discriminate]. subst s.
  destruct Hb; subst b; reflexivity.
Qed.

(** X15. A vote counts once, whatever its case: when a registered juror
    outside team and administration who has not voted submits a value
    that lower-cases to 'true' (to 'false'), the count of true (false)
    votes of the evaluation grows by exactly one, the other count stays,
    and these counts are what is written as the evaluation's running
    tallies (evaluator ids being unique). *)
Theorem counted_vote env id u vote w ev hub j :
  evaluation_get w id = Some ev ->
  hub_get w (Evaluation.challenge_hub_id ev) = Some hub ->
  ~ on_team_or_admin env w hub u ->
  get_by_evaluation_and_user w id u = Some j ->
  truthy (Evaluator.vote j) = false ->
  NoDup (map Evaluator.id (evaluators w)) ->
  lower env vote = "true" \/ lower env vote = "false" ->
  let w' := snd (submit_vote env id u vote w) in
  let t := fst (get_votes w id) in
  let f := snd (get_votes w id) in
  get_votes w' id = (if lower env vote =? "true" then (S t, f) else (t, S f))
  /\ option_map Evaluation.true_votes (evaluation_get w' id)
     = Some (fst (get_votes w' id))
  /\ option_map Evaluation.false_votes (evaluation_get w' id)
     = Some (snd (get_votes w' id)).
Proof.
  intros Hev Hhub Hout Hj Hv Hnd Hvote. cbv zeta.
  pose proof (submit_vote_accepted env id u vote w ev hub j
                Hev Hhub Hout Hj Hv) as Hok.
  assert (Hs : success (fst (submit_vote env id u vote w)) = true)
    by (now rewrite Hok).
  destruct (submit_vote_success env id u vote w Hs)
    as (ev' & j' & Hev' & Hj' & _ & Hw').
  rewrite Hev in Hev'. rewrite Hj in Hj'.
  injection Hev' as <-. injection Hj' as <-.
  cbv zeta in Hw'.
  set (w1 := evaluator_update (Evaluator.id j)
               (set_vote (lower env vote) (clock env 0)) w) in *.
  set (t1 := fst (get_votes w1 id)) in *.
  set (f1 := snd (get_votes w1 id)) in *.
  set (w2 := update_votes id t1 f1 w1) in *.
  assert (Hsame : same_store w2 (snd (submit_vote env id u vote w))).
  { rewrite Hw'. destruct (3 <=? t1 + f1)%nat.
    - apply same_store_completion_trigger.
    - apply same_store_refl. }
  destruct Hsame as (_ & _ & He & Hjs).
  assert (Hvotes : get_votes (snd (submit_vote env id u vote w)) id
                   = get_votes w1 id)
    by (unfold get_votes, list_by_evaluation; now rewrite Hjs).
  assert (Hrow : evaluation_get (snd (submit_vote env id u vote w)) id
                 = Some (set_votes t1 f1 ev)).
  { unfold evaluation_get. rewrite He.
    unfold w2, update_votes, evaluation_update. cbn [evaluations].
    rewrite repo_get_update by apply set_votes_id.
    rewrite String.eqb_refl.
    change (repo_get Evaluation.id (evaluations w1) id)
      with (evaluation_get w id).
    now rewrite Hev. }
  rewrite Hvotes, Hrow. split; [|now split].
  (* the counts after the update of the juror's row *)
  pose proof Hj as Hfind. unfold get_by_evaluation_and_user in Hfind.
  apply find_some in Hfind. destruct Hfind as (Hin & Hkey).
  apply andb_true_iff in Hkey. destruct Hkey as (Hje & _).
  set (q := fun x => Evaluator.evaluation_id x =? id).
  assert (Hnd' : NoDup (map Evaluator.id (filter q (evaluators w))))
    by (now apply NoDup_map_filter).
  assert (Hin' : In j (filter q (evaluators w)))
    by (apply filter_In; now split).
  assert (Hlist : list_by_evaluation w1 id
                  = repo_update Evaluator.id (filter q (evaluators w))
                      (Evaluator.id j)
                      (set_vote (lower env vote) (clock env 0))).
  { unfold list_by_evaluation, repo_list, w1, evaluator_update, repo_update.
    cbn [evaluators]. apply filter_map_commute.
    intros x. now destruct (Evaluator.id x =? Evaluator.id j). }
  unfold get_votes. rewrite Hlist.
  change (list_by_evaluation w id) with (filter q (evaluators w)).
  cbn [fst snd].
  destruct Hvote as [Hl|Hl]; rewrite Hl; cbn [String.eqb Ascii.eqb Bool.eqb].
  - f_equal.
    + apply update_count; try assumption.
      * apply not_voted_yet; [exact Hv|now left].
      * reflexivity.
    + apply update_count_same; try assumption.
      rewrite (not_voted_yet j "false" Hv) by (now right). reflexivity.
  - f_equal.
    + apply update_count_same; try assumption.
      rewrite (not_voted_yet j "true" Hv) by (now left). reflexivity.
    + apply update_count; try assumption.
      * apply not_voted_yet; [exact Hv|now right].
      * reflexivity.
Qed.

Lemma counted_vote_witness :
  get_by_evaluation_and_user two_votes_world "E1" "U9"
  = Some (Evaluator.mk "J3" "E1" "U9" None None)
  /\ lower sample_env "FALSE" = "false"
  /\ get_votes two_votes_world "E1" = (2, 0)
  /\ get_votes (snd (submit_vote sample_env "E1" "U9" "FALSE"
                                 two_votes_world)) "E1"
     = (2, 1).
Proof.
  assert (Hout : ~ on_team_or_admin sample_env two_votes_world sample_hub
                   "U9").
  { intros [Ha|[Hc|(p & Hp & _ & Hu)]]; try discriminate.
    simpl in Hp. destruct Hp as [<-|[<-|[]]]; discriminate. }
  assert (Hnd : NoDup (map Evaluator.id (evaluators two_votes_world))).
  { simpl. repeat constructor; simpl; intuition discriminate. }
  pose proof (counted_vote sample_env "E1" "U9" "FALSE" two_votes_world _
                sample_hub _ eq_refl eq_refl Hout eq_refl eq_refl Hnd
                (or_intror eq_refl)) as (H & _).
  split; [reflexivity|]. split; [reflexivity|]. split; [reflexivity|].
  exact H.
Defined.

(** ** A started evaluation *)

(** [start_evaluation] when it reports success, step by step. *)
Lemma start_evaluation_ok env h c w :
  success (fst (start_evaluation env h c w)) = true ->
  exists hub,
    hub_get w h = Some hub
    /\ get_by_challenge w h = None
    /\ let id := uuid4 env 0 in
       let name := "challenge-evaluation-" ++ substring 0 8 (uuid4 env 1) in
       let ch := channel_id_of env name in
       let target := if truthy (Hub.hub_channel_id hub)
                     then match Hub.hub_channel_id hub with
                          | Some x => x
                          | None => c
                          end
                     else c in
       start_evaluation env h c w
       = (mkResult true Started None None None (Some id),
          mkWorld (hubs w) (participants w)
            (repo_update Evaluation.id
               (evaluations w ++ [pending_evaluation env h])%list id
               (set_channel ch))
            (evaluators w)
            (effects w
             ++ [CreateChannel name;
                 InviteUsers ch
                   (nodup string_dec
                      ((if truthy (Some (Hub.creator_id hub))
                        then [Hub.creator_id hub] else [])
                       ++ participant_ids w h
                       ++ (match admin_slack_id env with
                           | Some a => if truthy (Some a) then [a] else []
                           | None => []
                           end)));
                 AddOnceJob ("finalize_evaluation_" ++ id) (48 * 60) id;
                 PostMessage ch MWelcome;
                 PostMessage target (MJuryCall (Hub.theme hub))])%list).
Proof.
  unfold start_evaluation.
  destruct (hub_get w h) as [hub|]; [|discriminate].
  destruct (get_by_challenge w h) as [ev|]; [discriminate|].
  intros Hok. exists hub. split; [reflexivity|]. split; [reflexivity|].
  cbv zeta. revert Hok.
  unfold call, try_call, call. cbn [effects snd fst].
  destruct (gateway_ok env _ (CreateChannel _)); cbn [negb];
    [|discriminate].
  cbn [effects evaluation_update evaluation_create].
  destruct (gateway_ok env _ (AddOnceJob _ _ _)); cbn [negb];
    [|discriminate].
  cbn [effects].
  destruct (gateway_ok env _ (PostMessage _ (MJuryCall _))); cbn [negb];
    [|discriminate].
  intros _. f_equal. f_equal.
  - rewrite <- !app_assoc. cbn [app]. do 5 f_equal.
    destruct (Hub.hub_channel_id hub) as [x|]; [|reflexivity].
    now destruct (truthy (Some x)).
Qed.

(** X16. When [start_evaluation] reports success, the hub had no
    evaluation before and has one now, being evaluated, in the channel
    just created and under the id returned in the envelope; the
    finalization is scheduled once, 48 hours (2880 minutes) ahead, under
    the job id made of that id; hubs, participants and jurors are as
    they were. *)
Theorem start_evaluation_success env h c w :
  success (fst (start_evaluation env h c w)) = true ->
  let r := start_evaluation env h c w in
  let id := uuid4 env 0 in
  let ch := channel_id_of env
              ("challenge-evaluation-" ++ substring 0 8 (uuid4 env 1)) in
  evaluation_id (fst r) = Some id
  /\ get_by_challenge w h = None
  /\ get_by_challenge (snd r) h
     = Some (Evaluation.mk id h "evaluating"
               (plus_hours env (clock env 0) 48) (Some ch)
               None None 0 0 None None None)
  /\ filter (fun e => match e with AddOnceJob _ _ _ => true | _ => false end)
            (skipn (length (effects w)) (effects (snd r)))
     = [AddOnceJob ("finalize_evaluation_" ++ id) 2880 id]
  /\ hubs (snd r) = hubs w
  /\ participants (snd r) = participants w
  /\ evaluators (snd r) = evaluators w.
Proof.
  intros Hok. cbv zeta.
  destruct (start_evaluation_ok env h c w Hok) as (hub & Hhub & Hnone & Hr).
  cbv zeta in Hr. rewrite Hr. cbn [fst snd evaluation_id hubs participants
                                   evaluators effects].
  split; [reflexivity|]. split; [exact Hnone|].
  split; [|split; [|now repeat split]].
  - apply get_by_challenge_none in Hnone.
    unfold get_by_challenge, repo_list, repo_update. cbn [evaluations].
    rewrite filter_map_commute
      by (intros x; now destruct (Evaluation.id x =? uuid4 env 0)).
    rewrite filter_app.
    unfold evaluations_of, repo_list in Hnone. rewrite Hnone.
    unfold pending_evaluation.
    cbn [filter app map Evaluation.challenge_hub_id Evaluation.id hd_error].
    rewrite !String.eqb_refl.
    cbn [filter app map Evaluation.challenge_hub_id Evaluation.id hd_error].
    rewrite ?String.eqb_refl. reflexivity.
  - rewrite skipn_app, skipn_all, Nat.sub_diag. reflexivity.
Qed.

Lemma start_evaluation_success_witness :
  success (fst (start_evaluation sample_env "H1" "CGENERAL" deadline_world))
  = true
  /\ option_map Evaluation.status
       (get_by_challenge
          (snd (start_evaluation sample_env "H1" "CGENERAL" deadline_world))
          "H1")
     = Some "evaluating".
Proof.
  split; [reflexivity|].
  pose proof (start_evaluation_success sample_env "H1" "CGENERAL"
                deadline_world eq_refl) as (_ & _ & H & _).
  exact (f_equal (option_map Evaluation.status) H).
Defined.

(** X17. A successful [start_evaluation] invites to the evaluation
    channel, in one call, the hub's creator, its participants and the
    configured administrator, each of them once, and nobody else. *)
Theorem start_evaluation_invites env h c w :
  success (fst (start_evaluation env h c w)) = true ->
  exists hub users,
    hub_get w h = Some hub
    /\ filter is_invite
              (skipn (length (effects w))
                     (effects (snd (start_evaluation env h c w))))
       = [InviteUsers
            (channel_id_of env
               ("challenge-evaluation-" ++ substring 0 8 (uuid4 env 1)))
            users]
    /\ NoDup users
    /\ forall x,
         In x users
         <-> (x = Hub.creator_id hub /\ x <> "")
             \/ In x (participant_ids w h)
             \/ (admin_slack_id env = Some x /\ x <> "").
Proof.
  intros Hok.
  destruct (start_evaluation_ok env h c w Hok) as (hub & Hhub & Hnone & Hr).
  cbv zeta in Hr. rewrite Hr. cbn [snd effects].
  rewrite skipn_app, skipn_all, Nat.sub_diag.
  eexists hub, _. split; [exact Hhub|]. split; [reflexivity|].
  split; [apply NoDup_nodup|].
  intros x. rewrite nodup_In, !in_app_iff.
  assert (Hc : In x (if truthy (Some (Hub.creator_id hub))
                     then [Hub.creator_id hub] else [])
               <-> x = Hub.creator_id hub /\ x <> "").
  { cbn [truthy]. destruct (String.eqb_spec (Hub.creator_id hub) "")
      as [He|He]; cbn.
    - split; [tauto|]. intros (-> & Hx). congruence.
    - split.
      + intros [<-|[]]. now split.
      + intros (-> & _). now left. }
  assert (Ha : In x (match admin_slack_id env with
                     | Some a => if truthy (Some a) then [a] else []
                     | None => []
                     end)
               <-> admin_slack_id env = Some x /\ x <> "").
  { destruct (admin_slack_id env) as [a|]; cbn.
    - destruct (String.eqb_spec a "") as [He|He]; cbn.
      + split; [tauto|]. intros (Heq & Hx). congruence.
      + split.
        * intros [<-|[]]. now split.
        * intros (Heq & _). injection Heq as ->. now left.
    - split; [tauto|]. intros (Heq & _). discriminate. }
  rewrite Hc, Ha. reflexivity.
Qed.

Lemma start_evaluation_invites_witness :
  success (fst (start_evaluation sample_env "H1" "CGENERAL" deadline_world))
  = true
  /\ exists hub users,
       hub_get deadline_world "H1" = Some hub
       /\ filter is_invite
                 (skipn (length (effects deadline_world))
                        (effects (snd (start_evaluation sample_env "H1"
                                         "CGENERAL" deadline_world))))
          = [InviteUsers
               (channel_id_of sample_env
                  ("challenge-evaluation-"
                   ++ substring 0 8 (uuid4 sample_env 1)))
               users]
       /\ NoDup users
       /\ forall x,
            In x users
            <-> (x = Hub.creator_id hub /\ x <> "")
                \/ In x (participant_ids deadline_world "H1")
                \/ (admin_slack_id sample_env = Some x /\ x <> "").
Proof.
  split; [reflexivity|].
  exact (start_evaluation_invites sample_env "H1" "CGENERAL" deadline_world
           eq_refl).
Defined.

(** ** The evaluation table under the requests *)

Lemma rows_rewritten_refl fresh l : rows_rewritten fresh l l.
Proof.
  exists (fun e => e). split; [now rewrite map_id|]. now repeat split.
Qed.

Lemma rows_rewritten_trans fresh l1 l2 l3 :
  rows_rewritten fresh l1 l2 -> rows_rewritten fresh l2 l3 ->
  rows_rewritten fresh l1 l3.
Proof.
  intros (g & -> & Hi & Hh & Hc) (g' & -> & Hi' & Hh' & Hc').
  exists (fun e => g' (g e)). split; [now rewrite map_map|].
  split; [intros e; now rewrite Hi', Hi|].
  split; [intros e; now rewrite Hh', Hh|].
  intros e Hne Hst. apply Hc'; [now rewrite Hi|now apply Hc].
Qed.

Lemma rows_rewritten_update fresh l i f :
  (forall e, Evaluation.id (f e) = Evaluation.id e) ->
  (forall e, Evaluation.challenge_hub_id (f e)
             = Evaluation.challenge_hub_id e) ->
  (forall e, Evaluation.id e <> fresh ->
             Evaluation.status e = "completed" ->
             Evaluation.status (f e) = "completed") ->
  rows_rewritten fresh l (repo_update Evaluation.id l i f).
Proof.
  intros Hi Hh Hc.
  exists (fun r => if Evaluation.id r =? i then f r else r).
  split; [reflexivity|].
  split; [intros e; now destruct (Evaluation.id e =? i)|].
  split; [intros e; now destruct (Evaluation.id e =? i)|].
  intros e Hne Hst. destruct (Evaluation.id e =? i); [now apply Hc|exact Hst].
Qed.

Lemma rows_rewritten_set_votes fresh l i t f :
  rows_rewritten fresh l (repo_update Evaluation.id l i (set_votes t f)).
Proof. now apply rows_rewritten_update. Qed.

Lemma rows_rewritten_set_completed fresh l i r t :
  rows_rewritten fresh l (repo_update Evaluation.id l i (set_completed r t)).
Proof. now apply rows_rewritten_update. Qed.

Lemma rows_rewritten_set_admin_approval fresh l i a :
  rows_rewritten fresh l
    (repo_update Evaluation.id l i (set_admin_approval a)).
Proof. now apply rows_rewritten_update. Qed.

Lemma rows_rewritten_set_channel l i ch :
  rows_rewritten i l (repo_update Evaluation.id l i (set_channel ch)).
Proof.
  exists (fun r => if Evaluation.id r =? i then set_channel ch r else r).
  split; [reflexivity|].
  split; [intros e; now destruct (Evaluation.id e =? i)|].
  split; [intros e; now destruct (Evaluation.id e =? i)|].
  intros e Hne Hst. apply String.eqb_neq in Hne. now rewrite Hne.
Qed.

Lemma finalize_evaluations fresh env id admin w :
  rows_rewritten fresh (evaluations w)
                 (evaluations (finalize_evaluation env id admin w)).
Proof.
  destruct (evaluation_get w id) as [ev|] eqn:Hget.
  - destruct (String.eqb_spec (Evaluation.status ev) "evaluating")
      as [Hst|Hst].
    + destruct (finalize_evaluating env id admin w ev Hget Hst) as (-> & _).
      apply rows_rewritten_set_completed.
    + rewrite finalize_not_evaluating; [apply rows_rewritten_refl|].
      rewrite Hget; simpl; congruence.
  - rewrite finalize_not_evaluating; [apply rows_rewritten_refl|].
    rewrite Hget; simpl; discriminate.
Qed.

Lemma toggle_juror_evaluations env id u w :
  evaluations (snd (toggle_juror env id u w)) = evaluations w.
Proof.
  unfold toggle_juror.
  destruct (evaluation_get w id) as [ev|]; [|reflexivity].
  destruct (hub_get w _) as [hub|]; [|reflexivity].
  destruct (team_or_admin env w hub u); [reflexivity|].
  destruct (get_by_evaluation_and_user w id u) as [j|].
  - cbn [snd].
    now destruct (same_store_send_dm env u (MWithdrawnDM (Hub.theme hub))
                    (evaluator_delete (Evaluator.id j) w))
      as (_ & _ & -> & _).
  - destruct (3 <=? count_evaluators w id)%nat; [reflexivity|]. cbn [snd].
    now destruct (same_store_join_calls env id u ev hub
                    (count_evaluators w id + 1)
                    (evaluator_create
                       (Evaluator.mk (uuid4 env 0) id u None None) w))
      as (_ & _ & -> & _).
Qed.

Lemma submit_vote_evaluations fresh env id u v w :
  rows_rewritten fresh (evaluations w)
                 (evaluations (snd (submit_vote env id u v w))).
Proof.
  unfold submit_vote.
  destruct (evaluation_get w id) as [ev|]; [|apply rows_rewritten_refl].
  destruct (hub_get w _) as [hub|]; [|apply rows_rewritten_refl].
  destruct (eq_opt _ _); [apply rows_rewritten_refl|].
  destruct (_ =? Hub.creator_id hub); [apply rows_rewritten_refl|].
  destruct (existsb _ _); [apply rows_rewritten_refl|].
  destruct (get_by_evaluation_and_user w id u) as [j|];
    [|apply rows_rewritten_refl].
  destruct (truthy (Evaluator.vote j)); [apply rows_rewritten_refl|].
  destruct (get_votes _ id) as [t f]. cbn [snd].
  set (w2 := update_votes id t f _).
  assert (H : evaluations
                (if (3 <=? t + f)%nat
                 then completion_trigger env ev t f w2 else w2)
              = repo_update Evaluation.id (evaluations w) id
                            (set_votes t f)).
  { destruct (3 <=? t + f)%nat; [|reflexivity].
    now destruct (same_store_completion_trigger env ev t f w2)
      as (_ & _ & -> & _). }
  rewrite H. apply rows_rewritten_set_votes.
Qed.

Lemma admin_finalize_evaluations fresh env id a d w :
  rows_rewritten fresh (evaluations w)
    (evaluations (snd (admin_finalize_evaluation env id a d w))).
Proof.
  unfold admin_finalize_evaluation.
  destruct (negb _); [apply rows_rewritten_refl|].
  destruct (evaluation_get w id) as [ev|]; [|apply rows_rewritten_refl].
  destruct (Evaluation.status ev =? "completed");
    [apply rows_rewritten_refl|].
  assert (H : rows_rewritten fresh (evaluations w)
                (evaluations
                   (finalize_evaluation env id (Some d)
                      (evaluation_update id (set_admin_approval d) w)))).
  { eapply rows_rewritten_trans; [|apply finalize_evaluations].
    apply rows_rewritten_set_admin_approval. }
  now destruct (d =? "approved").
Qed.

Lemma force_complete_evaluations fresh env id a r w :
  rows_rewritten fresh (evaluations w)
    (evaluations (snd (force_complete_evaluation env id a r w))).
Proof.
  unfold force_complete_evaluation.
  destruct (negb _); [apply rows_rewritten_refl|].
  destruct (evaluation_get w id) as [ev|]; [|apply rows_rewritten_refl].
  cbn [snd].
  assert (H : forall w0,
             evaluations
               (match Evaluation.evaluation_channel_id ev with
                | Some ch =>
                  if truthy (Some ch) then
                    let (ok, w1) :=
                      call env (PostMessage ch (MForced r a)) w0 in
                    if ok then try_call env (ArchiveChannel ch) w1 else w1
                  else w0
                | None => w0
                end) = evaluations w0).
  { intros w0. destruct (Evaluation.evaluation_channel_id ev) as [c|];
      [|reflexivity].
    destruct (truthy (Some c)); [|reflexivity].
    unfold call, try_call, call. cbn [effects].
    now destruct (gateway_ok env _ _). }
  rewrite H. apply rows_rewritten_set_completed.
Qed.

(** The evaluation table after a request: the rows of before, rewritten
    in place, with at most one row added, for a hub that had none. *)
Lemma handle_evaluations env r w :
  exists added,
    rows_rewritten (uuid4 env 0) (evaluations w ++ added)
                   (evaluations (handle env r w))
    /\ (added = []
        \/ exists h, added = [pending_evaluation env h]
                     /\ get_by_challenge w h = None).
Proof.
  destruct r as [h c|id u|id u v|id a d|id|id a res]; cbn [handle].
  - destruct (start_evaluation_evaluations env h c w)
      as [->|(Hnone & [->|(ch & ->)])].
    + exists []. rewrite app_nil_r.
      split; [apply rows_rewritten_refl|now left].
    + exists [pending_evaluation env h].
      split; [apply rows_rewritten_refl|]. right. now exists h.
    + exists [pending_evaluation env h].
      split; [apply rows_rewritten_set_channel|]. right. now exists h.
  - exists []. rewrite app_nil_r, toggle_juror_evaluations.
    split; [apply rows_rewritten_refl|now left].
  - exists []. rewrite app_nil_r.
    split; [apply submit_vote_evaluations|now left].
  - exists []. rewrite app_nil_r.
    split; [apply admin_finalize_evaluations|now left].
  - exists []. rewrite app_nil_r.
    split; [apply finalize_evaluations|now left].
  - exists []. rewrite app_nil_r.
    split; [apply force_complete_evaluations|now left].
Qed.

(** X18. At most one evaluation per hub: if no hub has more than one
    evaluation, none has after any sequence of service requests
    served one after the other. *)
Theorem one_evaluation_per_hub calls w :
  (forall h, length (evaluations_of w h) <= 1) ->
  forall h, length (evaluations_of (run calls w) h) <= 1.
Proof.
  revert w. induction calls as [|[env r] calls IH]; intros w Hw h;
    [apply Hw|].
  simpl. apply IH. clear IH h. intros h.
  destruct (handle_evaluations env r w)
    as (added & (g & Hg & _ & Hhub & _) & Hadded).
  unfold evaluations_of, repo_list. rewrite Hg.
  rewrite filter_length_map
    by (intros x; now rewrite Hhub).
  rewrite filter_app, length_app.
  specialize (Hw h). unfold evaluations_of, repo_list in Hw.
  destruct Hadded as [->|(h' & -> & Hnone)]; [simpl; lia|].
  cbn [filter pending_evaluation Evaluation.challenge_hub_id].
  destruct (String.eqb_spec h' h) as [->|Hne]; [|simpl; lia].
  apply get_by_challenge_none in Hnone.
  unfold evaluations_of, repo_list in Hnone. rewrite Hnone. simpl. lia.
Qed.

Lemma one_evaluation_per_hub_witness :
  (forall h, length (evaluations_of deadline_world h) <= 1)
  /\ forall h,
       length
         (evaluations_of
            (run [(no_channel_env, StartEvaluation "H1" "CGENERAL");
                  (sample_env, StartEvaluation "H1" "CGENERAL");
                  (second_env, StartEvaluation "H1" "CGENERAL")]
                 deadline_world) h) <= 1.
Proof.
  assert (H : forall h, length (evaluations_of deadline_world h) <= 1)
    by (intros h; simpl; lia).
  split; [exact H|].
  exact (one_evaluation_per_hub
           [(no_channel_env, StartEvaluation "H1" "CGENERAL");
            (sample_env, StartEvaluation "H1" "CGENERAL");
            (second_env, StartEvaluation "H1" "CGENERAL")]
           deadline_world H).
Defined.

Lemma find_app_some {A} (p : A -> bool) (l l' : list A) (x : A) :
  find p l = Some x -> find p (l ++ l') = Some x.
Proof.
  induction l as [|a l IH]; simpl; [discriminate|].
  destruct (p a); [trivial|exact IH].
Qed.

(** X19. A completed evaluation stays completed: no request of the
    service takes the status of a completed evaluation back, provided
    the ids drawn for new evaluations differ from its id (its recorded
    result may still be overwritten, by a forced completion). *)
Theorem completed_stays_completed calls w id :
  Forall (fun c => uuid4 (fst c) 0 <> id) calls ->
  option_map Evaluation.status (evaluation_get w id) = Some "completed" ->
  option_map Evaluation.status (evaluation_get (run calls w) id)
  = Some "completed".
Proof.
  revert w. induction calls as [|[env r] calls IH]; intros w Hfresh Hst;
    [exact Hst|].
  inversion Hfresh as [|? ? Hne Hfresh']; subst. cbn [fst] in Hne.
  simpl. apply IH; [exact Hfresh'|]. clear IH Hfresh Hfresh'.
  destruct (handle_evaluations env r w)
    as (added & (g & Hg & Hid & _ & Hkeep) & _).
  destruct (evaluation_get w id) as [ev|] eqn:Hev; [|discriminate].
  injection Hst as Hst.
  unfold evaluation_get, repo_get. rewrite Hg.
  rewrite find_map_commute by (intros x; now rewrite Hid).
  rewrite (find_app_some _ _ added ev Hev). cbn [option_map].
  f_equal. apply Hkeep; [|exact Hst].
  apply (repo_get_id Evaluation.t Evaluation.id) in Hev. congruence.
Qed.

Lemma completed_stays_completed_witness :
  Forall (fun c => uuid4 (fst c) 0 <> "E1")
         [(sample_env, StartEvaluation "H1" "CGENERAL");
          (sample_env, SubmitVote "E1" "U9" "true");
          (sample_env, AdminFinalize "E1" "UADMIN" "rejected");
          (sample_env, ForceComplete "E1" "UADMIN" "failed");
          (sample_env, FinalizeTimer "E1")]
  /\ option_map Evaluation.status (evaluation_get completed_world "E1")
     = Some "completed"
  /\ option_map Evaluation.status
       (evaluation_get
          (run [(sample_env, StartEvaluation "H1" "CGENERAL");
                (sample_env, SubmitVote "E1" "U9" "true");
                (sample_env, AdminFinalize "E1" "UADMIN" "rejected");
                (sample_env, ForceComplete "E1" "UADMIN" "failed");
                (sample_env, FinalizeTimer "E1")] completed_world) "E1")
     = Some "completed".
Proof.
  assert (H : Forall (fun c => uuid4 (fst c) 0 <> "E1")
                [(sample_env, StartEvaluation "H1" "CGENERAL");
                 (sample_env, SubmitVote "E1" "U9" "true");
                 (sample_env, AdminFinalize "E1" "UADMIN" "rejected");
                 (sample_env, ForceComplete "E1" "UADMIN" "failed");
                 (sample_env, FinalizeTimer "E1")])
    by (repeat constructor; discriminate).
  split; [exact H|]. split; [reflexivity|].
  exact (completed_stays_completed _ completed_world "E1" H eq_refl).
Defined.

(** ** Owner and repository of a link *)

(** X20. Parsing inverts building: a link built from the scheme http or
    https, the host, an owner and a repository (proper segments),
    followed by nothing or by a slash and anything, is parsed by the
    pattern of [check_github_repo_public] into that owner and that
    repository, so the check asks the API about them whatever follows
    the repository. *)
Theorem owner_repo_round_trip github scheme owner repo rest :
  scheme = "http" \/ scheme = "https" ->
  segment owner -> segment repo ->
  rest = "" \/ (exists t, rest = String "/" t) ->
  let url := scheme ++ "://github.com/" ++ owner ++ "/" ++ repo ++ rest in
  github_owner_repo url = Some (owner, repo)
  /\ (check_github_repo_public github url = true
      <-> github ("https://api.github.com/repos/" ++ owner ++ "/" ++ repo)
          = ApiStatus 200 (PrivateValue false)).
Proof.
  intros Hs Ho Hr Hrest. cbv zeta.
  assert (Hparse : github_owner_repo
                     (scheme ++ "://github.com/" ++ owner ++ "/" ++ repo
                             ++ rest) = Some (owner, repo)).
  { assert (Htail : forall x,
               x = "://github.com/" ++ owner ++ "/" ++ repo ++ rest ->
               match strip_prefix "://github.com/" x with
               | None => None
               | Some x =>
                 let (user, x) := span_not_slash x in
                 if user =? "" then None
                 else
                   match strip_prefix "/" x with
                   | None => None
                   | Some x =>
                     let (repo, _) := span_not_slash x in
                     if repo =? "" then None else Some (user, repo)
                   end
               end = Some (owner, repo)).
    { intros x ->. rewrite strip_prefix_app.
      change (owner ++ "/" ++ repo ++ rest)
        with (owner ++ String "/" (repo ++ rest)).
      rewrite span_not_slash_slash by apply Ho.
      rewrite (segment_eqb_empty owner Ho). cbn [strip_prefix].
      rewrite Ascii.eqb_refl.
      destruct Hrest as [->|(t & ->)].
      - rewrite append_nil_r, span_not_slash_end by apply Hr.
        now rewrite (segment_eqb_empty repo Hr).
      - rewrite span_not_slash_slash by apply Hr.
        now rewrite (segment_eqb_empty repo Hr). }
    unfold github_owner_repo.
    destruct Hs as [-> | ->]; exact (Htail _ eq_refl). }
  split; [exact Hparse|].
  unfold check_github_repo_public. rewrite Hparse. unfold api_url.
  destruct (github _) as [|code private]; [split; discriminate|].
  destruct (Nat.eqb_spec code 200) as [->|Hcode].
  - destruct private as [|[|]]; simpl; split; try discriminate; reflexivity.
  - split.
    + now destruct (code =? 404)%nat.
    + intros H. injection H as H _. congruence.
Qed.

Lemma owner_repo_round_trip_witness :
  segment "team" /\ segment "project"
  /\ _is_valid_github_url "https://github.com/team/project/tree/main" = false
  /\ github_owner_repo "https://github.com/team/project/tree/main"
     = Some ("team", "project").
Proof.
  assert (Ho : segment "team") by (split; [discriminate|reflexivity]).
  assert (Hr : segment "project") by (split; [discriminate|reflexivity]).
  split; [exact Ho|]. split; [exact Hr|]. split; [reflexivity|].
  exact (proj1 (owner_repo_round_trip (fun _ => ApiRaises) "https" "team"
                  "project" "/tree/main" (or_intror eq_refl) Ho Hr
                  (or_intror (ex_intro _ "tree/main" eq_refl)))).
Defined.

(** ** Slots under the requests *)

(** X21. Nobody holds two slots in an evaluation: if the pairs of
    evaluation and user of the juror rows are distinct, they are after
    any sequence of service requests served one after the other. *)
Theorem slots_stay_unique calls w :
  unique_slots w -> unique_slots (run calls w).
Proof.
  revert w. induction calls as [|[env r] calls IH]; intros w Hw;
    [exact Hw|].
  simpl. apply IH. now apply handle_unique_slots.
Qed.

Lemma slots_stay_unique_witness :
  unique_slots recruiting_world
  /\ unique_slots
       (run [(sample_env, ToggleJuror "E1" "U7");
             (second_env, ToggleJuror "E1" "U8");
             (sample_env, ToggleJuror "E1" "U7");
             (sample_env, ToggleJuror "E1" "U7");
             (sample_env, SubmitVote "E1" "U7" "true")] recruiting_world).
Proof.
  assert (H : unique_slots recruiting_world) by constructor.
  split; [exact H|].
  exact (slots_stay_unique _ recruiting_world H).
Defined.
